(** * Piping: the package / environment discovery and reconciliation layer

    A shallow embedding of [PythonExecutor] (utils/pythonExecutor.ts) and of
    [PipingEnvironmentProvider.setActiveEnvironment]
    (providers/environmentProvider.ts).

    The TypeScript code is asynchronous and effectful: it spawns processes,
    reads the file system, writes to an output channel and mutates
    [EnvironmentInfo] objects that are shared by reference.  The embedding
    threads one explicit [State] through a small state-and-exception monad;
    the outside world (processes, file system, editor configuration) is an
    abstract type [W] with the operations of the [Host] class. *)

From Stdlib Require Import ZArith Ascii String List Bool Lia DecimalString.
From stdpp Require Import gmap strings list fin_maps.

Local Open Scope string_scope.
Local Open Scope list_scope.

(** ** JavaScript strings *)

Module JsString.

Definition chr (n : nat) : string := String (ascii_of_nat n) EmptyString.

(** The characters the source writes as escapes. *)
Definition dquote : string := chr 34.
Definition newline : string := chr 10.

(** [!!s] and [if (s)] on a string: only the empty string is falsy. *)
Definition truthy (s : string) : bool :=
  match s with EmptyString => false | String _ _ => true end.

Definition lower_ascii (c : ascii) : ascii :=
  let n := nat_of_ascii c in
  if (65 <=? n)%nat && (n <=? 90)%nat then ascii_of_nat (n + 32) else c.

(** [s.toLowerCase()], on the ASCII letters. *)
Fixpoint toLowerCase (s : string) : string :=
  match s with
  | EmptyString => EmptyString
  | String c s' => String (lower_ascii c) (toLowerCase s')
  end.

(** [s.startsWith(p)] *)
Definition startsWith (s p : string) : bool := String.prefix p s.

(** [s.includes(sub)] *)
Fixpoint includes (s sub : string) : bool :=
  if String.prefix sub s then true
  else match s with
       | EmptyString => false
       | String _ s' => includes s' sub
       end.

Fixpoint rev_string (s : string) : string :=
  match s with
  | EmptyString => EmptyString
  | String c s' => rev_string s' +:+ String c EmptyString
  end.

(** [s.endsWith(p)] *)
Definition endsWith (s p : string) : bool :=
  String.prefix (rev_string p) (rev_string s).

(** White space and line terminators of the ASCII range. *)
Definition is_space (c : ascii) : bool :=
  let n := nat_of_ascii c in
  ((9 <=? n)%nat && (n <=? 13)%nat) || (n =? 32)%nat.

Fixpoint trimStart (s : string) : string :=
  match s with
  | EmptyString => EmptyString
  | String c s' => if is_space c then trimStart s' else s
  end.

(** [s.trim()] *)
Definition trim (s : string) : string :=
  rev_string (trimStart (rev_string (trimStart s))).

(** [s.split('\n')]: never empty. *)
Fixpoint split_lines (s : string) : list string :=
  match s with
  | EmptyString => [EmptyString]
  | String c s' =>
      if Ascii.eqb c (ascii_of_nat 10) then EmptyString :: split_lines s'
      else match split_lines s' with
           | l :: ls => String c l :: ls
           | [] => [String c EmptyString]
           end
  end.

(** [s.substring(n)] *)
Fixpoint substring_from (n : nat) (s : string) : string :=
  match n, s with
  | O, _ => s
  | S n', String _ s' => substring_from n' s'
  | S _, EmptyString => EmptyString
  end.

(** [l.join(sep)] *)
Definition join (sep : string) (l : list string) : string := String.concat sep l.

(** A number inside a template literal. *)
Definition of_Z (z : Z) : string := NilZero.string_of_int (Z.to_int z).

End JsString.
Import JsString.

(** ** Errors and completions *)

Record JsError := mkError { err_name : string; err_message : string }.

(** [new Error(msg)] *)
Definition Error (msg : string) : JsError := mkError "Error" msg.

(** [`${error}`] *)
Definition error_toString (e : JsError) : string :=
  err_name e +:+ ": " +:+ err_message e.

Inductive Completion (A : Type) : Type :=
| Return (a : A)
| Throw (e : JsError).
Arguments Return {A} a.
Arguments Throw {A} e.

(** ** The data model (interfaces of pythonExecutor.ts) *)

Record PackageInfo := mkPackageInfo {
  pkg_name : string;
  pkg_version : string;
  pkg_latest : option string;
  pkg_description : option string;
  pkg_hasUpdate : option bool
}.

Record EnvironmentInfo := mkEnvironmentInfo {
  env_name : string;
  env_path : string;
  env_isActive : bool
}.

(** An element of [pip list --format=json]. *)
Record InstalledEntry := mkInstalled {
  inst_name : string;
  inst_version : string
}.

(** An element of [pip list --outdated --format=json]. *)
Record OutdatedEntry := mkOutdated {
  out_name : string;
  out_version : string;
  out_latest_version : string
}.

(** The result of [getPipCommand]. *)
Record PipCommand := mkPipCommand {
  command : string;
  args : list string;
  envPath : option string
}.

(** The result of [updatePackages]. *)
Record UpdateResult := mkUpdateResult {
  success : list string;
  failed : list string
}.

(** ** The host: node's child_process, fs, os and path, and the editor *)

(** What the callback of [cp.exec] receives. *)
Record ExecOutcome := mkExec {
  exec_error : option JsError;
  exec_stdout : string;
  exec_stderr : string
}.

(** How a process started by [cp.spawn] ends: a 'close' event with its exit
    code (null when killed by a signal) and the data it wrote, or an 'error'
    event. *)
Inductive SpawnOutcome :=
| Closed (code : option Z) (stdout stderr : string)
| SpawnError (e : JsError).

Record Stats := mkStats { isDirectory : bool; isFile : bool }.

(** Objects live in a heap and are held by reference. *)
Definition loc := nat.

Inductive Process :=
| ViaExec (commandLine : string)
| ViaSpawn (cmdPath : string) (argv : list string).

Class Host (W : Type) := {
  (** [os.platform() === 'win32'] *)
  win32 : bool;
  (** [path.join(...)] *)
  path_join : list string -> string;
  (** [cp.exec(command, callback)] *)
  cp_exec : W -> string -> ExecOutcome * W;
  (** [cp.spawn(cmdPath, args, {shell: true})] *)
  cp_spawn : W -> string -> list string -> SpawnOutcome * W;
  (** [fs.promises.access(p, fs.constants.X_OK)] resolves *)
  fs_access_X : W -> string -> bool;
  (** [fs.promises.stat(p)]; [None] when it rejects *)
  fs_stat : W -> string -> option Stats;
  (** [vscode.extensions.getExtension('ms-python.python')] is defined *)
  pythonExtension : W -> bool;
  (** [getConfiguration('python').get('defaultInterpreterPath')] *)
  defaultInterpreterPath : W -> option string;
  (** [vscode.workspace.workspaceFolders], as their [uri.fsPath] *)
  workspaceFolders : W -> option (list string);
  (** [JSON.parse(output) as Array<{name, version}>] *)
  JSON_parse_installed : string -> Completion (list InstalledEntry);
  (** [JSON.parse(output) as Array<{name, version, latest_version}>] *)
  JSON_parse_outdated : string -> Completion (list OutdatedEntry);
  (** the text of an empty array parses to the empty array *)
  JSON_parse_empty_array : JSON_parse_outdated "[]" = Return []
}.

(** ** State and the monad of the embedding *)

Record State (W : Type) := mkState {
  world : W;
  (** the [EnvironmentInfo] objects, by reference *)
  heap : gmap loc EnvironmentInfo;
  (** [PythonExecutor._currentEnv] *)
  currentEnv : option loc;
  (** [PipingEnvironmentProvider._environments] *)
  environments : list loc;
  (** the text of the 'Piping' output channel *)
  channel : string;
  (** [vscode.window.showErrorMessage] notifications, oldest first *)
  errorMessages : list string;
  (** every external process started, oldest first *)
  processes : list Process;
  (** number of [_onDidChangeTreeData.fire()] events *)
  fired : nat
}.
Arguments mkState {W}.
Arguments world {W}.
Arguments heap {W}.
Arguments currentEnv {W}.
Arguments environments {W}.
Arguments channel {W}.
Arguments errorMessages {W}.
Arguments processes {W}.
Arguments fired {W}.

Section Monad.

Context {W : Type}.

Local Abbreviation State := (State W).

Definition M (A : Type) : Type := State -> Completion A * State.

Definition ret {A} (a : A) : M A := fun s => (Return a, s).

Definition throw {A} (e : JsError) : M A := fun s => (Throw e, s).

Definition bind {A B} (m : M A) (k : A -> M B) : M B :=
  fun s => match m s with
           | (Return a, s') => k a s'
           | (Throw e, s') => (Throw e, s')
           end.

(** [try { m } catch (error) { h error }] *)
Definition try_catch {A} (m : M A) (h : JsError -> M A) : M A :=
  fun s => match m s with
           | (Return a, s') => (Return a, s')
           | (Throw e, s') => h e s'
           end.

Definition gets {A} (f : State -> A) : M A := fun s => (Return (f s), s).

Definition modify (f : State -> State) : M unit := fun s => (Return tt, f s).

End Monad.

Notation "x <- m ;; k" := (bind m (fun x => k))
  (at level 100, m at next level, right associativity).
Notation "m ;;; k" := (bind m (fun _ => k))
  (at level 100, right associativity).

(** ** PythonExecutor *)

Section Executor.

Context {W : Type} `{HostW : Host W}.

Local Abbreviation State := (State W).
Local Abbreviation M := (@M W).

(** *** State accessors *)

Definition set_world (w : W) (s : State) : State :=
  mkState w (heap s) (currentEnv s) (environments s) (channel s)
          (errorMessages s) (processes s) (fired s).

Definition set_heap (h : gmap loc EnvironmentInfo) (s : State) : State :=
  mkState (world s) h (currentEnv s) (environments s) (channel s)
          (errorMessages s) (processes s) (fired s).

Definition set_currentEnv (c : option loc) (s : State) : State :=
  mkState (world s) (heap s) c (environments s) (channel s)
          (errorMessages s) (processes s) (fired s).

(** [this._outputChannel.append(text)] *)
Definition append (text : string) : M unit :=
  modify (fun s => mkState (world s) (heap s) (currentEnv s) (environments s)
                           (channel s +:+ text)
                           (errorMessages s) (processes s) (fired s)).

(** [this._outputChannel.appendLine(text)] *)
Definition appendLine (text : string) : M unit := append (text +:+ newline).

(** [vscode.window.showErrorMessage(text)] *)
Definition showErrorMessage (text : string) : M unit :=
  modify (fun s => mkState (world s) (heap s) (currentEnv s) (environments s)
                           (channel s)
                           (errorMessages s ++ [text]) (processes s) (fired s)).

Definition started (p : Process) (s : State) : State :=
  mkState (world s) (heap s) (currentEnv s) (environments s) (channel s)
          (errorMessages s) (processes s ++ [p]) (fired s).

(** The object [this._currentEnv] refers to, if any. *)
Definition current_environment (s : State) : option EnvironmentInfo :=
  currentEnv s ≫= (fun l => heap s !! l).

(** *** executeSystemCommand *)

Definition executeSystemCommand (cmdline : string) : M ExecOutcome :=
  fun s =>
    let '(r, w') := cp_exec (world s) cmdline in
    let s' := started (ViaExec cmdline) (set_world w' s) in
    match exec_error r with
    | Some error =>
        if truthy (exec_stderr r) then
          (appendLine ("Error executing command: " +:+ cmdline) ;;;
           appendLine (exec_stderr r) ;;;
           throw error) s'
        else (Return r, s')
    | None => (Return r, s')
    end.

(** *** testPythonPath *)

Definition testPythonPath (pythonPath : string) : M bool :=
  try_catch
    (r <- executeSystemCommand (dquote +:+ pythonPath +:+ dquote +:+ " --version") ;;
     ret (includes (toLowerCase (exec_stdout r)) "python"))
    (fun _ => ret false).

(** *** getPythonPath *)

Definition pythonCommands : list string :=
  if win32 then ["python.exe"; "python3.exe"; "py.exe"]
  else ["python3"; "python"].

Definition whichCmd : string := if win32 then "where" else "which".

(** The first block of [getPythonPath]: the interpreter configured for the
    Python extension.  [Some p] stands for [return p]. *)
Definition fromExtension : M (option string) :=
  try_catch
    (ext <- gets (fun s => pythonExtension (world s)) ;;
     if ext : bool then
       cfg <- gets (fun s => defaultInterpreterPath (world s)) ;;
       match cfg with
       | Some pythonPath =>
           if truthy pythonPath then
             result <- testPythonPath pythonPath ;;
             if result : bool then ret (Some pythonPath) else ret None
           else ret None
       | None => ret None
       end
     else ret None)
    (fun error =>
       appendLine ("Error getting Python path from VS Code extension: "
                   +:+ error_toString error) ;;;
       ret None).

(** One iteration of the loop over [pythonCommands]. *)
Definition probeCommand (cmd : string) : M (option string) :=
  try_catch
    (r <- executeSystemCommand (whichCmd +:+ " " +:+ cmd) ;;
     if truthy (exec_stdout r) then
       let pythonPath := hd EmptyString (split_lines (trim (exec_stdout r))) in
       result <- testPythonPath pythonPath ;;
       if result : bool then ret (Some pythonPath) else ret None
     else ret None)
    (fun error =>
       appendLine ("Python command " +:+ cmd +:+ " not found: "
                   +:+ error_toString error) ;;;
       ret None).

Fixpoint fromPATH (cmds : list string) : M (option string) :=
  match cmds with
  | [] => ret None
  | cmd :: rest =>
      r <- probeCommand cmd ;;
      match r with
      | Some pythonPath => ret (Some pythonPath)
      | None => fromPATH rest
      end
  end.

Definition noPythonError : JsError :=
  Error "No Python installation found. Please install Python or configure the python.defaultInterpreterPath setting.".

Definition getPythonPath : M string :=
  r <- fromExtension ;;
  match r with
  | Some pythonPath => ret pythonPath
  | None =>
      r' <- fromPATH pythonCommands ;;
      match r' with
      | Some pythonPath => ret pythonPath
      | None => throw noPythonError
      end
  end.

(** *** executeCommand *)

Definition binDir : string := if win32 then "Scripts" else "bin".

Definition resolveCmdPath (cmd : string) (envPath : option string) : string :=
  match envPath with
  | Some p =>
      if truthy p then
        let cmdPath := path_join [p; binDir; cmd] in
        if win32 && negb (endsWith cmdPath ".exe") then cmdPath +:+ ".exe"
        else cmdPath
      else cmd
  | None => cmd
  end.

Definition exitCode_toString (code : option Z) : string :=
  match code with Some z => of_Z z | None => "null" end.

Definition executeCommand (cmd : string) (argv : list string)
           (envPath : option string) : M string :=
  let cmdPath := resolveCmdPath cmd envPath in
  appendLine ("Executing: " +:+ cmdPath +:+ " " +:+ join " " argv) ;;;
  fun s =>
    let '(r, w') := cp_spawn (world s) cmdPath argv in
    let s' := started (ViaSpawn cmdPath argv) (set_world w' s) in
    match r with
    | Closed code stdout stderr =>
        (append stdout ;;;
         append stderr ;;;
         match code with
         | Some 0%Z => ret stdout
         | _ => throw (Error ("Command failed with exit code "
                              +:+ exitCode_toString code +:+ ": " +:+ stderr))
         end) s'
    | SpawnError error => (Throw error, s')
    end.

(** *** getPipCommand *)

(** [fs.promises.access(p, fs.constants.X_OK)]; its only caller discards
    the error it rejects with. *)
Definition access_X (p : string) : M unit :=
  fun s => if fs_access_X (world s) p then (Return tt, s)
           else (Throw (Error ("EACCES: permission denied, access " +:+ p)), s).

Definition pipCommand : string := if win32 then "pip.exe" else "pip".

(** The block guarded by [if (this._currentEnv)]; [Some c] stands for
    [return c]. *)
Definition fromCurrentEnv : M (option PipCommand) :=
  cur <- gets current_environment ;;
  match cur with
  | Some env =>
      let pipPath := path_join [env_path env; binDir; pipCommand] in
      try_catch
        (access_X pipPath ;;;
         ret (Some (mkPipCommand pipPath [] None)))
        (fun _ =>
           appendLine ("Pip not found in environment: " +:+ pipPath) ;;;
           ret None)
  | None => ret None
  end.

Definition getPipCommand : M PipCommand :=
  r <- fromCurrentEnv ;;
  match r with
  | Some c => ret c
  | None =>
      pythonPath <- getPythonPath ;;
      ret (mkPipCommand pythonPath ["-m"; "pip"] None)
  end.

(** *** getInstalledPackages *)

(** A value of the host lifted into the monad: a [Throw] is thrown. *)
Definition lift {A} (c : Completion A) : M A := fun s => (c, s).

(** The [Map] filled by [outdatedPackages.forEach]. *)
Definition buildOutdatedMap (outdatedPackages : list OutdatedEntry)
  : gmap string string :=
  foldl (fun m pkg => <[out_name pkg := out_latest_version pkg]> m)
        ∅ outdatedPackages.

(** [!!latest] *)
Definition double_bang (latest : option string) : bool :=
  match latest with
  | Some v => truthy v
  | None => false
  end.

(** The loop over the lines of [pip show]. *)
Definition parseSummary (showOutput : string) : string :=
  match List.find (fun line => startsWith line "Summary:")
                  (split_lines showOutput) with
  | Some line => trim (substring_from (String.length "Summary:") line)
  | None => EmptyString
  end.

Definition fetchDescription (pc : PipCommand) (pkgName : string) : M string :=
  try_catch
    (showOutput <- executeCommand (command pc) (args pc ++ ["show"; pkgName])
                                  (envPath pc) ;;
     ret (parseSummary showOutput))
    (fun _ => ret EmptyString).

(** The loop [for (const pkg of packagesData)], pushing onto
    [packages_with_details]. *)
Fixpoint mergeLoop (pc : PipCommand) (outdatedMap : gmap string string)
         (packagesData : list InstalledEntry)
         (packages_with_details : list PackageInfo) : M (list PackageInfo) :=
  match packagesData with
  | [] => ret packages_with_details
  | pkg :: rest =>
      let latest := outdatedMap !! inst_name pkg in
      description <- fetchDescription pc (inst_name pkg) ;;
      mergeLoop pc outdatedMap rest
                (packages_with_details ++
                 [mkPackageInfo (inst_name pkg) (inst_version pkg) latest
                                (Some description) (Some (double_bang latest))])
  end.

Definition getInstalledPackages : M (list PackageInfo) :=
  try_catch
    (pc <- getPipCommand ;;
     output <- executeCommand (command pc)
                              (args pc ++ ["list"; "--format=json"])
                              (envPath pc) ;;
     packagesData <- lift (JSON_parse_installed output) ;;
     outdatedOutput <-
       try_catch (executeCommand (command pc)
                                 (args pc ++ ["list"; "--outdated"; "--format=json"])
                                 (envPath pc))
                 (fun _ => ret "[]") ;;
     outdatedPackages <- lift (JSON_parse_outdated outdatedOutput) ;;
     mergeLoop pc (buildOutdatedMap outdatedPackages) packagesData [])
    (fun error =>
       appendLine ("Error getting installed packages: " +:+ error_toString error) ;;;
       showErrorMessage
         "Failed to get installed packages. See output channel for details." ;;;
       ret []).

(** *** getVirtualEnvironments *)

Definition envFolders : list string :=
  [".venv"; "venv"; "env"; ".env"; ".virtualenv"; "virtualenv"].

Definition interiorPython : string :=
  if win32 then "Scripts/python.exe" else "bin/python".

(** [fs.promises.stat(p)]; its callers discard the error it rejects
    with. *)
Definition stat (p : string) : M Stats :=
  fun s => match fs_stat (world s) p with
           | Some st => (Return st, s)
           | None => (Throw (Error ("ENOENT: no such file or directory, stat " +:+ p)), s)
           end.

(** [this._currentEnv?.path === envPath] *)
Definition isCurrentPath (s : State) (envPath : string) : bool :=
  match current_environment s with
  | Some env => String.eqb (env_path env) envPath
  | None => false
  end.

(** The body of the inner loop, for one folder and one candidate name. *)
Definition probeEnvironment (folder envName : string)
           (found : list EnvironmentInfo) : M (list EnvironmentInfo) :=
  let envPath := path_join [folder; envName] in
  try_catch
    (stats <- stat envPath ;;
     if isDirectory stats then
       let pythonExePath := path_join [envPath; interiorPython] in
       try_catch
         (pythonExeStats <- stat pythonExePath ;;
          if isFile pythonExeStats then
            isActive <- gets (fun s => isCurrentPath s envPath) ;;
            ret (found ++ [mkEnvironmentInfo envName envPath isActive])
          else ret found)
         (fun _ => ret found)
     else ret found)
    (fun _ => ret found).

Fixpoint scanFolder (folder : string) (names : list string)
         (found : list EnvironmentInfo) : M (list EnvironmentInfo) :=
  match names with
  | [] => ret found
  | envName :: rest =>
      found' <- probeEnvironment folder envName found ;;
      scanFolder folder rest found'
  end.

Fixpoint scanFolders (folders : list string)
         (found : list EnvironmentInfo) : M (list EnvironmentInfo) :=
  match folders with
  | [] => ret found
  | folder :: rest =>
      found' <- scanFolder folder envFolders found ;;
      scanFolders rest found'
  end.

Definition getVirtualEnvironments : M (list EnvironmentInfo) :=
  wf <- gets (fun s => workspaceFolders (world s)) ;;
  match wf with
  | None => ret []
  | Some folders => scanFolders folders []
  end.

(** *** updatePackages *)

(** One iteration of the per-package loop: [true] when the package went to
    [success], [false] when it went to [failed]. *)
Definition updateOne (pc : PipCommand) (pkgName : string) : M bool :=
  try_catch
    (executeCommand (command pc) (args pc ++ ["install"; "--upgrade"; pkgName])
                    (envPath pc) ;;;
     ret true)
    (fun error =>
       appendLine ("Error updating package " +:+ pkgName +:+ ": "
                   +:+ error_toString error) ;;;
       ret false).

Fixpoint updateEach (pc : PipCommand) (packageNames : list string)
         (succ fail : list string) : M UpdateResult :=
  match packageNames with
  | [] => ret (mkUpdateResult succ fail)
  | pkgName :: rest =>
      ok <- updateOne pc pkgName ;;
      if ok : bool then updateEach pc rest (succ ++ [pkgName]) fail
      else updateEach pc rest succ (fail ++ [pkgName])
  end.

(** [a.includes(x)] on an array of strings *)
Definition array_includes (a : list string) (x : string) : bool :=
  existsb (String.eqb x) a.

(** The arrays [success] and [failed] are only pushed to by [updateEach],
    which catches every error of its own (lemma [updateEach_returns]); the
    outer handler therefore runs with both still empty. *)
Definition updatePackages (packageNames : list string) : M UpdateResult :=
  match packageNames with
  | [] => ret (mkUpdateResult [] [])
  | _ :: _ =>
      let succ : list string := [] in
      let fail : list string := [] in
      try_catch
        (pc <- getPipCommand ;;
         try_catch
           (executeCommand (command pc)
                           (args pc ++ ["install"; "--upgrade"] ++ packageNames)
                           (envPath pc) ;;;
            appendLine ("Successfully updated packages: "
                        +:+ join ", " packageNames) ;;;
            ret (mkUpdateResult packageNames []))
           (fun batchError =>
              appendLine ("Batch update failed, falling back to individual updates: "
                          +:+ error_toString batchError) ;;;
              updateEach pc packageNames succ fail))
        (fun error =>
           appendLine ("Error in updatePackages: " +:+ error_toString error) ;;;
           ret (mkUpdateResult
                  succ
                  (fail ++ List.filter (fun pkg => negb (array_includes succ pkg))
                                       packageNames)))
  end.

End Executor.

(** ** PipingEnvironmentProvider *)

Section Provider.

Context {W : Type}.

Local Abbreviation State := (State W).
Local Abbreviation M := (@M W).

(** [env.isActive = b] *)
Definition set_isActive (b : bool) (env : EnvironmentInfo) : EnvironmentInfo :=
  mkEnvironmentInfo (env_name env) (env_path env) b.

(** [this._environments.forEach(env => { env.isActive = false; })] *)
Definition deactivateAll (envs : list loc) (h : gmap loc EnvironmentInfo)
  : gmap loc EnvironmentInfo :=
  foldl (fun h l => alter (set_isActive false) l h) h envs.

(** [e => e.name === envName], through the reference *)
Definition hasName (h : gmap loc EnvironmentInfo) (envName : string) (l : loc)
  : bool :=
  match h !! l with
  | Some env => String.eqb (env_name env) envName
  | None => false
  end.

(** [this._onDidChangeTreeData.fire()] *)
Definition refresh : M unit :=
  modify (fun s => mkState (world s) (heap s) (currentEnv s) (environments s)
                           (channel s) (errorMessages s) (processes s)
                           (S (fired s))).

Definition setActiveEnvironment (envName : string) : M unit :=
  envs <- gets environments ;;
  modify (fun s => set_heap (deactivateAll envs (heap s)) s) ;;;
  env <- gets (fun s => List.find (hasName (heap s) envName) envs) ;;
  match env with
  | Some l =>
      modify (fun s => set_heap (alter (set_isActive true) l (heap s)) s) ;;;
      modify (set_currentEnv (Some l))
  | None => ret tt
  end ;;;
  refresh.

(** [this._environments.find(env => env.name === name)] *)
Definition getEnvironmentByName (envName : string) : M (option EnvironmentInfo) :=
  gets (fun s => List.find (hasName (heap s) envName) (environments s)
                 ≫= (fun l => heap s !! l)).

End Provider.

(** ** PythonExecutor: installing, removing, updating, creating *)

Section Operations.

Context {W : Type} `{HostW : Host W}.

Local Abbreviation State := (State W).
Local Abbreviation M := (@M W).

(** [version ? `${packageName}==${version}` : packageName] *)
Definition packageSpecOf (packageName : string) (version : option string)
  : string :=
  match version with
  | Some v => if truthy v then packageName +:+ "==" +:+ v else packageName
  | None => packageName
  end.

Definition installPackage (packageName : string) (version : option string)
  : M bool :=
  try_catch
    (pc <- getPipCommand ;;
     let packageSpec := packageSpecOf packageName version in
     executeCommand (command pc) (args pc ++ ["install"; packageSpec]) (envPath pc) ;;;
     ret true)
    (fun error =>
       appendLine ("Error installing package: " +:+ error_toString error) ;;;
       ret false).

Definition uninstallPackage (packageName : string) : M bool :=
  try_catch
    (pc <- getPipCommand ;;
     executeCommand (command pc) (args pc ++ ["uninstall"; "-y"; packageName])
                    (envPath pc) ;;;
     ret true)
    (fun error =>
       appendLine ("Error uninstalling package: " +:+ error_toString error) ;;;
       ret false).

Definition updatePackage (packageName : string) : M bool :=
  try_catch
    (pc <- getPipCommand ;;
     executeCommand (command pc) (args pc ++ ["install"; "--upgrade"; packageName])
                    (envPath pc) ;;;
     ret true)
    (fun error =>
       appendLine ("Error updating package: " +:+ error_toString error) ;;;
       ret false).

(** [vscode.workspace.workspaceFolders?.[0]] *)
Definition firstWorkspaceFolder (s : State) : option string :=
  workspaceFolders (world s) ≫= head.

(** [undefined] is [None]. *)
Definition createVirtualEnvironment (name : string) : M (option EnvironmentInfo) :=
  try_catch
    (pythonPath <- getPythonPath ;;
     workspaceFolder <- gets firstWorkspaceFolder ;;
     match workspaceFolder with
     | None => throw (Error "No workspace folder is open")
     | Some folder =>
         let envPath := path_join [folder; name] in
         executeCommand pythonPath ["-m"; "venv"; envPath] None ;;;
         ret (Some (mkEnvironmentInfo name envPath false))
     end)
    (fun error =>
       appendLine ("Error creating virtual environment: " +:+ error_toString error) ;;;
       ret None).

End Operations.

(** ** The rest of the desktop: sorting, the temporary directory, the
    search script, and the notifications and views around the executor *)

(** What the search script prints, parsed: an object with an [error]
    field, or an array of hits. *)
Inductive SearchResults :=
| ScriptError (message : string)
| Hits (hits : list PackageInfo).

Class Desktop (W : Type) := {
  (** [a.localeCompare(b)] *)
  localeCompare : string -> string -> Z;
  (** [path.basename(p)] *)
  path_basename : string -> string;
  (** [os.tmpdir()] *)
  os_tmpdir : W -> string;
  (** [fs.promises.writeFile(p, content)]: the error it rejects with, if
      any, and the world after it *)
  fs_writeFile : W -> string -> string -> option JsError * W;
  (** the text of the Python script that [searchPackages] writes *)
  scriptContent : string;
  (** [JSON.parse(output)] on the output of the search script *)
  JSON_parse_search : string -> Completion SearchResults
}.

(** [array.sort(compare)]: a stable sort, by insertion.  [x] goes in front
    of the first element that [compare] puts after it. *)
Fixpoint sort_insert {A} (compare : A -> A -> Z) (x : A) (sorted : list A)
  : list A :=
  match sorted with
  | [] => [x]
  | y :: rest =>
      if (0 <? compare y x)%Z then x :: y :: rest
      else y :: sort_insert compare x rest
  end.

Definition array_sort {A} (compare : A -> A -> Z) (l : list A) : list A :=
  foldl (fun sorted x => sort_insert compare x sorted) [] l.

Module JsSplit.

(** [s.split('==')] *)
Fixpoint split_double_equals (s : string) : list string :=
  match s with
  | EmptyString => [EmptyString]
  | String c1 s1 =>
      match s1 with
      | String c2 s2 =>
          if Ascii.eqb c1 "="%char && Ascii.eqb c2 "="%char
          then EmptyString :: split_double_equals s2
          else match split_double_equals s1 with
               | piece :: pieces => String c1 piece :: pieces
               | [] => [String c1 EmptyString]
               end
      | EmptyString => [String c1 EmptyString]
      end
  end.

(** [s.split(/\s+/)]: [in_space] says that the previous character was
    white space, so that a run of white space separates once. *)
Fixpoint split_spaces_from (in_space : bool) (s : string) : list string :=
  match s with
  | EmptyString => [EmptyString]
  | String c s' =>
      if is_space c then
        if in_space then split_spaces_from true s'
        else EmptyString :: split_spaces_from true s'
      else match split_spaces_from false s' with
           | piece :: pieces => String c piece :: pieces
           | [] => [String c EmptyString]
           end
  end.

Definition split_spaces (s : string) : list string := split_spaces_from false s.

End JsSplit.
Import JsSplit.

(** The executor's state together with what the package view and the
    notifications hold. *)
Record Session (W : Type) := mkSession {
  executor : State W;
  (** [PipingPackageProvider._packages] *)
  heldPackages : list PackageInfo;
  (** number of [fire()] events of the package view *)
  packagesFired : nat;
  (** [vscode.window.showInformationMessage] notifications, oldest first *)
  informationMessages : list string;
  (** [vscode.window.showWarningMessage] notifications, oldest first *)
  warningMessages : list string;
  (** [console.error] lines, oldest first *)
  consoleErrors : list string
}.
Arguments mkSession {W}.
Arguments executor {W}.
Arguments heldPackages {W}.
Arguments packagesFired {W}.
Arguments informationMessages {W}.
Arguments warningMessages {W}.
Arguments consoleErrors {W}.

Section SessionMonad.

Context {W : Type}.

Definition U (A : Type) : Type := Session W -> Completion A * Session W.

Definition uret {A} (a : A) : U A := fun u => (Return a, u).

Definition uthrow {A} (e : JsError) : U A := fun u => (Throw e, u).

Definition ubind {A B} (m : U A) (k : A -> U B) : U B :=
  fun u => match m u with
           | (Return a, u') => k a u'
           | (Throw e, u') => (Throw e, u')
           end.

(** [try { m } catch (error) { h error }] *)
Definition utry {A} (m : U A) (h : JsError -> U A) : U A :=
  fun u => match m u with
           | (Return a, u') => (Return a, u')
           | (Throw e, u') => h e u'
           end.

Definition ugets {A} (f : Session W -> A) : U A := fun u => (Return (f u), u).

Definition umodify (f : Session W -> Session W) : U unit :=
  fun u => (Return tt, f u).

Definition set_executor (s : State W) (u : Session W) : Session W :=
  mkSession s (heldPackages u) (packagesFired u) (informationMessages u)
            (warningMessages u) (consoleErrors u).

(** A computation of the executor, run on the executor's part of the
    session. *)
Definition run {A} (m : M A) : U A :=
  fun u => let '(r, s') := m (executor u) in (r, set_executor s' u).

(** [vscode.window.showInformationMessage(text)] *)
Definition showInformationMessage (text : string) : U unit :=
  umodify (fun u => mkSession (executor u) (heldPackages u) (packagesFired u)
                              (informationMessages u ++ [text])
                              (warningMessages u) (consoleErrors u)).

(** [vscode.window.showWarningMessage(text)] *)
Definition showWarningMessage (text : string) : U unit :=
  umodify (fun u => mkSession (executor u) (heldPackages u) (packagesFired u)
                              (informationMessages u)
                              (warningMessages u ++ [text]) (consoleErrors u)).

(** [console.error(text, error)] *)
Definition consoleError (text : string) (error : JsError) : U unit :=
  umodify (fun u => mkSession (executor u) (heldPackages u) (packagesFired u)
                              (informationMessages u) (warningMessages u)
                              (consoleErrors u ++
                               [text +:+ " " +:+ error_toString error])).

End SessionMonad.

Notation "x <~ m ;; k" := (ubind m (fun x => k))
  (at level 100, m at next level, right associativity).
Notation "m ;;~ k" := (ubind m (fun _ => k))
  (at level 100, right associativity).

(** ** PythonExecutor.searchPackages *)

Section Search.

Context {W : Type} `{HostW : Host W} `{DesktopW : Desktop W}.

Local Abbreviation M := (@M W).
Local Abbreviation U := (@U W).

(** [fs.promises.writeFile(p, content)] *)
Definition writeFile (p content : string) : M unit :=
  fun s =>
    let '(r, w') := fs_writeFile (world s) p content in
    match r with
    | Some error => (Throw error, set_world w' s)
    | None => (Return tt, set_world w' s)
    end.

(** The body of the loop over the lines of [pip list], from the third
    line on. *)
Definition fallbackHit (queryLower : string) (raw : string) : list PackageInfo :=
  let line := trim raw in
  if truthy line then
    match split_spaces line with
    | name :: version :: _ =>
        if includes (toLowerCase name) queryLower
        then [mkPackageInfo name version None (Some "Installed package") None]
        else []
    | _ => []
    end
  else [].

Fixpoint fallbackLoop (queryLower : string) (lines : list string)
         (found : list PackageInfo) : list PackageInfo :=
  match lines with
  | [] => found
  | raw :: rest => fallbackLoop queryLower rest (found ++ fallbackHit queryLower raw)
  end.

(** The basic search: the packages of [pip list] whose name contains the
    query. *)
Definition basicSearch (query : string) : U SearchResults :=
  utry
    (pc <~ run getPipCommand ;;
     output <~ run (executeCommand (command pc) (args pc ++ ["list"]) (envPath pc)) ;;
     uret (Hits (fallbackLoop (toLowerCase query)
                              (skipn 2 (split_lines output)) [])))
    (fun fallbackError =>
       run (appendLine ("Fallback search failed: "
                             +:+ error_toString fallbackError)) ;;~
       uret (Hits [])).

(** [JSON.parse(output)], the test of [results.error], and the [catch]
    that wraps whatever either throws. *)
Definition parseSearchOutput (output : string) : U SearchResults :=
  utry
    (results <~ run (lift (JSON_parse_search output)) ;;
     match results with
     | ScriptError message =>
         if truthy message then uthrow (Error message) else uret results
     | Hits _ => uret results
     end)
    (fun parseError =>
       uthrow (Error ("Failed to parse search results: "
                      +:+ error_toString parseError))).

(** What is returned is the parsed value itself, which the declared type
    takes to be an array. *)
Definition searchPackages (query : string) : U SearchResults :=
  utry
    (pc <~ run getPipCommand ;;
     tempDir <~ ugets (fun u => os_tmpdir (world (executor u))) ;;
     let scriptPath := path_join [tempDir; "piping_search.py"] in
     run (writeFile scriptPath scriptContent) ;;~
     output <~ run (executeCommand (command pc) (args pc ++ [scriptPath; query])
                                   (envPath pc)) ;;
     parseSearchOutput output)
    (fun error =>
       run (appendLine ("Error searching packages: " +:+ error_toString error)) ;;~
       showWarningMessage
              "Advanced package search failed. Falling back to basic search." ;;~
       basicSearch query).

End Search.

(** ** PipingPackageProvider *)

Module PipingPackageProvider.

Record PackageTreeItem := mkPackageTreeItem {
  packageInfo : PackageInfo;
  label : string;
  tooltip : string;
  description : string;
  contextValue : string;
  (** the id of the [ThemeIcon], if one is set *)
  iconPath : option string
}.

(** The bytes between the two versions in the description template. *)
Definition arrow : string :=
  chr 195 +:+ chr 162 +:+ chr 226 +:+ chr 128 +:+ chr 160
  +:+ chr 226 +:+ chr 128 +:+ chr 153.

(** [`${x}`] for an optional string *)
Definition optional_toString (x : option string) : string :=
  match x with Some v => v | None => "undefined" end.

(** [if (packageInfo.hasUpdate)] *)
Definition hasUpdate_truthy (p : PackageInfo) : bool :=
  match pkg_hasUpdate p with Some b => b | None => false end.

(** [new PackageTreeItem(packageInfo, collapsibleState)] *)
Definition newPackageTreeItem (p : PackageInfo) : PackageTreeItem :=
  let tip :=
    pkg_name p +:+ " " +:+ pkg_version p +:+
    match pkg_description p with
    | Some d => if truthy d then newline +:+ d else EmptyString
    | None => EmptyString
    end in
  if hasUpdate_truthy p then
    mkPackageTreeItem p (pkg_name p) tip
      (pkg_version p +:+ " " +:+ arrow +:+ " " +:+ optional_toString (pkg_latest p))
      "package-update" (Some "arrow-up")
  else
    mkPackageTreeItem p (pkg_name p) tip (pkg_version p) "package" None.

Section Methods.

Context {W : Type} `{HostW : Host W} `{DesktopW : Desktop W}.

Local Abbreviation U := (@U W).

(** [this._onDidChangeTreeData.fire()] *)
Definition refresh : U unit :=
  umodify (fun u => mkSession (executor u) (heldPackages u) (S (packagesFired u))
                              (informationMessages u) (warningMessages u)
                              (consoleErrors u)).

Definition set_heldPackages (l : list PackageInfo) (u : Session W) : Session W :=
  mkSession (executor u) l (packagesFired u) (informationMessages u)
            (warningMessages u) (consoleErrors u).

(** The comparison function given to [sort]. *)
Definition comparePackages (a b : PackageInfo) : Z :=
  if hasUpdate_truthy a && negb (hasUpdate_truthy b) then (-1)%Z
  else if negb (hasUpdate_truthy a) && hasUpdate_truthy b then 1%Z
  else localeCompare (pkg_name a) (pkg_name b).

Definition getChildren (element : option PackageTreeItem)
  : U (list PackageTreeItem) :=
  match element with
  | Some _ => uret []
  | None =>
      utry
        (fetched <~ run getInstalledPackages ;;
         umodify (set_heldPackages fetched) ;;~
         umodify (fun u => set_heldPackages
                             (array_sort comparePackages (heldPackages u)) u) ;;~
         held <~ ugets heldPackages ;;
         uret (map newPackageTreeItem held))
        (fun error =>
           consoleError "Failed to get packages:" error ;;~
           run (showErrorMessage
                  "Failed to load Python packages. Make sure Python and pip are installed.") ;;~
           uret [])
  end.

(** [this._packages.find(pkg => pkg.name === name)] *)
Definition getPackageByName (name : string) : U (option PackageInfo) :=
  ugets (fun u => List.find (fun pkg => String.eqb (pkg_name pkg) name)
                            (heldPackages u)).

End Methods.

End PipingPackageProvider.

(** ** PipingEnvironmentProvider: the tree *)

Module PipingEnvironmentProvider.

Record EnvironmentTreeItem := mkEnvironmentTreeItem {
  (** the record shown, by reference *)
  envInfo : loc;
  label : string;
  tooltip : string;
  description : string;
  contextValue : string;
  iconPath : string
}.

Section Methods.

Context {W : Type} `{HostW : Host W} `{DesktopW : Desktop W}.

Local Abbreviation State := (State W).
Local Abbreviation M := (@M W).
Local Abbreviation U := (@U W).

(** [new EnvironmentTreeItem(envInfo, collapsibleState)], [envInfo] being
    the object at [l] *)
Definition newEnvironmentTreeItem (l : loc) (env : EnvironmentInfo)
  : EnvironmentTreeItem :=
  let tip := env_name env +:+ newline +:+ env_path env in
  if env_isActive env then
    mkEnvironmentTreeItem l (env_name env) tip
      (path_basename (env_path env) +:+ " (active)")
      "environment-active" "check"
  else
    mkEnvironmentTreeItem l (env_name env) tip
      (path_basename (env_path env)) "environment" "server-environment".

(** A new object. *)
Definition allocate (env : EnvironmentInfo) : M loc :=
  fun s =>
    let l := fresh (dom (heap s)) in
    (Return l, set_heap (<[l := env]> (heap s)) s).

(** The records returned by [getVirtualEnvironments] are new objects. *)
Fixpoint allocateAll (envs : list EnvironmentInfo) : M (list loc) :=
  match envs with
  | [] => ret []
  | env :: rest =>
      l <- allocate env ;;
      ls <- allocateAll rest ;;
      ret (l :: ls)
  end.

Definition set_environments (envs : list loc) (s : State) : State :=
  mkState (world s) (heap s) (currentEnv s) envs (channel s)
          (errorMessages s) (processes s) (fired s).

(** The comparison function given to [sort]. *)
Definition compareEnvironments (a b : EnvironmentInfo) : Z :=
  if env_isActive a && negb (env_isActive b) then (-1)%Z
  else if negb (env_isActive a) && env_isActive b then 1%Z
  else localeCompare (env_name a) (env_name b).

(** The same, on the references an array holds. *)
Definition compareAt (h : gmap loc EnvironmentInfo) (a b : loc) : Z :=
  match h !! a, h !! b with
  | Some x, Some y => compareEnvironments x y
  | _, _ => 0%Z
  end.

Definition itemsOf (h : gmap loc EnvironmentInfo) (envs : list loc)
  : list EnvironmentTreeItem :=
  omap (fun l => newEnvironmentTreeItem l <$> h !! l) envs.

Definition getChildren (element : option EnvironmentTreeItem)
  : U (list EnvironmentTreeItem) :=
  match element with
  | Some _ => uret []
  | None =>
      utry
        (fetched <~ run (scanned <- getVirtualEnvironments ;;
                         allocateAll scanned) ;;
         run (modify (set_environments fetched)) ;;~
         run (modify (fun s => set_environments
                                 (array_sort (compareAt (heap s)) (environments s))
                                 s)) ;;~
         ugets (fun u => itemsOf (heap (executor u)) (environments (executor u))))
        (fun error =>
           consoleError "Failed to get environments:" error ;;~
           uret [])
  end.

End Methods.

End PipingEnvironmentProvider.

(** ** PipingCommandManager *)

Module PipingCommandManager.

Import PipingPackageProvider PipingEnvironmentProvider.

Section Commands.

Context {W : Type} `{HostW : Host W} `{DesktopW : Desktop W}.

Local Abbreviation U := (@U W).

(** The methods of [this.pythonExecutor] that the commands of the same
    name call. *)
Local Abbreviation executor_installPackage := installPackage.
Local Abbreviation executor_uninstallPackage := uninstallPackage.
Local Abbreviation executor_updatePackage := updatePackage.

(** [!packageName] on the answer of an input box *)
Definition answered (typed : option string) : bool :=
  match typed with Some t => truthy t | None => false end.

(** The name and the version that the install commands take from what
    was typed. *)
Definition splitSpec (packageName : string) : string * option string :=
  if includes packageName "==" then
    let parts := split_double_equals packageName in
    (hd EmptyString parts, nth_error parts 1)
  else (packageName, None).

(** [typed] is what the input box resolves with. *)
Definition installPackage (typed : option string) : U unit :=
  match typed with
  | Some packageName =>
      if truthy packageName then
        let '(packageNameOnly, version) := splitSpec packageName in
        utry
          (ok <~ run (executor_installPackage packageNameOnly version) ;;
           if ok : bool then
             showInformationMessage ("Successfully installed " +:+ packageName) ;;~
             PipingPackageProvider.refresh
           else
             run (showErrorMessage ("Failed to install " +:+ packageName)))
          (fun error =>
             run (showErrorMessage ("Error installing " +:+ packageName +:+ ": "
                                    +:+ error_toString error)))
      else uret tt
  | None => uret tt
  end.

(** The two steps that [uninstallPackage] and [updatePackage] share when
    no item is given: the input box and the lookup.  [true] when the
    command goes on. *)
Definition askForPackage (typed : option string) : U bool :=
  match typed with
  | Some packageName =>
      if truthy packageName then
        pkg <~ getPackageByName packageName ;;
        match pkg with
        | Some _ => uret true
        | None =>
            showWarningMessage ("Package " +:+ packageName
                                +:+ " not found in current environment") ;;~
            uret false
        end
      else uret false
  | None => uret false
  end.

(** [packageItem ? packageItem.packageInfo.name : ''] *)
Definition nameOfItem (packageItem : option PackageTreeItem) : string :=
  match packageItem with
  | Some item => pkg_name (packageInfo item)
  | None => EmptyString
  end.

(** [typed] is what the input box resolves with, [confirmation] what the
    modal question resolves with. *)
Definition uninstallPackage (packageItem : option PackageTreeItem)
           (typed : option string) (confirmation : option string) : U unit :=
  goOn <~ match packageItem with
          | Some _ => uret true
          | None => askForPackage typed
          end ;;
  if goOn : bool then
    let packageName := nameOfItem packageItem in
    showWarningMessage ("Are you sure you want to uninstall " +:+ packageName
                        +:+ "?") ;;~
    match confirmation with
    | Some "Yes" =>
        utry
          (ok <~ run (executor_uninstallPackage packageName) ;;
           if ok : bool then
             showInformationMessage ("Successfully uninstalled " +:+ packageName) ;;~
             PipingPackageProvider.refresh
           else
             run (showErrorMessage ("Failed to uninstall " +:+ packageName)))
          (fun error =>
             run (showErrorMessage ("Error uninstalling " +:+ packageName +:+ ": "
                                    +:+ error_toString error)))
    | _ => uret tt
    end
  else uret tt.

Definition updatePackage (packageItem : option PackageTreeItem)
           (typed : option string) : U unit :=
  goOn <~ match packageItem with
          | Some _ => uret true
          | None => askForPackage typed
          end ;;
  if goOn : bool then
    let packageName := nameOfItem packageItem in
    utry
      (ok <~ run (executor_updatePackage packageName) ;;
       if ok : bool then
         showInformationMessage ("Successfully updated " +:+ packageName) ;;~
         PipingPackageProvider.refresh
       else
         run (showErrorMessage ("Failed to update " +:+ packageName)))
      (fun error =>
         run (showErrorMessage ("Error updating " +:+ packageName +:+ ": "
                                +:+ error_toString error)))
  else uret tt.

(** [envItem.envInfo], read through the reference. *)
Definition envInfoOf (u : Session W) (envItem : EnvironmentTreeItem)
  : option EnvironmentInfo :=
  heap (executor u) !! envInfo envItem.

Definition switchEnvironment (envItem : option EnvironmentTreeItem) : U unit :=
  shown <~ ugets (fun u => envItem ≫= envInfoOf u) ;;
  match shown with
  | Some env =>
      if env_isActive env then
        showInformationMessage ("Environment '" +:+ env_name env
                                +:+ "' is already active")
      else
        run (setActiveEnvironment (env_name env)) ;;~
        PipingPackageProvider.refresh ;;~
        showInformationMessage ("Switched to environment '" +:+ env_name env +:+ "'")
  | None =>
      run (setActiveEnvironment EmptyString) ;;~
      PipingPackageProvider.refresh ;;~
      showInformationMessage ("Switched to environment '" +:+ EmptyString +:+ "'")
  end.

End Commands.

End PipingCommandManager.


(** ** Vocabulary of the statements *)

Section Observers.

Context {W : Type} `{HostW : Host W}.

Local Abbreviation State := (State W).

(** The state after [appendLine line]. *)
Definition logged (line : string) (s : State) : State :=
  snd (appendLine line s).

(** The upgrade of one package, as [updateEach] issues it. *)
Definition upgradeOne (pc : PipCommand) (pkgName : string) : M string :=
  executeCommand (command pc) (args pc ++ ["install"; "--upgrade"; pkgName])
                 (envPath pc).

(** The combined upgrade of all the packages. *)
Definition upgradeAll (pc : PipCommand) (packageNames : list string) : M string :=
  executeCommand (command pc)
                 (args pc ++ ["install"; "--upgrade"] ++ packageNames)
                 (envPath pc).

(** [individually pc names s oks s']: starting in [s], one upgrade per
    name, in order, each in the state its predecessor left; [oks] records
    which of them succeeded, and a failed one leaves its line in the
    channel. *)
Inductive individually (pc : PipCommand)
  : list string -> State -> list bool -> State -> Prop :=
| individually_nil s :
    individually pc [] s [] s
| individually_ok pkgName rest s out s1 oks s2 :
    upgradeOne pc pkgName s = (Return out, s1) ->
    individually pc rest s1 oks s2 ->
    individually pc (pkgName :: rest) s (true :: oks) s2
| individually_failed pkgName rest s error s1 oks s2 :
    upgradeOne pc pkgName s = (Throw error, s1) ->
    individually pc rest
                 (logged ("Error updating package " +:+ pkgName +:+ ": "
                          +:+ error_toString error) s1) oks s2 ->
    individually pc (pkgName :: rest) s (false :: oks) s2.

(** The names whose attempt had outcome [b]. *)
Fixpoint selected (b : bool) (names : list string) (oks : list bool)
  : list string :=
  match names, oks with
  | n :: names', ok :: oks' =>
      if Bool.eqb ok b then n :: selected b names' oks'
      else selected b names' oks'
  | _, _ => []
  end.

(** The two queries of [getInstalledPackages]. *)
Definition listInstalled (pc : PipCommand) : M string :=
  executeCommand (command pc) (args pc ++ ["list"; "--format=json"]) (envPath pc).

Definition listOutdated (pc : PipCommand) : M string :=
  executeCommand (command pc) (args pc ++ ["list"; "--outdated"; "--format=json"])
                 (envPath pc).

(** The outdated query with its [.catch]: the text of the empty array
    stands in for a failed query. *)
Definition outdatedOrEmpty (pc : PipCommand) : M string :=
  try_catch (listOutdated pc) (fun _ => ret "[]").

(** The state after the handler of [getInstalledPackages] has reported
    [error]: a line in the channel and a notification. *)
Definition reported (error : JsError) (s : State) : State :=
  snd ((appendLine ("Error getting installed packages: " +:+ error_toString error) ;;;
        showErrorMessage
          "Failed to get installed packages. See output channel for details.") s).

(** The record pushed for [pkg], given the lookup map and the description
    that was fetched. *)
Definition mergedRecord (outdatedMap : gmap string string)
           (pkg : InstalledEntry) (description : string) : PackageInfo :=
  mkPackageInfo (inst_name pkg) (inst_version pkg)
                (outdatedMap !! inst_name pkg)
                (Some description)
                (Some (double_bang (outdatedMap !! inst_name pkg))).

Definition merged (outdatedMap : gmap string string)
           (pkg : InstalledEntry) (r : PackageInfo) : Prop :=
  exists description, r = mergedRecord outdatedMap pkg description.

(** The path of the pip executable inside an environment. *)
Definition pipPathOf (env : EnvironmentInfo) : string :=
  path_join [env_path env; binDir; pipCommand].

(** [envPath] is a directory and holds a file at the interior interpreter
    path: the two [stat] checks of [getVirtualEnvironments]. *)
Definition validEnvironment (w : W) (envPath : string) : Prop :=
  (exists stats, fs_stat w envPath = Some stats /\ isDirectory stats = true) /\
  (exists pythonExeStats,
     fs_stat w (path_join [envPath; interiorPython]) = Some pythonExeStats /\
     isFile pythonExeStats = true).

Definition isEnvironment (w : W) (envPath : string) : bool :=
  match fs_stat w envPath with
  | Some stats =>
      isDirectory stats &&
      match fs_stat w (path_join [envPath; interiorPython]) with
      | Some pythonExeStats => isFile pythonExeStats
      | None => false
      end
  | None => false
  end.

(** What one iteration of the scan pushes. *)
Definition emitted (s : State) (folder envName : string) : list EnvironmentInfo :=
  let envPath := path_join [folder; envName] in
  if isEnvironment (world s) envPath
  then [mkEnvironmentInfo envName envPath (isCurrentPath s envPath)]
  else [].

(** The held records whose [isActive] flag is set. *)
Definition isActiveAt (h : gmap loc EnvironmentInfo) (l : loc) : bool :=
  match h !! l with
  | Some env => env_isActive env
  | None => false
  end.

Definition activeRecords (s : State) : gset loc :=
  list_to_set (List.filter (isActiveAt (heap s)) (environments s)).

(** Two states that the executor cannot tell apart when it resolves the
    pip command: same world, same channel and traces, and the same path
    behind [_currentEnv]. *)
Definition agree (s t : State) : Prop :=
  world s = world t /\
  channel s = channel t /\
  errorMessages s = errorMessages t /\
  processes s = processes t /\
  env_path <$> current_environment s = env_path <$> current_environment t.

Definition respects {A : Type} (m : M A) : Prop :=
  forall s t : State, agree s t ->
    fst (m s) = fst (m t) /\ agree (snd (m s)) (snd (m t)).

End Observers.

(** ** A concrete host, for running the embedding on examples *)

Module Fixture.

(** A world that does not change: tables of what each host call answers. *)
Record World := mkWorld {
  (** what [fs.promises.stat] finds *)
  files : list (string * Stats);
  (** the paths that pass the [X_OK] check *)
  executables : list string;
  (** what each command line given to [cp.exec] produces *)
  shell : list (string * ExecOutcome);
  (** how a spawned process ends, by argument vector *)
  pip : list (list string * SpawnOutcome);
  extension : bool;
  interpreterSetting : option string;
  folders : option (list string)
}.

Definition assoc {K V : Type} `{EqDecision K} (k : K) (l : list (K * V))
  : option V :=
  match List.find (fun kv => bool_decide (fst kv = k)) l with
  | Some kv => Some (snd kv)
  | None => None
  end.

Definition commandNotFound : ExecOutcome :=
  mkExec (Some (Error "Command failed")) EmptyString "not found".

Definition exec (w : World) (cmdline : string) : ExecOutcome * World :=
  match assoc cmdline (shell w) with
  | Some r => (r, w)
  | None => (commandNotFound, w)
  end.

Definition spawn (w : World) (cmdPath : string) (argv : list string)
  : SpawnOutcome * World :=
  match assoc argv (pip w) with
  | Some r => (r, w)
  | None => (Closed (Some 1%Z) EmptyString "ERROR: unknown command", w)
  end.

(** JSON texts, and a parser that recognises the texts of a fixed table
    of documents. *)
Definition quoted (s : string) : string := dquote +:+ s +:+ dquote.

Definition field (k v : string) : string := quoted k +:+ ": " +:+ quoted v.

Definition object (fields : list string) : string :=
  "{" +:+ join ", " fields +:+ "}".

Definition array (elements : list string) : string :=
  "[" +:+ join ", " elements +:+ "]".

Definition render_installed (l : list InstalledEntry) : string :=
  array (map (fun e => object [field "name" (inst_name e);
                               field "version" (inst_version e)]) l).

Definition render_outdated (l : list OutdatedEntry) : string :=
  array (map (fun e => object [field "name" (out_name e);
                               field "version" (out_version e);
                               field "latest_version" (out_latest_version e)]) l).

Definition installed_documents : list (list InstalledEntry) :=
  [ [];
    [mkInstalled "requests" "2.28.0"];
    [mkInstalled "requests" "2.28.0"; mkInstalled "flask" "2.0.1"] ].

Definition outdated_documents : list (list OutdatedEntry) :=
  [ [];
    [mkOutdated "requests" "2.28.0" "2.31.0"];
    [mkOutdated "requests" "2.28.0" "2.28.0"];
    [mkOutdated "requests" "2.28.0" EmptyString] ].

Definition syntaxError : JsError :=
  mkError "SyntaxError" "Unexpected token in JSON".

Definition parse {A} (render : A -> string) (documents : list A) (text : string)
  : Completion A :=
  match List.find (fun d => String.eqb (render d) text) documents with
  | Some d => Return d
  | None => Throw syntaxError
  end.

#[global] Instance host : Host World := {|
  win32 := false;
  path_join := join "/";
  cp_exec := exec;
  cp_spawn := spawn;
  fs_access_X := fun w p => bool_decide (p ∈ executables w);
  fs_stat := fun w p => assoc p (files w);
  pythonExtension := extension;
  defaultInterpreterPath := interpreterSetting;
  workspaceFolders := folders;
  JSON_parse_installed := parse render_installed installed_documents;
  JSON_parse_outdated := parse render_outdated outdated_documents;
  JSON_parse_empty_array := eq_refl
|}.

Definition initial (w : World) : State World :=
  mkState w ∅ None [] EmptyString [] [] 0.

Definition directory : Stats := mkStats true false.
Definition regularFile : Stats := mkStats false true.

Definition succeeded (stdout : string) : SpawnOutcome :=
  Closed (Some 0%Z) stdout EmptyString.

Definition exited (code : Z) (stderr : string) : SpawnOutcome :=
  Closed (Some code) EmptyString stderr.

(** A machine with [python3] on the PATH and nothing configured. *)
Definition python3_shell : list (string * ExecOutcome) :=
  [ ("which python3", mkExec None ("/usr/bin/python3" +:+ newline) EmptyString);
    (quoted "/usr/bin/python3" +:+ " --version",
     mkExec None ("Python 3.11.4" +:+ newline) EmptyString) ].

Definition machine (pip_table : list (list string * SpawnOutcome)) : World :=
  mkWorld [] [] python3_shell pip_table false None None.

Definition pipList : list string := ["-m"; "pip"; "list"; "--format=json"].
Definition pipOutdated : list string :=
  ["-m"; "pip"; "list"; "--outdated"; "--format=json"].
Definition pipUpgrade (names : list string) : list string :=
  (["-m"; "pip"; "install"; "--upgrade"] ++ names).

(** The worlds and states of the examples. *)

Definition requests : InstalledEntry := mkInstalled "requests" "2.28.0".
Definition flask : InstalledEntry := mkInstalled "flask" "2.0.1".

Definition requestsOutdated (latest : string) : list OutdatedEntry :=
  [mkOutdated "requests" "2.28.0" latest].

(** [pip list] exits with code 1. *)
Definition listing_fails : World := machine [].

(** [pip list] prints text that is not JSON. *)
Definition listing_garbled : World :=
  machine [(pipList, succeeded "Package Version")].

(** requests 2.28.0 is installed and [latest] is reported for it. *)
Definition requests_with_latest (latest : string) : World :=
  machine [(pipList, succeeded (render_installed [requests]));
           (pipOutdated, succeeded (render_outdated (requestsOutdated latest)))].

(** Two packages are installed and [pip list --outdated] exits with code 1. *)
Definition outdated_fails : World :=
  machine [(pipList, succeeded (render_installed [requests; flask]))].

(** The combined upgrade of a and b fails, as does the upgrade of b alone;
    the upgrade of a alone succeeds. *)
Definition batch_mixed : World :=
  machine [(pipUpgrade ["a"], succeeded "Successfully installed a")].

(** The pip command resolved on a [machine], and the states a run of
    [getInstalledPackages] passes through there. *)
Definition python3_pip : PipCommand :=
  mkPipCommand "/usr/bin/python3" ["-m"; "pip"] None.

Definition after_pip (w : World) : State World :=
  snd (getPipCommand (initial w)).

Definition after_list (w : World) : State World :=
  snd (listInstalled python3_pip (after_pip w)).

Definition after_outdated (w : World) : State World :=
  snd (listOutdated python3_pip (after_list w)).

Definition exit1 : JsError :=
  Error "Command failed with exit code 1: ERROR: unknown command".

(** A project with one environment selected, the object at location 0,
    and a second one held at location 1. *)
Definition venv : EnvironmentInfo := mkEnvironmentInfo "venv" "/proj/venv" true.
Definition dotvenv : EnvironmentInfo := mkEnvironmentInfo ".venv" "/proj/.venv" false.

Definition selected_venv (w : World) : State World :=
  mkState w {[0 := venv; 1 := dotvenv]} (Some 0) [0; 1] EmptyString [] [] 0.

(** A workspace /proj where .venv holds an interpreter and venv is a
    directory without one. *)
Definition workspace : World :=
  mkWorld [("/proj/.venv", directory);
           ("/proj/.venv/bin/python", regularFile);
           ("/proj/venv", directory)]
          [] python3_shell [] false None (Some ["/proj"]).

(** The selected environment has a pip of its own. *)
Definition venv_with_pip : World :=
  mkWorld [] ["/proj/venv/bin/pip"] python3_shell [] false None None.

End Fixture.

(** ** Vocabulary of the further statements *)

Section Traces.

Context {W : Type} `{HostW : Host W}.

Local Abbreviation State := (State W).

(** The process that validates an interpreter. *)
Definition versionCheck (pythonPath : string) : Process :=
  ViaExec (dquote +:+ pythonPath +:+ dquote +:+ " --version").

(** The state [t] has the records, the held list, the current
    environment and the refresh count of [s]. *)
Definition same_selection (s t : State) : Prop :=
  heap t = heap s /\ currentEnv t = currentEnv s /\
  environments t = environments s /\ fired t = fired s.

(** From [s] to [t] the channel, the notifications and the trace of
    processes were only added to. *)
Definition grows (s t : State) : Prop :=
  (exists text, channel t = channel s +:+ text) /\
  (exists messages, errorMessages t = errorMessages s ++ messages) /\
  (exists started, processes t = processes s ++ started).

Definition tidy {A : Type} (m : M A) : Prop :=
  forall s : State, same_selection s (snd (m s)) /\ grows s (snd (m s)).

(** The process that fetches the description of a package. *)
Definition showProcess (pc : PipCommand) (pkgName : string) : Process :=
  ViaSpawn (resolveCmdPath (command pc) (envPath pc)) (args pc ++ ["show"; pkgName]).

Definition isViaExec (p : Process) : bool :=
  match p with ViaExec _ => true | ViaSpawn _ _ => false end.



End Traces.

(** A desktop for the examples. *)
Module Desk.

Definition ordering (a b : string) : Z :=
  match String.compare a b with
  | Lt => (-1)%Z
  | Eq => 0%Z
  | Gt => 1%Z
  end.

Fixpoint basename_from (s piece : string) : string :=
  match s with
  | EmptyString => piece
  | String c s' =>
      if Ascii.eqb c "/"%char then basename_from s' EmptyString
      else basename_from s' (piece +:+ String c EmptyString)
  end.

Definition searchDocuments : list SearchResults :=
  [ Hits [];
    Hits [mkPackageInfo "requests" "2.31.0" None (Some "Python HTTP for Humans.") None];
    ScriptError "requests module not installed" ].

Definition render_search (r : SearchResults) : string :=
  match r with
  | ScriptError message => Fixture.object [Fixture.field "error" message]
  | Hits hits =>
      Fixture.array
        (map (fun p => Fixture.object
                         [Fixture.field "name" (pkg_name p);
                          Fixture.field "version" (pkg_version p);
                          Fixture.field "description"
                            (match pkg_description p with
                             | Some d => d
                             | None => EmptyString
                             end)]) hits)
  end.

#[global] Instance desktop : Desktop Fixture.World := {|
  localeCompare := ordering;
  path_basename := fun p => basename_from p EmptyString;
  os_tmpdir := fun _ => "/tmp";
  fs_writeFile := fun w _ _ => (None, w);
  scriptContent := "import sys";
  JSON_parse_search := Fixture.parse render_search searchDocuments
|}.

Definition session (s : State Fixture.World) : Session Fixture.World :=
  mkSession s [] 0 [] [] [].

(** A session whose package view holds [pkgs]. *)
Definition holding (pkgs : list PackageInfo) (s : State Fixture.World)
  : Session Fixture.World :=
  mkSession s pkgs 0 [] [] [].

Definition requests : PackageInfo :=
  mkPackageInfo "requests" "2.28.0" None (Some "Python HTTP for Humans.") None.

(** A workspace /proj where the interpreter of the PATH makes the
    environment fresh. *)
Definition makes_fresh : Fixture.World :=
  Fixture.mkWorld [] [] Fixture.python3_shell
                  [(["-m"; "venv"; "/proj/fresh"], Fixture.succeeded EmptyString)]
                  false None (Some ["/proj"]).

(** Two held records of the same name, in two folders, neither active:
    the objects at locations 0 and 1. *)
Definition venv_in (folder : string) : EnvironmentInfo :=
  mkEnvironmentInfo "venv" (folder +:+ "/venv") false.

Definition twins (w : Fixture.World) : State Fixture.World :=
  mkState w {[0 := venv_in "/a"; 1 := venv_in "/b"]} None [0; 1]
          EmptyString [] [] 0.


End Desk.

Section MoreTraces.

Context {W : Type} `{HostW : Host W}.

(** Whatever [m] starts, it starts through [cp.exec]. *)
Definition execOnly {A : Type} (m : M A) : Prop :=
  forall s : State W,
    exists started,
      processes (snd (m s)) = processes s ++ started /\
      Forall (fun p => isViaExec p = true) started.

(** [m] sees of the state the world alone: from two states with the
    same world it gives the same result, leaves the same world and starts
    the same processes. *)
Definition blind {A : Type} (m : M A) : Prop :=
  forall s t : State W, world s = world t ->
    fst (m s) = fst (m t) /\
    world (snd (m s)) = world (snd (m t)) /\
    exists started,
      processes (snd (m s)) = processes s ++ started /\
      processes (snd (m t)) = processes t ++ started.

End MoreTraces.

(** In [l] the elements that [f] flags come first: each element is
    flagged, or nothing after it is. *)
Fixpoint flaggedFirst {A : Type} (f : A -> bool) (l : list A) : Prop :=
  match l with
  | [] => True
  | x :: rest =>
      (f x = true \/ Forall (fun y => f y = false) rest) /\ flaggedFirst f rest
  end.

(** The list a computation returned; nothing when it threw. *)
Definition fst_list {A S : Type} (r : Completion (list A) * S) : list A :=
  match fst r with
  | Return l => l
  | Throw _ => []
  end.

(** The records of the held list, in its order. *)
Definition heldRecords {W : Type} (s : State W) : list EnvironmentInfo :=
  omap (fun l => heap s !! l) (environments s).


(** * Properties *)

Section BatchUpdate.

Context {W : Type} `{HostW : Host W}.

Local Abbreviation State := (State W).

Lemma updateOne_unfold pc pkgName s :
  updateOne pc pkgName s =
  match upgradeOne pc pkgName s with
  | (Return _, s1) => (Return true, s1)
  | (Throw error, s1) =>
      (Return false,
       logged ("Error updating package " +:+ pkgName +:+ ": "
               +:+ error_toString error) s1)
  end.
Proof.
  unfold updateOne, upgradeOne, try_catch, bind.
  destruct (executeCommand _ _ _ s) as [[out|error] s1]; reflexivity.
Qed.

Lemma individually_length pc names s oks s' :
  individually pc names s oks s' -> length oks = length names.
Proof. induction 1; simpl; congruence. Qed.

(** The per-package loop catches every error of its own: it always
    returns, with the two arrays extended by the names of each outcome. *)
Lemma updateEach_returns pc names :
  forall succ fail s,
  exists oks s',
    individually pc names s oks s' /\
    updateEach pc names succ fail s =
    (Return (mkUpdateResult (succ ++ selected true names oks)
                            (fail ++ selected false names oks)), s').
Proof.
  induction names as [|n names IH]; intros succ fail s.
  - exists [], s. split; [constructor|].
    simpl. unfold ret. by rewrite !app_nil_r.
  - simpl. unfold bind. rewrite updateOne_unfold.
    destruct (upgradeOne pc n s) as [[out|error] s1] eqn:Hn.
    + destruct (IH (succ ++ [n]) fail s1) as (oks & s' & Hind & Heq).
      exists (true :: oks), s'. split; [by econstructor|].
      rewrite Heq. simpl. by rewrite <- app_assoc.
    + destruct (IH succ (fail ++ [n])
                   (logged ("Error updating package " +:+ n +:+ ": "
                            +:+ error_toString error) s1))
        as (oks & s' & Hind & Heq).
      exists (false :: oks), s'. split; [by econstructor|].
      rewrite Heq. simpl. by rewrite <- app_assoc.
Qed.

Lemma filter_not_included_nil (names : list string) :
  List.filter (fun pkg => negb (array_includes [] pkg)) names = names.
Proof.
  induction names as [|n names IH]; [done|].
  change (n :: List.filter (fun pkg => negb (array_includes [] pkg)) names = n :: names).
  by f_equal.
Qed.

(** Every requested name lands in exactly one of the two arrays. *)
Lemma selected_partition names :
  forall oks, length oks = length names ->
  forall n, n ∈ names <-> n ∈ selected true names oks \/ n ∈ selected false names oks.
Proof.
  induction names as [|m names IH]; intros [|ok oks] Hlen n; simpl in *;
    try discriminate.
  - rewrite !elem_of_nil. tauto.
  - injection Hlen as Hlen. specialize (IH oks Hlen n).
    destruct ok; simpl; rewrite !elem_of_cons; tauto.
Qed.

(** The control flow of [updatePackages] on a non-empty list, with its
    [try] blocks resolved. *)
Lemma updatePackages_unfold (packageNames : list string) (s : State) :
  packageNames <> [] ->
  updatePackages packageNames s =
  match getPipCommand s with
  | (Return pc, s1) =>
      match upgradeAll pc packageNames s1 with
      | (Return _, s2) =>
          (Return (mkUpdateResult packageNames []),
           logged ("Successfully updated packages: "
                   +:+ join ", " packageNames) s2)
      | (Throw batchError, s2) =>
          updateEach pc packageNames [] []
            (logged ("Batch update failed, falling back to individual updates: "
                     +:+ error_toString batchError) s2)
      end
  | (Throw error, s1) =>
      (Return (mkUpdateResult
                 []
                 (List.filter (fun pkg => negb (array_includes [] pkg))
                              packageNames)),
       logged ("Error in updatePackages: " +:+ error_toString error) s1)
  end.
Proof.
  intros Hne. destruct packageNames as [|n names]; [done|].
  unfold updatePackages, upgradeAll, try_catch, bind.
  destruct (getPipCommand s) as [[pc|error] s1]; [|reflexivity].
  destruct (executeCommand _ _ _ s1) as [[out|batchError] s2]; [reflexivity|].
  destruct (updateEach_returns pc (n :: names) [] []
              (logged ("Batch update failed, falling back to individual updates: "
                       +:+ error_toString batchError) s2))
    as (oks & s3 & _ & Heq).
  change (appendLine ?l s2) with (Return tt, logged l s2). cbv beta iota.
  by rewrite Heq.
Qed.

(** C9: [updatePackages] on the empty list returns two empty arrays and
    leaves the state as it was: nothing is logged and no process is
    started. *)
Theorem updatePackages_empty (s : State) :
  updatePackages [] s = (Return (mkUpdateResult [] []), s) /\
  processes (snd (updatePackages [] s)) = processes s.
Proof. split; reflexivity. Qed.

(** C4: on a non-empty list [updatePackages] first resolves the pip
    command.  If that throws, every requested name is reported failed.
    Otherwise one combined upgrade is run: if it succeeds, every name is
    reported succeeded and none failed; if it fails, the names are
    upgraded one by one, all of them whatever the earlier outcomes, and a
    name goes to [success] when its own upgrade succeeded and to [failed]
    when it did not. *)
Theorem updatePackages_ladder (packageNames : list string) (s : State)
  (Hnonempty : packageNames <> []) :
  match getPipCommand s with
  | (Throw error, s1) =>
      updatePackages packageNames s =
      (Return (mkUpdateResult [] packageNames),
       logged ("Error in updatePackages: " +:+ error_toString error) s1)
  | (Return pc, s1) =>
      match upgradeAll pc packageNames s1 with
      | (Return _, s2) =>
          updatePackages packageNames s =
          (Return (mkUpdateResult packageNames []),
           logged ("Successfully updated packages: "
                   +:+ join ", " packageNames) s2)
      | (Throw batchError, s2) =>
          exists oks s3,
            individually pc packageNames
              (logged ("Batch update failed, falling back to individual updates: "
                       +:+ error_toString batchError) s2) oks s3 /\
            length oks = length packageNames /\
            updatePackages packageNames s =
            (Return (mkUpdateResult (selected true packageNames oks)
                                    (selected false packageNames oks)), s3) /\
            (forall n, n ∈ packageNames <->
                       n ∈ selected true packageNames oks \/
                       n ∈ selected false packageNames oks)
      end
  end.
Proof.
  rewrite updatePackages_unfold by done.
  destruct (getPipCommand s) as [[pc|error] s1].
  - destruct (upgradeAll pc packageNames s1) as [[out|batchError] s2]; [done|].
    destruct (updateEach_returns pc packageNames [] []
                (logged ("Batch update failed, falling back to individual updates: "
                         +:+ error_toString batchError) s2))
      as (oks & s3 & Hind & Heq).
    exists oks, s3. rewrite Heq. simpl.
    pose proof (individually_length _ _ _ _ _ Hind) as Hlen.
    repeat split; try done; by apply selected_partition.
  - by rewrite filter_not_included_nil.
Qed.

End BatchUpdate.

Lemma updatePackages_ladder_witness :
  ["a"; "b"] <> [] /\
  exists oks,
    length oks = 2 /\
    selected true ["a"; "b"] oks = ["a"] /\
    selected false ["a"; "b"] oks = ["b"] /\
    fst (updatePackages ["a"; "b"] (Fixture.initial Fixture.batch_mixed)) =
    Return (mkUpdateResult (selected true ["a"; "b"] oks)
                           (selected false ["a"; "b"] oks)).
Proof.
  assert (Hne : ["a"; "b"] <> []) by discriminate.
  split; [exact Hne|].
  pose proof (updatePackages_ladder ["a"; "b"]
                (Fixture.initial Fixture.batch_mixed) Hne) as H.
  assert (Hpip : getPipCommand (Fixture.initial Fixture.batch_mixed) =
                 (Return Fixture.python3_pip, Fixture.after_pip Fixture.batch_mixed))
    by (vm_compute; reflexivity).
  rewrite Hpip in H.
  assert (Hall : upgradeAll Fixture.python3_pip ["a"; "b"]
                            (Fixture.after_pip Fixture.batch_mixed) =
                 (Throw Fixture.exit1,
                  snd (upgradeAll Fixture.python3_pip ["a"; "b"]
                                  (Fixture.after_pip Fixture.batch_mixed))))
    by (vm_compute; reflexivity).
  rewrite Hall in H.
  destruct H as (oks & s3 & _ & Hlen & Heq & _).
  assert (Hrun : fst (updatePackages ["a"; "b"] (Fixture.initial Fixture.batch_mixed)) =
                 Return (mkUpdateResult ["a"] ["b"]))
    by (vm_compute; reflexivity).
  rewrite Heq in Hrun. simpl in Hrun. injection Hrun as Hs Hf.
  exists oks. rewrite Heq. simpl. rewrite Hs, Hf. done.
Defined.

Section Reconciler.

Context {W : Type} `{HostW : Host W}.

Local Abbreviation State := (State W).

Lemma fetchDescription_returns pc pkgName (s : State) :
  exists description s', fetchDescription pc pkgName s = (Return description, s').
Proof.
  unfold fetchDescription, try_catch, bind, ret.
  destruct (executeCommand _ _ _ s) as [[out|error] s1]; eauto.
Qed.

(** The merge loop never throws, and pushes one record per installed
    package, in order. *)
Lemma mergeLoop_returns pc outdatedMap packagesData :
  forall acc (s : State),
  exists L s',
    mergeLoop pc outdatedMap packagesData acc s = (Return (acc ++ L), s') /\
    Forall2 (merged outdatedMap) packagesData L.
Proof.
  induction packagesData as [|pkg rest IH]; intros acc s.
  - exists [], s. split; [|constructor]. simpl. unfold ret. by rewrite app_nil_r.
  - simpl. unfold bind.
    destruct (fetchDescription_returns pc (inst_name pkg) s) as (d & s1 & ->).
    destruct (IH (acc ++ [mergedRecord outdatedMap pkg d]) s1)
      as (L & s' & Heq & HL).
    exists (mergedRecord outdatedMap pkg d :: L), s'. split.
    + unfold mergedRecord in *. rewrite Heq. by rewrite <- app_assoc.
    + constructor; [by exists d | done].
Qed.

(** The control flow of [getInstalledPackages], with its [try] blocks
    resolved: whatever is thrown before the merge loop is reported and
    turned into the empty list. *)
Lemma getInstalledPackages_unfold (s : State) :
  getInstalledPackages s =
  match getPipCommand s with
  | (Throw error, s1) => (Return [], reported error s1)
  | (Return pc, s1) =>
      match listInstalled pc s1 with
      | (Throw error, s2) => (Return [], reported error s2)
      | (Return output, s2) =>
          match JSON_parse_installed output with
          | Throw error => (Return [], reported error s2)
          | Return packagesData =>
              let '(outdatedOutput, s3) :=
                match listOutdated pc s2 with
                | (Return outdatedOutput, s3) => (outdatedOutput, s3)
                | (Throw _, s3) => ("[]", s3)
                end in
              match JSON_parse_outdated outdatedOutput with
              | Throw error => (Return [], reported error s3)
              | Return outdatedPackages =>
                  mergeLoop pc (buildOutdatedMap outdatedPackages)
                            packagesData [] s3
              end
          end
      end
  end.
Proof.
  unfold getInstalledPackages, listInstalled, listOutdated.
  unfold try_catch at 1. unfold bind at 1.
  destruct (getPipCommand s) as [[pc|error] s1]; [|reflexivity].
  unfold bind at 1.
  destruct (executeCommand _ _ _ s1) as [[output|error] s2]; [|reflexivity].
  unfold bind at 1, lift at 1.
  destruct (JSON_parse_installed output) as [packagesData|error]; [|reflexivity].
  unfold bind at 1, try_catch at 1.
  destruct (executeCommand _ _ _ s2) as [[outdatedOutput|error] s3].
  - unfold bind at 1, lift at 1.
    destruct (JSON_parse_outdated outdatedOutput) as [outdated|error];
      [|reflexivity].
    destruct (mergeLoop_returns pc (buildOutdatedMap outdated) packagesData [] s3)
      as (L & s' & -> & _). reflexivity.
  - unfold ret at 1. unfold bind at 1, lift at 1.
    destruct (JSON_parse_outdated "[]") as [outdated|error']; [|reflexivity].
    destruct (mergeLoop_returns pc (buildOutdatedMap outdated) packagesData [] s3)
      as (L & s' & -> & _). reflexivity.
Qed.


(** What the queries found, when the merge loop is reached. *)
Lemma getInstalledPackages_merge (s : State) pc s1 output s2 packagesData
      outdatedOutput s3 outdatedPackages :
  getPipCommand s = (Return pc, s1) ->
  listInstalled pc s1 = (Return output, s2) ->
  JSON_parse_installed output = Return packagesData ->
  outdatedOrEmpty pc s2 = (Return outdatedOutput, s3) ->
  JSON_parse_outdated outdatedOutput = Return outdatedPackages ->
  exists L s',
    getInstalledPackages s = (Return L, s') /\
    Forall2 (merged (buildOutdatedMap outdatedPackages)) packagesData L.
Proof.
  intros Hpip Hlist Hparse Hout Hparse'.
  rewrite getInstalledPackages_unfold, Hpip, Hlist, Hparse.
  unfold outdatedOrEmpty, try_catch, ret in Hout.
  destruct (listOutdated pc s2) as [[o|e] s3']; injection Hout as -> ->;
    rewrite Hparse';
    destruct (mergeLoop_returns pc (buildOutdatedMap outdatedPackages)
                                packagesData [] s3) as (L & s' & Heq & HL);
    eauto.
Qed.

(** The entries of the lookup map come from the outdated list. *)
Lemma buildOutdatedMap_lookup outdatedPackages k v :
  buildOutdatedMap outdatedPackages !! k = Some v ->
  exists o, o ∈ outdatedPackages /\ out_name o = k /\ out_latest_version o = v.
Proof.
  unfold buildOutdatedMap.
  induction outdatedPackages as [|o l IH] using rev_ind.
  - simpl. by rewrite lookup_empty.
  - rewrite foldl_snoc. rewrite lookup_insert. case_decide as Hk.
    + intros [= <-]. exists o. split; [|done]. apply elem_of_app. right.
      by apply list_elem_of_singleton.
    + intros Hl. destruct (IH Hl) as (o' & Hin & ? & ?).
      exists o'. split; [|done]. apply elem_of_app. by left.
Qed.

Lemma double_bang_true latest :
  double_bang latest = true <-> exists v, latest = Some v /\ v <> EmptyString.
Proof.
  destruct latest as [[|c v]|]; simpl; split; try done.
  - intros (v & [= <-] & Hv). done.
  - intros _. eexists. split; [done|done].
  - intros (v & ? & _). done.
Qed.

Lemma merged_names outdatedMap packagesData L :
  Forall2 (merged outdatedMap) packagesData L ->
  map pkg_name L = map inst_name packagesData.
Proof.
  induction 1 as [|pkg r ? ? [d ->] ? IH]; simpl; [done|]. by rewrite IH.
Qed.

(** C1 (as amended): when the pip command is resolved and the primary query
    [pip list --format=json] fails, or prints text that [JSON.parse]
    rejects, [getInstalledPackages] does not throw: the error is written to
    the output channel, the notification "Failed to get installed packages"
    is shown, and the empty list is returned. *)
Theorem getInstalledPackages_primary_failure (s : State) pc s1 error s2
  (Hpip : getPipCommand s = (Return pc, s1))
  (Hfail : listInstalled pc s1 = (Throw error, s2) \/
           exists output, listInstalled pc s1 = (Return output, s2) /\
                          JSON_parse_installed output = Throw error) :
  getInstalledPackages s = (Return [], reported error s2) /\
  errorMessages (reported error s2) =
  errorMessages s2 ++
  ["Failed to get installed packages. See output channel for details."].
Proof.
  split; [|reflexivity].
  rewrite getInstalledPackages_unfold, Hpip.
  destruct Hfail as [-> | (output & -> & ->)]; reflexivity.
Qed.

(** C3: when the installed query succeeds and the outdated query fails,
    [getInstalledPackages] returns (it does not throw) one record per
    installed package, in order, each with its name and version, no latest
    version and [hasUpdate = false]. *)
Theorem getInstalledPackages_outdated_failure (s : State) pc s1 output s2
  packagesData error s3
  (Hpip : getPipCommand s = (Return pc, s1))
  (Hlist : listInstalled pc s1 = (Return output, s2))
  (Hparse : JSON_parse_installed output = Return packagesData)
  (Hout : listOutdated pc s2 = (Throw error, s3)) :
  exists L s',
    getInstalledPackages s = (Return L, s') /\
    Forall2 (fun pkg r => pkg_name r = inst_name pkg /\
                          pkg_version r = inst_version pkg /\
                          pkg_latest r = None /\
                          pkg_hasUpdate r = Some false)
            packagesData L.
Proof.
  rewrite getInstalledPackages_unfold, Hpip, Hlist, Hparse, Hout.
  rewrite JSON_parse_empty_array.
  destruct (mergeLoop_returns pc (buildOutdatedMap []) packagesData [] s3)
    as (L & s' & Heq & HL).
  exists L, s'. split; [done|].
  eapply Forall2_impl; [exact HL|].
  intros pkg r [d ->]. unfold mergedRecord, buildOutdatedMap. simpl.
  by rewrite lookup_empty.
Qed.

(** C2 (as amended): when the installed query succeeds and both texts
    parse, the text of the outdated query being that of the empty array if
    the query failed, every record of the result has [hasUpdate = true]
    exactly when its name is in the lookup map built from the outdated
    list with a non-empty latest version, and has [latest] set exactly
    when its name is in that map; so [latest] is set whenever [hasUpdate]
    is true, and when no outdated entry has an empty latest version,
    [hasUpdate] is true exactly when the name is in the map and [latest]
    is set exactly when [hasUpdate] is true.  For installed = [requests
    2.28.0] and outdated = [requests 2.28.0, latest 2.31.0] the result is
    the one record with name requests, version 2.28.0, latest 2.31.0 and
    [hasUpdate = true]. *)
Theorem getInstalledPackages_hasUpdate (s : State) pc s1 output s2 packagesData
  outdatedOutput s3 outdatedPackages
  (Hpip : getPipCommand s = (Return pc, s1))
  (Hlist : listInstalled pc s1 = (Return output, s2))
  (Hparse : JSON_parse_installed output = Return packagesData)
  (Hout : outdatedOrEmpty pc s2 = (Return outdatedOutput, s3))
  (Hparse' : JSON_parse_outdated outdatedOutput = Return outdatedPackages) :
  let outdatedMap := buildOutdatedMap outdatedPackages in
  exists L s',
    getInstalledPackages s = (Return L, s') /\
    map pkg_name L = map inst_name packagesData /\
    (forall r, r ∈ L ->
       (pkg_hasUpdate r = Some true <->
        exists v, outdatedMap !! pkg_name r = Some v /\ v <> EmptyString) /\
       (is_Some (pkg_latest r) <-> is_Some (outdatedMap !! pkg_name r)) /\
       (pkg_hasUpdate r = Some true -> is_Some (pkg_latest r))) /\
    (Forall (fun o => out_latest_version o <> EmptyString) outdatedPackages ->
     forall r, r ∈ L ->
       (pkg_hasUpdate r = Some true <-> is_Some (outdatedMap !! pkg_name r)) /\
       (is_Some (pkg_latest r) <-> pkg_hasUpdate r = Some true)) /\
    (packagesData = [mkInstalled "requests" "2.28.0"] ->
     outdatedPackages = [mkOutdated "requests" "2.28.0" "2.31.0"] ->
     exists description,
       L = [mkPackageInfo "requests" "2.28.0" (Some "2.31.0")
                          (Some description) (Some true)]).
Proof.
  intros outdatedMap.
  destruct (getInstalledPackages_merge s pc s1 output s2 packagesData
              outdatedOutput s3 outdatedPackages) as (L & s' & Heq & HL); try done.
  fold outdatedMap in HL.
  assert (Hrec : forall r, r ∈ L ->
            pkg_latest r = outdatedMap !! pkg_name r /\
            pkg_hasUpdate r = Some (double_bang (outdatedMap !! pkg_name r))).
  { intros r Hr. apply list_elem_of_lookup in Hr as [i Hi].
    destruct (Forall2_lookup_r _ _ _ _ _ HL Hi) as (pkg & _ & [d ->]).
    by simpl. }
  assert (Hbang : forall o : option string,
            Some (double_bang o) = Some true <->
            exists v, o = Some v /\ v <> EmptyString).
  { intros o. rewrite <- double_bang_true. split; [by intros [= ->] | by intros ->]. }
  exists L, s'. split; [done|]. split; [|split; [|split]].
  - by eapply merged_names.
  - intros r Hr. destruct (Hrec r Hr) as [Hl Hh]. rewrite Hl, Hh.
    split; [apply Hbang|]. split; [done|].
    intros (v & -> & _)%Hbang. by eexists.
  - intros Hall r Hr. destruct (Hrec r Hr) as [Hl Hh]. rewrite Hl, Hh.
    assert (Hiff : Some (double_bang (outdatedMap !! pkg_name r)) = Some true <->
                   is_Some (outdatedMap !! pkg_name r)).
    { rewrite Hbang. split; [intros (v & -> & _); by eexists|].
      intros [v Hv]. exists v. split; [done|].
      destruct (buildOutdatedMap_lookup _ _ _ Hv) as (o & Ho & _ & <-).
      rewrite Forall_forall in Hall. by apply Hall. }
    split; [done | by symmetry].
  - intros -> ->. subst outdatedMap.
    inversion HL as [|pkg r ? L' [d ->] HL']; subst.
    inversion HL'; subst. exists d. reflexivity.
Qed.

(** C6 (as amended): in every record built by the merge, [hasUpdate] is
    [!!latest]: true exactly when a non-empty latest version is present.
    The installed version plays no part: a record whose latest version
    equals its non-empty installed version is flagged as well. *)
Theorem getInstalledPackages_hasUpdate_latest (s : State) pc s1 output s2
  packagesData outdatedOutput s3 outdatedPackages
  (Hpip : getPipCommand s = (Return pc, s1))
  (Hlist : listInstalled pc s1 = (Return output, s2))
  (Hparse : JSON_parse_installed output = Return packagesData)
  (Hout : outdatedOrEmpty pc s2 = (Return outdatedOutput, s3))
  (Hparse' : JSON_parse_outdated outdatedOutput = Return outdatedPackages) :
  exists L s',
    getInstalledPackages s = (Return L, s') /\
    forall r, r ∈ L ->
      pkg_hasUpdate r = Some (double_bang (pkg_latest r)) /\
      (pkg_hasUpdate r = Some true <->
       exists v, pkg_latest r = Some v /\ v <> EmptyString) /\
      (pkg_latest r = Some (pkg_version r) -> pkg_version r <> EmptyString ->
       pkg_hasUpdate r = Some true).
Proof.
  destruct (getInstalledPackages_merge s pc s1 output s2 packagesData
              outdatedOutput s3 outdatedPackages) as (L & s' & Heq & HL); try done.
  exists L, s'. split; [done|]. intros r Hr.
  apply list_elem_of_lookup in Hr as [i Hi].
  destruct (Forall2_lookup_r _ _ _ _ _ HL Hi) as (pkg & _ & [d ->]).
  simpl. split; [done|]. split; [split|].
  - intros [= Hb]. by apply double_bang_true.
  - intros Hv. f_equal. by apply double_bang_true.
  - intros -> Hne. f_equal. apply double_bang_true. by eexists.
Qed.

End Reconciler.

(** * The interpreter and the pip command *)

Section Locator.

Context {W : Type} `{HostW : Host W}.

Local Abbreviation State := (State W).

Lemma testPythonPath_returns pythonPath (s : State) :
  exists b s', testPythonPath pythonPath s = (Return b, s').
Proof.
  unfold testPythonPath, try_catch, bind, ret.
  destruct (executeSystemCommand _ s) as [[r|error] s1]; eauto.
Qed.

Lemma fromExtension_returns (s : State) :
  exists r s', fromExtension s = (Return r, s').
Proof.
  unfold fromExtension, try_catch, bind, gets, ret.
  destruct (pythonExtension (world s)); [|eauto].
  destruct (defaultInterpreterPath (world s)) as [pythonPath|]; [|eauto].
  destruct (truthy pythonPath); [|eauto].
  destruct (testPythonPath_returns pythonPath s) as (b & s1 & ->).
  destruct b; eauto.
Qed.

Lemma probeCommand_returns cmd (s : State) :
  exists r s', probeCommand cmd s = (Return r, s').
Proof.
  unfold probeCommand, try_catch, bind, ret.
  destruct (executeSystemCommand _ s) as [[r|error] s1].
  - destruct (truthy (exec_stdout r)); [|eauto].
    destruct (testPythonPath_returns
                (hd EmptyString (split_lines (trim (exec_stdout r)))) s1)
      as (b & s2 & ->).
    destruct b; eauto.
  - unfold appendLine, append, modify. eauto.
Qed.

Lemma fromPATH_returns cmds :
  forall s : State, exists r s', fromPATH cmds s = (Return r, s').
Proof.
  induction cmds as [|cmd rest IH]; intros s; simpl.
  - unfold ret. eauto.
  - unfold bind. destruct (probeCommand_returns cmd s) as (r & s1 & ->).
    destruct r as [pythonPath|]; [unfold ret; eauto | apply IH].
Qed.

(** [getPythonPath] throws one error only, and only after both the
    configured interpreter and every command of the PATH search have been
    turned down. *)
Lemma getPythonPath_throws (s : State) error s' :
  getPythonPath s = (Throw error, s') ->
  error = noPythonError /\
  fst (fromExtension s) = Return None /\
  fst (fromPATH pythonCommands (snd (fromExtension s))) = Return None.
Proof.
  unfold getPythonPath, bind.
  destruct (fromExtension_returns s) as (r & s1 & ->).
  destruct r as [pythonPath|]; [discriminate|].
  destruct (fromPATH_returns pythonCommands s1) as (r' & s2 & Hpath).
  simpl. rewrite Hpath.
  destruct r' as [pythonPath|]; [discriminate|].
  unfold throw. by intros [= <- <-].
Qed.

(** C5: with an environment selected whose pip executable does not pass the
    [X_OK] check, [getPipCommand] notes it in the channel and falls back to
    the interpreter: when [getPythonPath] returns a path, the command is
    that path with the arguments -m pip; [getPipCommand] throws only when
    [getPythonPath] does, and then the error is the one of a missing
    Python installation, neither the configured interpreter nor the PATH
    search having produced one. *)
Theorem getPipCommand_fallback (s : State) (env : EnvironmentInfo)
  (Hcurrent : current_environment s = Some env)
  (Hpip : fs_access_X (world s) (pipPathOf env) = false) :
  match getPythonPath
          (logged ("Pip not found in environment: " +:+ pipPathOf env) s) with
  | (Return pythonPath, s') =>
      getPipCommand s = (Return (mkPipCommand pythonPath ["-m"; "pip"] None), s')
  | (Throw error, s') =>
      getPipCommand s = (Throw error, s') /\
      error = noPythonError /\
      fst (fromExtension
             (logged ("Pip not found in environment: " +:+ pipPathOf env) s)) =
      Return None /\
      fst (fromPATH pythonCommands
             (snd (fromExtension
                     (logged ("Pip not found in environment: "
                              +:+ pipPathOf env) s)))) = Return None
  end.
Proof.
  set (s0 := logged _ s).
  assert (Hfrom : fromCurrentEnv s = (Return None, s0)).
  { unfold fromCurrentEnv, bind, gets. rewrite Hcurrent.
    unfold try_catch, bind, access_X. fold (pipPathOf env). by rewrite Hpip. }
  unfold getPipCommand, bind. rewrite Hfrom.
  destruct (getPythonPath s0) as [[pythonPath|error] s'] eqn:Hpy; [done|].
  split; [done|]. by apply getPythonPath_throws in Hpy.
Qed.

End Locator.

Lemma getPipCommand_fallback_witness :
  current_environment (Fixture.selected_venv (Fixture.machine [])) =
  Some Fixture.venv /\
  fs_access_X (world (Fixture.selected_venv (Fixture.machine [])))
              (pipPathOf Fixture.venv) = false /\
  fst (getPipCommand (Fixture.selected_venv (Fixture.machine []))) =
  Return (mkPipCommand "/usr/bin/python3" ["-m"; "pip"] None).
Proof.
  assert (Hcurrent : current_environment (Fixture.selected_venv (Fixture.machine [])) =
                     Some Fixture.venv) by (vm_compute; reflexivity).
  assert (Hpip : fs_access_X (world (Fixture.selected_venv (Fixture.machine [])))
                             (pipPathOf Fixture.venv) = false)
    by (vm_compute; reflexivity).
  split; [exact Hcurrent|]. split; [exact Hpip|].
  pose proof (getPipCommand_fallback _ _ Hcurrent Hpip) as H.
  assert (Hpy : getPythonPath
                  (logged ("Pip not found in environment: "
                           +:+ pipPathOf Fixture.venv)
                          (Fixture.selected_venv (Fixture.machine []))) =
                (Return "/usr/bin/python3",
                 snd (getPythonPath
                        (logged ("Pip not found in environment: "
                                 +:+ pipPathOf Fixture.venv)
                                (Fixture.selected_venv (Fixture.machine []))))))
    by (vm_compute; reflexivity).
  rewrite Hpy in H. by rewrite H.
Defined.

(** C1, counterexample: [pip list --format=json] exits with code 1, and
    [getInstalledPackages] returns the empty list; it does not throw. *)
Lemma getInstalledPackages_swallows_failure :
  fst (getPipCommand (Fixture.initial Fixture.listing_fails)) =
  Return Fixture.python3_pip /\
  fst (listInstalled Fixture.python3_pip (Fixture.after_pip Fixture.listing_fails)) =
  Throw Fixture.exit1 /\
  fst (getInstalledPackages (Fixture.initial Fixture.listing_fails)) = Return [] /\
  ~ (exists error s',
       getInstalledPackages (Fixture.initial Fixture.listing_fails) =
       (Throw error, s')).
Proof.
  repeat split; try (vm_compute; reflexivity).
  intros (error & s' & H). vm_compute in H. discriminate.
Qed.

Lemma getInstalledPackages_primary_failure_witness :
  getPipCommand (Fixture.initial Fixture.listing_fails) =
  (Return Fixture.python3_pip, Fixture.after_pip Fixture.listing_fails) /\
  listInstalled Fixture.python3_pip (Fixture.after_pip Fixture.listing_fails) =
  (Throw Fixture.exit1, Fixture.after_list Fixture.listing_fails) /\
  getInstalledPackages (Fixture.initial Fixture.listing_fails) =
  (Return [], reported Fixture.exit1 (Fixture.after_list Fixture.listing_fails)).
Proof.
  assert (Hpip : getPipCommand (Fixture.initial Fixture.listing_fails) =
                 (Return Fixture.python3_pip, Fixture.after_pip Fixture.listing_fails))
    by (vm_compute; reflexivity).
  assert (Hfail : listInstalled Fixture.python3_pip
                                (Fixture.after_pip Fixture.listing_fails) =
                  (Throw Fixture.exit1, Fixture.after_list Fixture.listing_fails))
    by (vm_compute; reflexivity).
  split; [exact Hpip|]. split; [exact Hfail|].
  exact (proj1 (getInstalledPackages_primary_failure _ _ _ _ _ Hpip (or_introl Hfail))).
Defined.

Lemma getInstalledPackages_outdated_failure_witness :
  getPipCommand (Fixture.initial Fixture.outdated_fails) =
  (Return Fixture.python3_pip, Fixture.after_pip Fixture.outdated_fails) /\
  listInstalled Fixture.python3_pip (Fixture.after_pip Fixture.outdated_fails) =
  (Return (Fixture.render_installed [Fixture.requests; Fixture.flask]),
   Fixture.after_list Fixture.outdated_fails) /\
  listOutdated Fixture.python3_pip (Fixture.after_list Fixture.outdated_fails) =
  (Throw Fixture.exit1, Fixture.after_outdated Fixture.outdated_fails) /\
  exists L s',
    getInstalledPackages (Fixture.initial Fixture.outdated_fails) = (Return L, s') /\
    Forall2 (fun pkg r => pkg_name r = inst_name pkg /\
                          pkg_version r = inst_version pkg /\
                          pkg_latest r = None /\
                          pkg_hasUpdate r = Some false)
            [Fixture.requests; Fixture.flask] L.
Proof.
  assert (Hpip : getPipCommand (Fixture.initial Fixture.outdated_fails) =
                 (Return Fixture.python3_pip, Fixture.after_pip Fixture.outdated_fails))
    by (vm_compute; reflexivity).
  assert (Hlist : listInstalled Fixture.python3_pip
                                (Fixture.after_pip Fixture.outdated_fails) =
                  (Return (Fixture.render_installed [Fixture.requests; Fixture.flask]),
                   Fixture.after_list Fixture.outdated_fails))
    by (vm_compute; reflexivity).
  assert (Hparse : JSON_parse_installed
                     (Fixture.render_installed [Fixture.requests; Fixture.flask]) =
                   Return [Fixture.requests; Fixture.flask])
    by (vm_compute; reflexivity).
  assert (Hout : listOutdated Fixture.python3_pip
                              (Fixture.after_list Fixture.outdated_fails) =
                 (Throw Fixture.exit1, Fixture.after_outdated Fixture.outdated_fails))
    by (vm_compute; reflexivity).
  split; [exact Hpip|]. split; [exact Hlist|]. split; [exact Hout|].
  exact (getInstalledPackages_outdated_failure _ _ _ _ _ _ _ _ Hpip Hlist Hparse Hout).
Defined.

(** C2, counterexample: the outdated query reports requests with an empty
    latest version.  The name is in the lookup map and [latest] is set (to
    the empty string), yet [hasUpdate] is false. *)
Lemma getInstalledPackages_blank_latest :
  fst (listOutdated Fixture.python3_pip
         (Fixture.after_list (Fixture.requests_with_latest EmptyString))) =
  Return (Fixture.render_outdated (Fixture.requestsOutdated EmptyString)) /\
  JSON_parse_outdated (Fixture.render_outdated (Fixture.requestsOutdated EmptyString)) =
  Return (Fixture.requestsOutdated EmptyString) /\
  buildOutdatedMap (Fixture.requestsOutdated EmptyString) !! "requests" =
  Some EmptyString /\
  fst (getInstalledPackages
         (Fixture.initial (Fixture.requests_with_latest EmptyString))) =
  Return [mkPackageInfo "requests" "2.28.0" (Some EmptyString)
                        (Some EmptyString) (Some false)].
Proof. repeat split; vm_compute; reflexivity. Qed.

Lemma getInstalledPackages_hasUpdate_witness :
  getPipCommand (Fixture.initial (Fixture.requests_with_latest "2.31.0")) =
  (Return Fixture.python3_pip,
   Fixture.after_pip (Fixture.requests_with_latest "2.31.0")) /\
  listInstalled Fixture.python3_pip
                (Fixture.after_pip (Fixture.requests_with_latest "2.31.0")) =
  (Return (Fixture.render_installed [Fixture.requests]),
   Fixture.after_list (Fixture.requests_with_latest "2.31.0")) /\
  outdatedOrEmpty Fixture.python3_pip
                  (Fixture.after_list (Fixture.requests_with_latest "2.31.0")) =
  (Return (Fixture.render_outdated (Fixture.requestsOutdated "2.31.0")),
   Fixture.after_outdated (Fixture.requests_with_latest "2.31.0")) /\
  exists description,
    fst (getInstalledPackages
           (Fixture.initial (Fixture.requests_with_latest "2.31.0"))) =
    Return [mkPackageInfo "requests" "2.28.0" (Some "2.31.0")
                          (Some description) (Some true)].
Proof.
  assert (Hpip : getPipCommand (Fixture.initial (Fixture.requests_with_latest "2.31.0")) =
                 (Return Fixture.python3_pip,
                  Fixture.after_pip (Fixture.requests_with_latest "2.31.0")))
    by (vm_compute; reflexivity).
  assert (Hlist : listInstalled Fixture.python3_pip
                    (Fixture.after_pip (Fixture.requests_with_latest "2.31.0")) =
                  (Return (Fixture.render_installed [Fixture.requests]),
                   Fixture.after_list (Fixture.requests_with_latest "2.31.0")))
    by (vm_compute; reflexivity).
  assert (Hparse : JSON_parse_installed (Fixture.render_installed [Fixture.requests]) =
                   Return [mkInstalled "requests" "2.28.0"])
    by (vm_compute; reflexivity).
  assert (Hout : outdatedOrEmpty Fixture.python3_pip
                   (Fixture.after_list (Fixture.requests_with_latest "2.31.0")) =
                 (Return (Fixture.render_outdated (Fixture.requestsOutdated "2.31.0")),
                  Fixture.after_outdated (Fixture.requests_with_latest "2.31.0")))
    by (vm_compute; reflexivity).
  assert (Hparse' : JSON_parse_outdated
                      (Fixture.render_outdated (Fixture.requestsOutdated "2.31.0")) =
                    Return [mkOutdated "requests" "2.28.0" "2.31.0"])
    by (vm_compute; reflexivity).
  split; [exact Hpip|]. split; [exact Hlist|]. split; [exact Hout|].
  destruct (getInstalledPackages_hasUpdate _ _ _ _ _ _ _ _ _
              Hpip Hlist Hparse Hout Hparse')
    as (L & s' & Heq & _ & _ & _ & Hscenario).
  destruct (Hscenario eq_refl eq_refl) as [description HL].
  exists description. rewrite Heq. simpl. by rewrite HL.
Defined.

(** C6, counterexample: the outdated query reports for requests a latest
    version equal to the installed one, and the record is flagged as having
    an update all the same. *)
Lemma getInstalledPackages_same_latest :
  fst (listOutdated Fixture.python3_pip
         (Fixture.after_list (Fixture.requests_with_latest "2.28.0"))) =
  Return (Fixture.render_outdated (Fixture.requestsOutdated "2.28.0")) /\
  JSON_parse_outdated (Fixture.render_outdated (Fixture.requestsOutdated "2.28.0")) =
  Return [mkOutdated "requests" "2.28.0" "2.28.0"] /\
  fst (getInstalledPackages
         (Fixture.initial (Fixture.requests_with_latest "2.28.0"))) =
  Return [mkPackageInfo "requests" "2.28.0" (Some "2.28.0")
                        (Some EmptyString) (Some true)].
Proof. repeat split; vm_compute; reflexivity. Qed.

Lemma getInstalledPackages_hasUpdate_latest_witness :
  getPipCommand (Fixture.initial (Fixture.requests_with_latest "2.28.0")) =
  (Return Fixture.python3_pip,
   Fixture.after_pip (Fixture.requests_with_latest "2.28.0")) /\
  listInstalled Fixture.python3_pip
                (Fixture.after_pip (Fixture.requests_with_latest "2.28.0")) =
  (Return (Fixture.render_installed [Fixture.requests]),
   Fixture.after_list (Fixture.requests_with_latest "2.28.0")) /\
  outdatedOrEmpty Fixture.python3_pip
                  (Fixture.after_list (Fixture.requests_with_latest "2.28.0")) =
  (Return (Fixture.render_outdated (Fixture.requestsOutdated "2.28.0")),
   Fixture.after_outdated (Fixture.requests_with_latest "2.28.0")) /\
  exists L s',
    getInstalledPackages (Fixture.initial (Fixture.requests_with_latest "2.28.0")) =
    (Return L, s') /\
    forall r, r ∈ L ->
      pkg_hasUpdate r = Some (double_bang (pkg_latest r)) /\
      (pkg_hasUpdate r = Some true <->
       exists v, pkg_latest r = Some v /\ v <> EmptyString) /\
      (pkg_latest r = Some (pkg_version r) -> pkg_version r <> EmptyString ->
       pkg_hasUpdate r = Some true).
Proof.
  assert (Hpip : getPipCommand (Fixture.initial (Fixture.requests_with_latest "2.28.0")) =
                 (Return Fixture.python3_pip,
                  Fixture.after_pip (Fixture.requests_with_latest "2.28.0")))
    by (vm_compute; reflexivity).
  assert (Hlist : listInstalled Fixture.python3_pip
                    (Fixture.after_pip (Fixture.requests_with_latest "2.28.0")) =
                  (Return (Fixture.render_installed [Fixture.requests]),
                   Fixture.after_list (Fixture.requests_with_latest "2.28.0")))
    by (vm_compute; reflexivity).
  assert (Hparse : JSON_parse_installed (Fixture.render_installed [Fixture.requests]) =
                   Return [Fixture.requests])
    by (vm_compute; reflexivity).
  assert (Hout : outdatedOrEmpty Fixture.python3_pip
                   (Fixture.after_list (Fixture.requests_with_latest "2.28.0")) =
                 (Return (Fixture.render_outdated (Fixture.requestsOutdated "2.28.0")),
                  Fixture.after_outdated (Fixture.requests_with_latest "2.28.0")))
    by (vm_compute; reflexivity).
  assert (Hparse' : JSON_parse_outdated
                      (Fixture.render_outdated (Fixture.requestsOutdated "2.28.0")) =
                    Return (Fixture.requestsOutdated "2.28.0"))
    by (vm_compute; reflexivity).
  split; [exact Hpip|]. split; [exact Hlist|]. split; [exact Hout|].
  exact (getInstalledPackages_hasUpdate_latest _ _ _ _ _ _ _ _ _
           Hpip Hlist Hparse Hout Hparse').
Defined.

(** * Environment enumeration *)

Section Enumerator.

Context {W : Type} `{HostW : Host W}.

Local Abbreviation State := (State W).

Lemma isEnvironment_valid (w : W) envPath :
  isEnvironment w envPath = true <-> validEnvironment w envPath.
Proof.
  unfold isEnvironment, validEnvironment. split.
  - destruct (fs_stat w envPath) as [stats|]; [|done].
    intros [Hdir Hfile]%andb_prop.
    destruct (fs_stat w (path_join [envPath; interiorPython])) as [st|]; [|done].
    split; eauto.
  - intros [(stats & -> & ->) (st & -> & ->)]. done.
Qed.

(** One iteration reads the file system and pushes at most one record; the
    state is left as it was. *)
Lemma probeEnvironment_emitted folder envName found (s : State) :
  probeEnvironment folder envName found s =
  (Return (found ++ emitted s folder envName), s).
Proof.
  unfold probeEnvironment, emitted, isEnvironment, try_catch, bind, stat, gets, ret.
  destruct (fs_stat (world s) (path_join [folder; envName])) as [stats|];
    [|by rewrite app_nil_r].
  destruct (isDirectory stats); simpl; [|by rewrite app_nil_r].
  destruct (fs_stat (world s) _) as [pythonExeStats|]; [|by rewrite app_nil_r].
  destruct (isFile pythonExeStats); [done | by rewrite app_nil_r].
Qed.

Lemma scanFolder_emitted folder names :
  forall found (s : State),
    scanFolder folder names found s =
    (Return (found ++ flat_map (emitted s folder) names), s).
Proof.
  induction names as [|envName rest IH]; intros found s; simpl.
  - unfold ret. by rewrite app_nil_r.
  - unfold bind. rewrite probeEnvironment_emitted, IH. by rewrite <- app_assoc.
Qed.

Lemma scanFolders_emitted folders :
  forall found (s : State),
    scanFolders folders found s =
    (Return (found ++
             flat_map (fun folder => flat_map (emitted s folder) envFolders) folders),
     s).
Proof.
  induction folders as [|folder rest IH]; intros found s; cbn [scanFolders flat_map].
  - unfold ret. by rewrite app_nil_r.
  - unfold bind. rewrite scanFolder_emitted, IH. by rewrite <- app_assoc.
Qed.

(** C7: without workspace folders [getVirtualEnvironments] returns the
    empty list, and does not throw.  With workspace folders it returns a
    list whose records are exactly the candidates folder/name, for a
    workspace folder and one of the six candidate names, that are a
    directory holding a file at the interior interpreter path; a candidate
    directory without that file is not in the list.  The state is left as
    it was. *)
Theorem getVirtualEnvironments_valid (s : State) :
  match workspaceFolders (world s) with
  | None => getVirtualEnvironments s = (Return [], s)
  | Some folders =>
      exists L,
        getVirtualEnvironments s = (Return L, s) /\
        (forall e, e ∈ L <->
           exists folder envName,
             folder ∈ folders /\ envName ∈ envFolders /\
             validEnvironment (world s) (path_join [folder; envName]) /\
             e = mkEnvironmentInfo envName (path_join [folder; envName])
                   (isCurrentPath s (path_join [folder; envName]))) /\
        (forall folder envName,
           ~ validEnvironment (world s) (path_join [folder; envName]) ->
           forall e, e ∈ L -> env_path e <> path_join [folder; envName])
  end.
Proof.
  unfold getVirtualEnvironments, bind, gets.
  destruct (workspaceFolders (world s)) as [folders|]; [|reflexivity].
  rewrite scanFolders_emitted. cbn [app].
  set (L := flat_map _ folders).
  assert (HL : forall e, e ∈ L <->
             exists folder envName,
               folder ∈ folders /\ envName ∈ envFolders /\
               validEnvironment (world s) (path_join [folder; envName]) /\
               e = mkEnvironmentInfo envName (path_join [folder; envName])
                     (isCurrentPath s (path_join [folder; envName]))).
  { intros e. subst L. rewrite list_elem_of_In, in_flat_map. split.
    - intros (folder & Hfolder & He). apply in_flat_map in He as (envName & Hname & He).
      exists folder, envName. rewrite !list_elem_of_In.
      split; [done|]. split; [done|].
      unfold emitted in He.
      destruct (isEnvironment (world s) (path_join [folder; envName])) eqn:Hvalid;
        [|by destruct He].
      split; [by apply isEnvironment_valid|].
      destruct He as [<-|[]]. done.
    - intros (folder & envName & Hfolder & Hname & Hvalid & ->).
      exists folder. split; [by apply list_elem_of_In|].
      apply in_flat_map. exists envName. split; [by apply list_elem_of_In|].
      unfold emitted. apply isEnvironment_valid in Hvalid. rewrite Hvalid.
      by left. }
  exists L. split; [done|]. split; [exact HL|].
  intros folder envName Hinvalid e He Hpath.
  apply HL in He as (folder' & envName' & _ & _ & Hvalid & ->).
  simpl in Hpath. by rewrite Hpath in Hvalid.
Qed.

End Enumerator.

(** In the workspace of the fixture, .venv is reported and venv, a
    directory without an interpreter, is not. *)
Example getVirtualEnvironments_workspace :
  fst (getVirtualEnvironments (Fixture.initial Fixture.workspace)) =
  Return [mkEnvironmentInfo ".venv" "/proj/.venv" false].
Proof. vm_compute. reflexivity. Qed.

(** * Selecting the active environment *)

Section Selection.

Context {W : Type}.

Local Abbreviation State := (State W).

Lemma set_isActive_twice b b' (o : option EnvironmentInfo) :
  set_isActive b <$> (set_isActive b' <$> o) = set_isActive b <$> o.
Proof. by destruct o. Qed.

(** After the [forEach], the held objects are inactive and the others
    untouched. *)
Lemma deactivateAll_lookup envs :
  forall (h : gmap loc EnvironmentInfo) l,
    deactivateAll envs h !! l =
    if decide (l ∈ envs) then set_isActive false <$> h !! l else h !! l.
Proof.
  unfold deactivateAll.
  induction envs as [|x envs IH]; intros h l; cbn [foldl].
  - case_decide as Hin; [by apply elem_of_nil in Hin | done].
  - rewrite IH, lookup_alter.
    destruct (decide (l ∈ envs)) as [Hin|Hnin];
      destruct (decide (x = l)) as [->|Hne].
    + rewrite decide_True by (by left). apply set_isActive_twice.
    + by rewrite decide_True by (by right).
    + by rewrite decide_True by (by left).
    + rewrite decide_False; [done|].
      intros [->|?]%elem_of_cons; done.
Qed.

Lemma hasName_deactivateAll envs (h : gmap loc EnvironmentInfo) envName l :
  hasName (deactivateAll envs h) envName l = hasName h envName l.
Proof.
  unfold hasName. rewrite deactivateAll_lookup.
  case_decide; [|done]. by destruct (h !! l).
Qed.

Lemma hasName_alter b l' (h : gmap loc EnvironmentInfo) envName l :
  hasName (alter (set_isActive b) l' h) envName l = hasName h envName l.
Proof.
  unfold hasName. rewrite lookup_alter.
  case_decide as Heq; [subst l'|done]. by destruct (h !! l).
Qed.

Lemma find_pointwise {A} (f g : A -> bool) (l : list A) :
  (forall x, f x = g x) -> List.find f l = List.find g l.
Proof.
  intros Hfg. induction l as [|x l IH]; simpl; [done|]. by rewrite Hfg, IH.
Qed.

(** The state [setActiveEnvironment] leaves: it never throws. *)
Lemma setActiveEnvironment_run envName (s : State) :
  setActiveEnvironment envName s =
  (Return tt,
   match List.find (hasName (heap s) envName) (environments s) with
   | Some l =>
       mkState (world s)
               (alter (set_isActive true) l
                      (deactivateAll (environments s) (heap s)))
               (Some l) (environments s) (channel s) (errorMessages s)
               (processes s) (S (fired s))
   | None =>
       mkState (world s) (deactivateAll (environments s) (heap s))
               (currentEnv s) (environments s) (channel s) (errorMessages s)
               (processes s) (S (fired s))
   end).
Proof.
  unfold setActiveEnvironment, bind, gets, modify, refresh, ret. simpl.
  rewrite (find_pointwise _ (hasName (heap s) envName))
    by (intros x; apply hasName_deactivateAll).
  by destruct (List.find _ _).
Qed.

Lemma deactivateAll_twice envs (h : gmap loc EnvironmentInfo) :
  deactivateAll envs (deactivateAll envs h) = deactivateAll envs h.
Proof.
  apply map_eq. intros k. rewrite !deactivateAll_lookup.
  case_decide; [apply set_isActive_twice | done].
Qed.

Lemma reselect envs (h : gmap loc EnvironmentInfo) l :
  l ∈ envs ->
  alter (set_isActive true) l
        (deactivateAll envs (alter (set_isActive true) l (deactivateAll envs h))) =
  alter (set_isActive true) l (deactivateAll envs h).
Proof.
  intros Hl. apply map_eq. intros k.
  rewrite !lookup_alter, !deactivateAll_lookup, !lookup_alter, !deactivateAll_lookup.
  destruct (decide (l = k)) as [<-|Hne].
  - rewrite !decide_True by done. by rewrite !set_isActive_twice.
  - case_decide; [|done]. by rewrite !set_isActive_twice.
Qed.

Lemma find_matches {A} (f : A -> bool) (l : list A) x :
  List.find f l = Some x -> x ∈ l /\ f x = true.
Proof. intros [Hin Hf]%find_some. split; [by apply list_elem_of_In | done]. Qed.

(** Whatever the name, a second call changes nothing but the count of
    refresh events. *)
Lemma setActiveEnvironment_twice envName (s : State) :
  let s1 := snd (setActiveEnvironment envName s) in
  let s2 := snd (setActiveEnvironment envName s1) in
  heap s2 = heap s1 /\ currentEnv s2 = currentEnv s1 /\
  environments s2 = environments s1 /\ world s2 = world s1 /\
  channel s2 = channel s1 /\ errorMessages s2 = errorMessages s1 /\
  processes s2 = processes s1.
Proof.
  intros s1 s2. subst s2 s1. rewrite !setActiveEnvironment_run. cbn [snd].
  destruct (List.find (hasName (heap s) envName) (environments s)) as [l|] eqn:Hfind;
    cbn [heap environments currentEnv world channel errorMessages processes].
  - rewrite (find_pointwise _ (hasName (heap s) envName)), Hfind.
    2:{ intros x. by rewrite hasName_alter, hasName_deactivateAll. }
    cbn [heap environments currentEnv world channel errorMessages processes].
    apply find_matches in Hfind as [Hin _].
    by rewrite reselect.
  - rewrite (find_pointwise _ (hasName (heap s) envName)), Hfind.
    2:{ intros x. by rewrite hasName_deactivateAll. }
    cbn [heap environments currentEnv world channel errorMessages processes].
    by rewrite deactivateAll_twice.
Qed.

Lemma elem_of_activeRecords (s : State) k :
  k ∈ activeRecords s <-> k ∈ environments s /\ isActiveAt (heap s) k = true.
Proof.
  unfold activeRecords.
  by rewrite elem_of_list_to_set, list_elem_of_In, filter_In, <- list_elem_of_In.
Qed.

Lemma isActiveAt_deactivated envs (h : gmap loc EnvironmentInfo) k :
  k ∈ envs -> isActiveAt (deactivateAll envs h) k = false.
Proof.
  intros Hk. unfold isActiveAt. rewrite deactivateAll_lookup, decide_True by done.
  by destruct (h !! k).
Qed.

(** C8 (as amended): [setActiveEnvironment] clears the flag of every held
    record and then sets the flag of the first record with the given name,
    which becomes the current environment.  A second call with the same
    name leaves the heap, the current environment and the held records as
    the first call left them.  Exactly one held record, that first match,
    is active after one call and after two when some held record has the
    name; when none has it, no held record is active. *)
Theorem setActiveEnvironment_idempotent (envName : string) (s : State) :
  let s1 := snd (setActiveEnvironment envName s) in
  let s2 := snd (setActiveEnvironment envName s1) in
  (heap s2 = heap s1 /\ currentEnv s2 = currentEnv s1 /\
   environments s2 = environments s1) /\
  match List.find (hasName (heap s) envName) (environments s) with
  | Some l =>
      heap s1 = alter (set_isActive true) l
                      (deactivateAll (environments s) (heap s)) /\
      currentEnv s1 = Some l /\
      activeRecords s1 = {[ l ]} /\ activeRecords s2 = {[ l ]}
  | None =>
      heap s1 = deactivateAll (environments s) (heap s) /\
      activeRecords s1 = ∅ /\ activeRecords s2 = ∅
  end.
Proof.
  intros s1 s2.
  destruct (setActiveEnvironment_twice envName s)
    as (Hheap & Hcur & Henvs & _). fold s1 s2 in Hheap, Hcur, Henvs.
  split; [done|].
  assert (Hactive2 : activeRecords s2 = activeRecords s1).
  { unfold activeRecords. by rewrite Hheap, Henvs. }
  rewrite Hactive2. subst s1. clear s2 Hheap Hcur Henvs Hactive2.
  rewrite setActiveEnvironment_run.
  destruct (List.find (hasName (heap s) envName) (environments s)) as [l|] eqn:Hmatch;
    cbn [snd].
  - apply find_matches in Hmatch as [Hin Hname].
    assert (Hactive : activeRecords
                        (mkState (world s)
                           (alter (set_isActive true) l
                                  (deactivateAll (environments s) (heap s)))
                           (Some l) (environments s) (channel s) (errorMessages s)
                           (processes s) (S (fired s))) = {[ l ]}).
    { apply set_eq. intros k.
      rewrite elem_of_activeRecords, elem_of_singleton. cbn [heap environments].
      unfold isActiveAt. rewrite lookup_alter. split.
      - intros [Hk Hact]. destruct (decide (l = k)) as [->|Hne]; [done|].
        fold (isActiveAt (deactivateAll (environments s) (heap s)) k) in Hact.
        by rewrite isActiveAt_deactivated in Hact.
      - intros ->. split; [done|]. rewrite decide_True by done.
        rewrite deactivateAll_lookup, decide_True by done.
        unfold hasName in Hname. by destruct (heap s !! l). }
    by rewrite Hactive.
  - assert (Hnone : activeRecords
                      (mkState (world s) (deactivateAll (environments s) (heap s))
                         (currentEnv s) (environments s) (channel s)
                         (errorMessages s) (processes s) (S (fired s))) = ∅).
    { apply set_eq. intros k.
      rewrite elem_of_activeRecords, elem_of_empty. cbn [heap environments].
      split; [|done]. intros [Hk Hact]. by rewrite isActiveAt_deactivated in Hact. }
    by rewrite Hnone.
Qed.

End Selection.

(** C8, counterexample: no held record has the empty name, which is what
    the switch command passes when it is run without an item; after two
    calls, as after one, no record is active. *)
Lemma setActiveEnvironment_unmatched_none_active :
  activeRecords (Fixture.selected_venv (Fixture.machine [])) = {[ 0 ]} /\
  activeRecords
    (snd (setActiveEnvironment EmptyString
            (Fixture.selected_venv (Fixture.machine [])))) = ∅ /\
  activeRecords
    (snd (setActiveEnvironment EmptyString
            (snd (setActiveEnvironment EmptyString
                    (Fixture.selected_venv (Fixture.machine [])))))) = ∅ /\
  size (activeRecords
          (snd (setActiveEnvironment EmptyString
                  (snd (setActiveEnvironment EmptyString
                          (Fixture.selected_venv (Fixture.machine []))))))) <> 1.
Proof.
  repeat split; try (vm_compute; reflexivity).
  vm_compute. discriminate.
Qed.

(** Selecting .venv, once and twice, in a state where venv is selected. *)
Lemma setActiveEnvironment_idempotent_witness :
  activeRecords (Fixture.selected_venv (Fixture.machine [])) = {[ 0 ]} /\
  activeRecords
    (snd (setActiveEnvironment ".venv" (Fixture.selected_venv (Fixture.machine [])))) =
  {[ 1 ]} /\
  activeRecords
    (snd (setActiveEnvironment ".venv"
            (snd (setActiveEnvironment ".venv"
                    (Fixture.selected_venv (Fixture.machine [])))))) = {[ 1 ]}.
Proof.
  assert (Hmatch : List.find
                     (hasName (heap (Fixture.selected_venv (Fixture.machine [])))
                              ".venv")
                     (environments (Fixture.selected_venv (Fixture.machine []))) =
                   Some 1) by (vm_compute; reflexivity).
  split; [vm_compute; reflexivity|].
  pose proof (setActiveEnvironment_idempotent
                ".venv" (Fixture.selected_venv (Fixture.machine []))) as H.
  cbv zeta in H. destruct H as [_ H].
  rewrite Hmatch in H. exact (proj2 (proj2 H)).
Defined.

(** * A name that matches no held record *)

Section Frame.

Context {W : Type} `{HostW : Host W}.

Local Abbreviation State := (State W).

Lemma agree_refl (s : State) : agree s s.
Proof. by repeat split. Qed.

Lemma respects_ret {A} (a : A) : respects (W := W) (ret a).
Proof. intros s t Hst. by split. Qed.

Lemma respects_throw {A} (e : JsError) : respects (W := W) (A := A) (throw e).
Proof. intros s t Hst. by split. Qed.

Lemma respects_bind {A B} (m : M A) (k : A -> M B) :
  respects (W := W) m -> (forall a, respects (k a)) -> respects (bind m k).
Proof.
  intros Hm Hk s t Hst. unfold bind.
  destruct (Hm s t Hst) as [Hr Ha].
  destruct (m s) as [[a|e] s'], (m t) as [[a'|e'] t']; cbn [fst snd] in *;
    try discriminate.
  - injection Hr as ->. by apply Hk.
  - injection Hr as ->. split; [reflexivity | exact Ha].
Qed.

Lemma respects_try_catch {A} (m : M A) (h : JsError -> M A) :
  respects (W := W) m -> (forall e, respects (h e)) -> respects (try_catch m h).
Proof.
  intros Hm Hh s t Hst. unfold try_catch.
  destruct (Hm s t Hst) as [Hr Ha].
  destruct (m s) as [[a|e] s'], (m t) as [[a'|e'] t']; cbn [fst snd] in *;
    try discriminate.
  - injection Hr as ->. split; [reflexivity | exact Ha].
  - injection Hr as ->. by apply Hh.
Qed.

Lemma respects_append text : respects (W := W) (append text).
Proof.
  intros s t (Hw & Hc & He & Hp & Hcur). split; [done|].
  unfold agree, current_environment in *. simpl. by rewrite Hc.
Qed.

Lemma respects_appendLine text : respects (W := W) (appendLine text).
Proof. apply respects_append. Qed.

Lemma respects_gets_world {A} (f : W -> A) :
  respects (gets (fun s : State => f (world s))).
Proof.
  intros s t Hst. split; [|done]. simpl. destruct Hst as [-> _]. done.
Qed.

Lemma respects_access_X p : respects (W := W) (access_X p).
Proof.
  intros s t Hst. unfold access_X. destruct Hst as (Hw & Hrest).
  rewrite Hw. destruct (fs_access_X (world t) p); by split.
Qed.

Lemma agree_started (s t : State) w p :
  agree s t -> agree (started p (set_world w s)) (started p (set_world w t)).
Proof.
  intros (Hw & Hc & He & Hp & Hcur).
  unfold agree, current_environment in *. simpl. by rewrite Hc, He, Hp.
Qed.

Lemma respects_executeSystemCommand cmdline :
  respects (W := W) (executeSystemCommand cmdline).
Proof.
  intros s t Hst. unfold executeSystemCommand.
  pose proof (proj1 Hst) as Hw. rewrite Hw.
  destruct (cp_exec (world t) cmdline) as [r w'].
  pose proof (agree_started s t w' (ViaExec cmdline) Hst) as Hst'.
  destruct (exec_error r) as [error|]; [|by split].
  destruct (truthy (exec_stderr r)); [|by split].
  revert Hst'. generalize (started (ViaExec cmdline) (set_world w' s)).
  generalize (started (ViaExec cmdline) (set_world w' t)). intros t' s' Hst'.
  revert s' t' Hst'.
  apply respects_bind; [apply respects_appendLine|]. intros _.
  apply respects_bind; [apply respects_appendLine|]. intros _.
  apply respects_throw.
Qed.

Lemma respects_executeCommand cmd argv envPath :
  respects (W := W) (executeCommand cmd argv envPath).
Proof.
  unfold executeCommand. apply respects_bind; [apply respects_appendLine|].
  intros _ s t Hst.
  pose proof (proj1 Hst) as Hw. rewrite Hw.
  destruct (cp_spawn (world t) _ argv) as [r w'].
  pose proof (agree_started s t w' (ViaSpawn (resolveCmdPath cmd envPath) argv) Hst)
    as Hst'.
  destruct r as [code stdout stderr|error]; [|by split].
  revert Hst'.
  generalize (started (ViaSpawn (resolveCmdPath cmd envPath) argv) (set_world w' s)).
  generalize (started (ViaSpawn (resolveCmdPath cmd envPath) argv) (set_world w' t)).
  intros t' s' Hst'. revert s' t' Hst'.
  apply respects_bind; [apply respects_append|]. intros _.
  apply respects_bind; [apply respects_append|]. intros _.
  destruct code as [[| |]|]; first [apply respects_ret | apply respects_throw].
Qed.

Lemma respects_testPythonPath pythonPath :
  respects (W := W) (testPythonPath pythonPath).
Proof.
  unfold testPythonPath. apply respects_try_catch.
  - apply respects_bind; [apply respects_executeSystemCommand|].
    intros r. apply respects_ret.
  - intros _. apply respects_ret.
Qed.

Lemma respects_fromExtension : respects (W := W) fromExtension.
Proof.
  unfold fromExtension. apply respects_try_catch.
  - apply respects_bind; [apply (respects_gets_world pythonExtension)|].
    intros [|]; [|apply respects_ret].
    apply respects_bind; [apply (respects_gets_world defaultInterpreterPath)|].
    intros [pythonPath|]; [|apply respects_ret].
    destruct (truthy pythonPath); [|apply respects_ret].
    apply respects_bind; [apply respects_testPythonPath|].
    intros [|]; apply respects_ret.
  - intros e. apply respects_bind; [apply respects_appendLine|].
    intros _. apply respects_ret.
Qed.

Lemma respects_probeCommand cmd : respects (W := W) (probeCommand cmd).
Proof.
  unfold probeCommand. apply respects_try_catch.
  - apply respects_bind; [apply respects_executeSystemCommand|].
    intros r. destruct (truthy (exec_stdout r)); [|apply respects_ret].
    apply respects_bind; [apply respects_testPythonPath|].
    intros [|]; apply respects_ret.
  - intros e. apply respects_bind; [apply respects_appendLine|].
    intros _. apply respects_ret.
Qed.

Lemma respects_fromPATH cmds : respects (W := W) (fromPATH cmds).
Proof.
  induction cmds as [|cmd rest IH]; simpl; [apply respects_ret|].
  apply respects_bind; [apply respects_probeCommand|].
  intros [pythonPath|]; [apply respects_ret | exact IH].
Qed.

Lemma respects_getPythonPath : respects (W := W) getPythonPath.
Proof.
  unfold getPythonPath. apply respects_bind; [apply respects_fromExtension|].
  intros [pythonPath|]; [apply respects_ret|].
  apply respects_bind; [apply respects_fromPATH|].
  intros [pythonPath|]; [apply respects_ret | apply respects_throw].
Qed.

Lemma fromCurrentEnv_unfold (s : State) :
  fromCurrentEnv s =
  match current_environment s with
  | Some env =>
      try_catch
        (access_X (pipPathOf env) ;;;
         ret (Some (mkPipCommand (pipPathOf env) [] None)))
        (fun _ =>
           appendLine ("Pip not found in environment: " +:+ pipPathOf env) ;;;
           ret None) s
  | None => (Return None, s)
  end.
Proof.
  unfold fromCurrentEnv, bind at 1, gets.
  by destruct (current_environment s).
Qed.

(** [fromCurrentEnv] reads [_currentEnv] for its path only. *)
Lemma respects_fromCurrentEnv : respects (W := W) fromCurrentEnv.
Proof.
  intros s t Hst. rewrite !fromCurrentEnv_unfold.
  pose proof Hst as (_ & _ & _ & _ & Hcur).
  destruct (current_environment s) as [env|], (current_environment t) as [env'|];
    simpl in Hcur; try discriminate; [|split; [reflexivity | exact Hst]].
  injection Hcur as Hpath. unfold pipPathOf. rewrite Hpath.
  revert s t Hst. apply respects_try_catch.
  - apply respects_bind; [apply respects_access_X|]. intros _. apply respects_ret.
  - intros _. apply respects_bind; [apply respects_appendLine|].
    intros _. apply respects_ret.
Qed.

(** Resolving the pip command depends on the current environment through
    its path alone. *)
Lemma respects_getPipCommand : respects (W := W) getPipCommand.
Proof.
  unfold getPipCommand. apply respects_bind; [apply respects_fromCurrentEnv|].
  intros [c|]; [apply respects_ret|].
  apply respects_bind; [apply respects_getPythonPath|].
  intros pythonPath. apply respects_ret.
Qed.

(** C10: when no held record has the name, [setActiveEnvironment] clears
    the flag of every held record and leaves [_currentEnv] as it was: no
    held record is active, the current environment keeps its path, and
    [getPipCommand] resolves the same command, running the same processes,
    as before the call. *)
Theorem setActiveEnvironment_unmatched (envName : string) (s : State)
  (Hunmatched : List.find (hasName (heap s) envName) (environments s) = None) :
  let s1 := snd (setActiveEnvironment envName s) in
  heap s1 = deactivateAll (environments s) (heap s) /\
  (forall l env, l ∈ environments s1 -> heap s1 !! l = Some env ->
                 env_isActive env = false) /\
  activeRecords s1 = ∅ /\
  currentEnv s1 = currentEnv s /\
  env_path <$> current_environment s1 = env_path <$> current_environment s /\
  fst (getPipCommand s1) = fst (getPipCommand s) /\
  world (snd (getPipCommand s1)) = world (snd (getPipCommand s)) /\
  processes (snd (getPipCommand s1)) = processes (snd (getPipCommand s)).
Proof.
  intros s1.
  assert (Hs1 : s1 = mkState (world s) (deactivateAll (environments s) (heap s))
                       (currentEnv s) (environments s) (channel s)
                       (errorMessages s) (processes s) (S (fired s))).
  { subst s1. by rewrite setActiveEnvironment_run, Hunmatched. }
  assert (Hpath : env_path <$> current_environment s1 =
                  env_path <$> current_environment s).
  { rewrite Hs1. unfold current_environment. cbn [heap currentEnv].
    destruct (currentEnv s) as [l|]; [|done]. simpl.
    rewrite deactivateAll_lookup. case_decide; [|done].
    by destruct (heap s !! l). }
  assert (Hagree : agree s1 s).
  { split; [by rewrite Hs1|]. split; [by rewrite Hs1|]. split; [by rewrite Hs1|].
    split; [by rewrite Hs1 | exact Hpath]. }
  destruct (respects_getPipCommand s1 s Hagree) as (Hres & Hw & _ & _ & Hp & _).
  split; [by rewrite Hs1|]. split; [|split].
  - rewrite Hs1. cbn [heap environments]. intros l env Hl Hlookup.
    rewrite deactivateAll_lookup, decide_True in Hlookup by done.
    destruct (heap s !! l); [|done]. by injection Hlookup as <-.
  - apply set_eq. intros k. rewrite elem_of_activeRecords, elem_of_empty.
    rewrite Hs1. cbn [heap environments].
    split; [|done]. intros [Hk Hact]. by rewrite isActiveAt_deactivated in Hact.
  - split; [by rewrite Hs1|]. done.
Qed.

End Frame.

Lemma setActiveEnvironment_unmatched_witness :
  List.find (hasName (heap (Fixture.selected_venv Fixture.venv_with_pip)) EmptyString)
            (environments (Fixture.selected_venv Fixture.venv_with_pip)) = None /\
  fst (getPipCommand (Fixture.selected_venv Fixture.venv_with_pip)) =
  Return (mkPipCommand "/proj/venv/bin/pip" [] None) /\
  activeRecords
    (snd (setActiveEnvironment EmptyString
            (Fixture.selected_venv Fixture.venv_with_pip))) = ∅ /\
  fst (getPipCommand
         (snd (setActiveEnvironment EmptyString
                 (Fixture.selected_venv Fixture.venv_with_pip)))) =
  Return (mkPipCommand "/proj/venv/bin/pip" [] None).
Proof.
  assert (Hunmatched : List.find
                         (hasName (heap (Fixture.selected_venv Fixture.venv_with_pip))
                                  EmptyString)
                         (environments (Fixture.selected_venv Fixture.venv_with_pip)) =
                       None) by (vm_compute; reflexivity).
  assert (Hbefore : fst (getPipCommand (Fixture.selected_venv Fixture.venv_with_pip)) =
                    Return (mkPipCommand "/proj/venv/bin/pip" [] None))
    by (vm_compute; reflexivity).
  split; [exact Hunmatched|]. split; [exact Hbefore|].
  destruct (setActiveEnvironment_unmatched EmptyString _ Hunmatched)
    as (_ & _ & Hactive & _ & _ & Hsame & _).
  split; [exact Hactive|]. by rewrite Hsame.
Defined.

(** * What every operation of the executor leaves alone *)

Section Tidiness.

Context {W : Type} `{HostW : Host W}.

Local Abbreviation State := (State W).

Lemma string_app_nil_r (s : string) : s +:+ EmptyString = s.
Proof.
  induction s as [|c s IH]; [done|].
  change (String c (s +:+ EmptyString) = String c s). by f_equal.
Qed.

Lemma string_app_assoc (a b c : string) : (a +:+ b) +:+ c = a +:+ (b +:+ c).
Proof.
  induction a as [|x a IH]; [done|].
  change (String x ((a +:+ b) +:+ c) = String x (a +:+ (b +:+ c))). by f_equal.
Qed.

Lemma same_selection_refl (s : State) : same_selection s s.
Proof. by repeat split. Qed.

Lemma same_selection_trans (s t u : State) :
  same_selection s t -> same_selection t u -> same_selection s u.
Proof.
  intros (H1 & H2 & H3 & H4) (H1' & H2' & H3' & H4').
  repeat split; congruence.
Qed.

Lemma grows_refl (s : State) : grows s s.
Proof.
  split; [exists EmptyString; by rewrite string_app_nil_r|].
  split; [exists []; by rewrite app_nil_r | exists []; by rewrite app_nil_r].
Qed.

Lemma grows_trans (s t u : State) : grows s t -> grows t u -> grows s u.
Proof.
  intros ([x Hx] & [m Hm] & [p Hp]) ([x' Hx'] & [m' Hm'] & [p' Hp']).
  split; [exists (x +:+ x'); by rewrite Hx', Hx, string_app_assoc|].
  split; [exists (m ++ m'); by rewrite Hm', Hm, app_assoc|].
  exists (p ++ p'). by rewrite Hp', Hp, app_assoc.
Qed.

Lemma tidy_ret {A} (a : A) : tidy (W := W) (ret a).
Proof. intros s. split; [apply same_selection_refl | apply grows_refl]. Qed.

Lemma tidy_throw {A} (e : JsError) : tidy (W := W) (A := A) (throw e).
Proof. intros s. split; [apply same_selection_refl | apply grows_refl]. Qed.

Lemma tidy_gets {A} (f : State -> A) : tidy (gets f).
Proof. intros s. split; [apply same_selection_refl | apply grows_refl]. Qed.

Lemma tidy_lift {A} (c : Completion A) : tidy (W := W) (lift c).
Proof. intros s. split; [apply same_selection_refl | apply grows_refl]. Qed.

Lemma tidy_bind {A B} (m : M A) (k : A -> M B) :
  tidy (W := W) m -> (forall a, tidy (k a)) -> tidy (bind m k).
Proof.
  intros Hm Hk s. unfold bind. destruct (Hm s) as [Hsel Hgrow].
  destruct (m s) as [[a|e] s1]; cbn [snd] in *; [|done].
  destruct (Hk a s1) as [Hsel' Hgrow'].
  split; [by eapply same_selection_trans | by eapply grows_trans].
Qed.

Lemma tidy_try_catch {A} (m : M A) (h : JsError -> M A) :
  tidy (W := W) m -> (forall e, tidy (h e)) -> tidy (try_catch m h).
Proof.
  intros Hm Hh s. unfold try_catch. destruct (Hm s) as [Hsel Hgrow].
  destruct (m s) as [[a|e] s1]; cbn [snd] in *; [done|].
  destruct (Hh e s1) as [Hsel' Hgrow'].
  split; [by eapply same_selection_trans | by eapply grows_trans].
Qed.

Lemma tidy_append text : tidy (W := W) (append text).
Proof.
  intros s. split; [by repeat split|].
  split; [by exists text|]. split; exists []; simpl; by rewrite app_nil_r.
Qed.

Lemma tidy_appendLine text : tidy (W := W) (appendLine text).
Proof. apply tidy_append. Qed.

Lemma tidy_showErrorMessage text : tidy (W := W) (showErrorMessage text).
Proof.
  intros s. split; [by repeat split|].
  split; [exists EmptyString; simpl; by rewrite string_app_nil_r|].
  split; [by exists [text] | exists []; simpl; by rewrite app_nil_r].
Qed.

Lemma tidy_access_X p : tidy (W := W) (access_X p).
Proof.
  intros s. unfold access_X. destruct (fs_access_X (world s) p);
    (split; [apply same_selection_refl | apply grows_refl]).
Qed.

Lemma tidy_stat p : tidy (W := W) (stat p).
Proof.
  intros s. unfold stat. destruct (fs_stat (world s) p);
    (split; [apply same_selection_refl | apply grows_refl]).
Qed.

(** Starting a process adds it to the trace and changes the world. *)
Lemma started_tidy (s : State) w p :
  same_selection s (started p (set_world w s)) /\
  grows s (started p (set_world w s)).
Proof.
  split; [by repeat split|].
  split; [exists EmptyString; simpl; by rewrite string_app_nil_r|].
  split; [exists []; simpl; by rewrite app_nil_r | by exists [p]].
Qed.

(** A tidy computation run after a tidy step. *)
Lemma tidy_after {A} (m : M A) (s s1 : State) :
  same_selection s s1 /\ grows s s1 -> tidy m ->
  same_selection s (snd (m s1)) /\ grows s (snd (m s1)).
Proof.
  intros [Hsel Hgrow] Hm. destruct (Hm s1) as [Hsel' Hgrow'].
  split; [by eapply same_selection_trans | by eapply grows_trans].
Qed.

Lemma tidy_executeSystemCommand cmdline :
  tidy (W := W) (executeSystemCommand cmdline).
Proof.
  intros s. unfold executeSystemCommand.
  destruct (cp_exec (world s) cmdline) as [r w'].
  pose proof (started_tidy s w' (ViaExec cmdline)) as Hstep.
  destruct (exec_error r) as [error|]; [|exact Hstep].
  destruct (truthy (exec_stderr r)); [|exact Hstep].
  apply (tidy_after _ _ _ Hstep).
  apply tidy_bind; [apply tidy_appendLine|]. intros _.
  apply tidy_bind; [apply tidy_appendLine|]. intros _. apply tidy_throw.
Qed.

Lemma tidy_executeCommand cmd argv envPath :
  tidy (W := W) (executeCommand cmd argv envPath).
Proof.
  unfold executeCommand. apply tidy_bind; [apply tidy_appendLine|].
  intros _ s. destruct (cp_spawn (world s) _ argv) as [r w'].
  pose proof (started_tidy s w' (ViaSpawn (resolveCmdPath cmd envPath) argv))
    as Hstep.
  destruct r as [code stdout stderr|error]; [|exact Hstep].
  apply (tidy_after _ _ _ Hstep).
  apply tidy_bind; [apply tidy_append|]. intros _.
  apply tidy_bind; [apply tidy_append|]. intros _.
  destruct code as [[| |]|]; first [apply tidy_ret | apply tidy_throw].
Qed.

Lemma tidy_testPythonPath pythonPath : tidy (W := W) (testPythonPath pythonPath).
Proof.
  unfold testPythonPath. apply tidy_try_catch.
  - apply tidy_bind; [apply tidy_executeSystemCommand|]. intros r. apply tidy_ret.
  - intros _. apply tidy_ret.
Qed.

Lemma tidy_fromExtension : tidy (W := W) fromExtension.
Proof.
  unfold fromExtension. apply tidy_try_catch.
  - apply tidy_bind; [apply tidy_gets|]. intros [|]; [|apply tidy_ret].
    apply tidy_bind; [apply tidy_gets|]. intros [pythonPath|]; [|apply tidy_ret].
    destruct (truthy pythonPath); [|apply tidy_ret].
    apply tidy_bind; [apply tidy_testPythonPath|]. intros [|]; apply tidy_ret.
  - intros e. apply tidy_bind; [apply tidy_appendLine|]. intros _. apply tidy_ret.
Qed.

Lemma tidy_probeCommand cmd : tidy (W := W) (probeCommand cmd).
Proof.
  unfold probeCommand. apply tidy_try_catch.
  - apply tidy_bind; [apply tidy_executeSystemCommand|].
    intros r. destruct (truthy (exec_stdout r)); [|apply tidy_ret].
    apply tidy_bind; [apply tidy_testPythonPath|]. intros [|]; apply tidy_ret.
  - intros e. apply tidy_bind; [apply tidy_appendLine|]. intros _. apply tidy_ret.
Qed.

Lemma tidy_fromPATH cmds : tidy (W := W) (fromPATH cmds).
Proof.
  induction cmds as [|cmd rest IH]; cbn [fromPATH]; [apply tidy_ret|].
  apply tidy_bind; [apply tidy_probeCommand|].
  intros [pythonPath|]; [apply tidy_ret | exact IH].
Qed.

Lemma tidy_getPythonPath : tidy (W := W) getPythonPath.
Proof.
  unfold getPythonPath. apply tidy_bind; [apply tidy_fromExtension|].
  intros [pythonPath|]; [apply tidy_ret|].
  apply tidy_bind; [apply tidy_fromPATH|].
  intros [pythonPath|]; [apply tidy_ret | apply tidy_throw].
Qed.

Lemma tidy_getPipCommand : tidy (W := W) getPipCommand.
Proof.
  unfold getPipCommand. apply tidy_bind.
  - unfold fromCurrentEnv. apply tidy_bind; [apply tidy_gets|].
    intros [env|]; [|apply tidy_ret]. apply tidy_try_catch.
    + apply tidy_bind; [apply tidy_access_X|]. intros _. apply tidy_ret.
    + intros _. apply tidy_bind; [apply tidy_appendLine|]. intros _. apply tidy_ret.
  - intros [c|]; [apply tidy_ret|].
    apply tidy_bind; [apply tidy_getPythonPath|]. intros p. apply tidy_ret.
Qed.

Lemma tidy_mergeLoop pc outdatedMap packagesData :
  forall acc, tidy (W := W) (mergeLoop pc outdatedMap packagesData acc).
Proof.
  induction packagesData as [|pkg rest IH]; intros acc; cbn [mergeLoop];
    [apply tidy_ret|].
  apply tidy_bind; [|intros d; apply IH].
  unfold fetchDescription. apply tidy_try_catch.
  - apply tidy_bind; [apply tidy_executeCommand|]. intros o. apply tidy_ret.
  - intros _. apply tidy_ret.
Qed.

Lemma tidy_getInstalledPackages : tidy (W := W) getInstalledPackages.
Proof.
  unfold getInstalledPackages. apply tidy_try_catch.
  - apply tidy_bind; [apply tidy_getPipCommand|]. intros pc.
    apply tidy_bind; [apply tidy_executeCommand|]. intros output.
    apply tidy_bind; [apply tidy_lift|]. intros packagesData.
    apply tidy_bind.
    { apply tidy_try_catch; [apply tidy_executeCommand|]. intros _. apply tidy_ret. }
    intros outdatedOutput.
    apply tidy_bind; [apply tidy_lift|]. intros outdatedPackages.
    apply tidy_mergeLoop.
  - intros error. apply tidy_bind; [apply tidy_appendLine|]. intros _.
    apply tidy_bind; [apply tidy_showErrorMessage|]. intros _. apply tidy_ret.
Qed.

Lemma tidy_probeEnvironment folder envName found :
  tidy (W := W) (probeEnvironment folder envName found).
Proof.
  unfold probeEnvironment. apply tidy_try_catch; [|intros _; apply tidy_ret].
  apply tidy_bind; [apply tidy_stat|]. intros stats.
  destruct (isDirectory stats); [|apply tidy_ret].
  apply tidy_try_catch; [|intros _; apply tidy_ret].
  apply tidy_bind; [apply tidy_stat|]. intros st.
  destruct (isFile st); [|apply tidy_ret].
  apply tidy_bind; [apply tidy_gets|]. intros b. apply tidy_ret.
Qed.

Lemma tidy_scanFolder folder names :
  forall found, tidy (W := W) (scanFolder folder names found).
Proof.
  induction names as [|n rest IH]; intros found; cbn [scanFolder]; [apply tidy_ret|].
  apply tidy_bind; [apply tidy_probeEnvironment | intros f; apply IH].
Qed.

Lemma tidy_scanFolders folders :
  forall found, tidy (W := W) (scanFolders folders found).
Proof.
  induction folders as [|f rest IH]; intros found; cbn [scanFolders];
    [apply tidy_ret|].
  apply tidy_bind; [apply tidy_scanFolder | intros f'; apply IH].
Qed.

Lemma tidy_getVirtualEnvironments : tidy (W := W) getVirtualEnvironments.
Proof.
  unfold getVirtualEnvironments. apply tidy_bind; [apply tidy_gets|].
  intros [folders|]; [apply tidy_scanFolders | apply tidy_ret].
Qed.

Lemma tidy_updateEach pc names :
  forall succ fail, tidy (W := W) (updateEach pc names succ fail).
Proof.
  induction names as [|n rest IH]; intros succ fail; cbn [updateEach];
    [apply tidy_ret|].
  apply tidy_bind.
  - unfold updateOne. apply tidy_try_catch.
    + apply tidy_bind; [apply tidy_executeCommand|]. intros _. apply tidy_ret.
    + intros e. apply tidy_bind; [apply tidy_appendLine|]. intros _. apply tidy_ret.
  - intros [|]; apply IH.
Qed.

Lemma tidy_updatePackages names : tidy (W := W) (updatePackages names).
Proof.
  unfold updatePackages. destruct names as [|n names]; [apply tidy_ret|].
  apply tidy_try_catch.
  - apply tidy_bind; [apply tidy_getPipCommand|]. intros pc.
    apply tidy_try_catch.
    + apply tidy_bind; [apply tidy_executeCommand|]. intros _.
      apply tidy_bind; [apply tidy_appendLine|]. intros _. apply tidy_ret.
    + intros e. apply tidy_bind; [apply tidy_appendLine|]. intros _.
      apply tidy_updateEach.
  - intros e. apply tidy_bind; [apply tidy_appendLine|]. intros _. apply tidy_ret.
Qed.

(** A pip operation that runs one command and answers with a boolean. *)
Lemma tidy_pipOperation (argsOf : PipCommand -> list string) (line : string) :
  tidy (W := W)
    (try_catch
       (pc <- getPipCommand ;;
        executeCommand (command pc) (argsOf pc) (envPath pc) ;;;
        ret true)
       (fun error => appendLine (line +:+ error_toString error) ;;; ret false)).
Proof.
  apply tidy_try_catch.
  - apply tidy_bind; [apply tidy_getPipCommand|]. intros pc.
    apply tidy_bind; [apply tidy_executeCommand|]. intros _. apply tidy_ret.
  - intros e. apply tidy_bind; [apply tidy_appendLine|]. intros _. apply tidy_ret.
Qed.

Lemma tidy_createVirtualEnvironment name :
  tidy (W := W) (createVirtualEnvironment name).
Proof.
  unfold createVirtualEnvironment. apply tidy_try_catch.
  - apply tidy_bind; [apply tidy_getPythonPath|]. intros pythonPath.
    apply tidy_bind; [apply tidy_gets|]. intros [folder|]; [|apply tidy_throw].
    apply tidy_bind; [apply tidy_executeCommand|]. intros _. apply tidy_ret.
  - intros e. apply tidy_bind; [apply tidy_appendLine|]. intros _. apply tidy_ret.
Qed.

(** X1: no operation of the executor changes an environment record, the
    list of held records, the current environment or the count of refresh
    events: whatever it returns or throws, these are as before. *)
Theorem executor_keeps_selection (s : State) :
  same_selection s (snd (getPythonPath s)) /\
  same_selection s (snd (getPipCommand s)) /\
  same_selection s (snd (getInstalledPackages s)) /\
  same_selection s (snd (getVirtualEnvironments s)) /\
  (forall name version, same_selection s (snd (installPackage name version s))) /\
  (forall name, same_selection s (snd (uninstallPackage name s))) /\
  (forall name, same_selection s (snd (updatePackage name s))) /\
  (forall names, same_selection s (snd (updatePackages names s))) /\
  (forall name, same_selection s (snd (createVirtualEnvironment name s))).
Proof.
  split; [apply tidy_getPythonPath|]. split; [apply tidy_getPipCommand|].
  split; [apply tidy_getInstalledPackages|].
  split; [apply tidy_getVirtualEnvironments|].
  split; [intros name version; apply (tidy_pipOperation
            (fun pc => args pc ++ ["install"; packageSpecOf name version]))|].
  split; [intros name; apply (tidy_pipOperation
            (fun pc => args pc ++ ["uninstall"; "-y"; name]))|].
  split; [intros name; apply (tidy_pipOperation
            (fun pc => args pc ++ ["install"; "--upgrade"; name]))|].
  split; [intros names; apply tidy_updatePackages|].
  intros name. apply tidy_createVirtualEnvironment.
Qed.

(** X2: under every operation of the executor the output channel, the
    error notifications and the trace of started processes are only added
    to: what was there before is a prefix of what is there after. *)
Theorem executor_appends_only (s : State) :
  grows s (snd (getPythonPath s)) /\
  grows s (snd (getPipCommand s)) /\
  grows s (snd (getInstalledPackages s)) /\
  grows s (snd (getVirtualEnvironments s)) /\
  (forall name version, grows s (snd (installPackage name version s))) /\
  (forall name, grows s (snd (uninstallPackage name s))) /\
  (forall name, grows s (snd (updatePackage name s))) /\
  (forall names, grows s (snd (updatePackages names s))) /\
  (forall name, grows s (snd (createVirtualEnvironment name s))).
Proof.
  split; [apply tidy_getPythonPath|]. split; [apply tidy_getPipCommand|].
  split; [apply tidy_getInstalledPackages|].
  split; [apply tidy_getVirtualEnvironments|].
  split; [intros name version; apply (tidy_pipOperation
            (fun pc => args pc ++ ["install"; packageSpecOf name version]))|].
  split; [intros name; apply (tidy_pipOperation
            (fun pc => args pc ++ ["uninstall"; "-y"; name]))|].
  split; [intros name; apply (tidy_pipOperation
            (fun pc => args pc ++ ["install"; "--upgrade"; name]))|].
  split; [intros names; apply tidy_updatePackages|].
  intros name. apply tidy_createVirtualEnvironment.
Qed.

End Tidiness.

(** * More on the interpreter and the pip command *)

Section Resolution.

Context {W : Type} `{HostW : Host W}.

Local Abbreviation State := (State W).

(** When an environment is selected and its pip passes the [X_OK] check,
    [getPipCommand] returns that executable with no argument prefix, and
    the state is left as it was. *)
Lemma getPipCommand_direct (s : State) (env : EnvironmentInfo)
  (Hcurrent : current_environment s = Some env)
  (Hpip : fs_access_X (world s) (pipPathOf env) = true) :
  getPipCommand s = (Return (mkPipCommand (pipPathOf env) [] None), s).
Proof.
  unfold getPipCommand, bind. rewrite fromCurrentEnv_unfold, Hcurrent.
  unfold try_catch, bind, access_X. by rewrite Hpip.
Qed.

(** X3: whatever [getPipCommand] returns has no environment path and has
    the argument prefix empty or -m pip, so that [executeCommand] spawns
    the returned command as it is, neither joined to a directory nor given
    an extension. *)
Theorem getPipCommand_verbatim (s : State) pc s'
  (Hpc : getPipCommand s = (Return pc, s')) :
  envPath pc = None /\
  (args pc = [] \/ args pc = ["-m"; "pip"]) /\
  resolveCmdPath (command pc) (envPath pc) = command pc.
Proof.
  assert (Hshape : envPath pc = None /\ (args pc = [] \/ args pc = ["-m"; "pip"])).
  { revert Hpc. unfold getPipCommand, bind. rewrite fromCurrentEnv_unfold.
    destruct (current_environment s) as [env|].
    - unfold try_catch, bind at 1, access_X.
      destruct (fs_access_X (world s) (pipPathOf env)).
      + intros [= <- _]. auto.
      + cbn [bind ret appendLine append modify].
        destruct (getPythonPath _) as [[p|e] s1]; [|discriminate].
        intros [= <- _]. auto.
    - destruct (getPythonPath s) as [[p|e] s1]; [|discriminate].
      intros [= <- _]. auto. }
  destruct Hshape as [Henv Hargs]. repeat split; try done. by rewrite Henv.
Qed.

Lemma processes_testPythonPath pythonPath (s : State) :
  processes (snd (testPythonPath pythonPath s)) =
  processes s ++ [versionCheck pythonPath].
Proof.
  unfold testPythonPath, try_catch, bind, executeSystemCommand, versionCheck.
  destruct (cp_exec (world s) _) as [r w'].
  destruct (exec_error r) as [error|]; [|done].
  by destruct (truthy (exec_stderr r)).
Qed.

Lemma fromExtension_some (s : State) pythonPath s1 :
  fromExtension s = (Return (Some pythonPath), s1) ->
  pythonExtension (world s) = true /\
  defaultInterpreterPath (world s) = Some pythonPath /\
  testPythonPath pythonPath s = (Return true, s1).
Proof.
  unfold fromExtension, try_catch, bind at 1, gets.
  destruct (pythonExtension (world s)); [|discriminate].
  unfold bind at 1.
  destruct (defaultInterpreterPath (world s)) as [p|]; [|discriminate].
  destruct (truthy p); [|discriminate]. unfold bind.
  destruct (testPythonPath_returns p s) as (b & s2 & Htest). rewrite Htest.
  destruct b; [|discriminate]. by intros [= -> ->].
Qed.

Lemma probeCommand_some cmd (s : State) pythonPath s1 :
  probeCommand cmd s = (Return (Some pythonPath), s1) ->
  exists s0, grows s s0 /\ testPythonPath pythonPath s0 = (Return true, s1).
Proof.
  unfold probeCommand, try_catch, bind at 1.
  pose proof (tidy_executeSystemCommand (whichCmd +:+ " " +:+ cmd) s) as [_ Hgrow].
  destruct (executeSystemCommand _ s) as [[r|error] s0]; cbn [snd] in Hgrow.
  - destruct (truthy (exec_stdout r)); [|discriminate]. unfold bind.
    destruct (testPythonPath_returns
                (hd EmptyString (split_lines (trim (exec_stdout r)))) s0)
      as (b & s2 & Htest). rewrite Htest.
    destruct b; [|discriminate]. intros [= <- <-]. eauto.
  - discriminate.
Qed.

Lemma fromPATH_some cmds :
  forall (s : State) pythonPath s1,
    fromPATH cmds s = (Return (Some pythonPath), s1) ->
    exists s0, grows s s0 /\ testPythonPath pythonPath s0 = (Return true, s1).
Proof.
  induction cmds as [|cmd rest IH]; intros s p s1; cbn [fromPATH]; [discriminate|].
  unfold bind. pose proof (tidy_probeCommand cmd s) as [_ Hgrow].
  destruct (probeCommand cmd s) as [[[q|]|e] s2] eqn:Hprobe; cbn [snd] in Hgrow.
  - intros [= -> ->]. by apply probeCommand_some in Hprobe.
  - intros Hrest. destruct (IH _ _ _ Hrest) as (s0 & Hgrow' & Htest).
    exists s0. split; [by eapply grows_trans | done].
  - discriminate.
Qed.

(** X4: a path that [getPythonPath] returns has been validated, and the
    search stopped there: the state returned is the one in which the
    validation of that path answered true, so the last process started is
    its version check, and every process started before is still in the
    trace. *)
Theorem getPythonPath_validated (s : State) pythonPath s'
  (Hpath : getPythonPath s = (Return pythonPath, s')) :
  exists s0,
    grows s s0 /\
    testPythonPath pythonPath s0 = (Return true, s') /\
    exists started,
      processes s' = processes s ++ started ++ [versionCheck pythonPath].
Proof.
  assert (Hval : exists s0, grows s s0 /\
                            testPythonPath pythonPath s0 = (Return true, s')).
  { revert Hpath. unfold getPythonPath, bind.
    pose proof (tidy_fromExtension s) as [_ Hgrow].
    destruct (fromExtension s) as [[[p|]|e] s1] eqn:Hext; cbn [snd] in Hgrow.
    - intros [= -> ->]. apply fromExtension_some in Hext as (_ & _ & Htest).
      exists s. split; [apply grows_refl | done].
    - destruct (fromPATH pythonCommands s1) as [[[p|]|e] s2] eqn:Hpath';
        try discriminate.
      intros [= -> ->]. apply fromPATH_some in Hpath' as (s0 & Hgrow' & Htest).
      exists s0. split; [by eapply grows_trans | done].
    - discriminate. }
  destruct Hval as (s0 & Hgrow & Htest). exists s0. split; [done|]. split; [done|].
  destruct Hgrow as (_ & _ & [started Hstarted]). exists started.
  pose proof (processes_testPythonPath pythonPath s0) as Hp.
  rewrite Htest in Hp. cbn [snd] in Hp. by rewrite Hp, Hstarted, app_assoc.
Qed.

(** The configured interpreter comes first: with the Python extension
    present, a non-empty [defaultInterpreterPath] whose validation answers
    true is what [getPythonPath] returns, in the state that validation
    left, the PATH not being searched. *)
Lemma getPythonPath_configured (s : State) pythonPath s1
  (Hextension : pythonExtension (world s) = true)
  (Hsetting : defaultInterpreterPath (world s) = Some pythonPath)
  (Hnonempty : truthy pythonPath = true)
  (Hvalid : testPythonPath pythonPath s = (Return true, s1)) :
  getPythonPath s = (Return pythonPath, s1) /\
  processes s1 = processes s ++ [versionCheck pythonPath].
Proof.
  split.
  - unfold getPythonPath, bind at 1, fromExtension, try_catch, bind at 1, gets.
    rewrite Hextension. unfold bind at 1. rewrite Hsetting, Hnonempty.
    unfold bind. by rewrite Hvalid.
  - pose proof (processes_testPythonPath pythonPath s) as Hp.
    by rewrite Hvalid in Hp.
Qed.

Lemma blind_ret {A} (a : A) : blind (W := W) (ret a).
Proof.
  intros s t Hw. split; [done|]. split; [done|].
  exists []. by rewrite !app_nil_r.
Qed.

Lemma blind_throw {A} (e : JsError) : blind (W := W) (A := A) (throw e).
Proof.
  intros s t Hw. split; [done|]. split; [done|].
  exists []. by rewrite !app_nil_r.
Qed.

Lemma blind_bind {A B} (m : M A) (k : A -> M B) :
  blind (W := W) m -> (forall a, blind (k a)) -> blind (bind m k).
Proof.
  intros Hm Hk s t Hw. unfold bind.
  destruct (Hm s t Hw) as (Hr & Hw' & started & Hs & Ht).
  destruct (m s) as [[a|e] s'], (m t) as [[a'|e'] t']; cbn [fst snd] in *;
    try discriminate.
  - injection Hr as <-.
    destruct (Hk a s' t' Hw') as (Hr' & Hw'' & later & Hs' & Ht').
    split; [done|]. split; [done|]. exists (started ++ later).
    by rewrite Hs', Ht', Hs, Ht, !app_assoc.
  - injection Hr as <-. split; [done|]. split; [done|]. by exists started.
Qed.

Lemma blind_try_catch {A} (m : M A) (h : JsError -> M A) :
  blind (W := W) m -> (forall e, blind (h e)) -> blind (try_catch m h).
Proof.
  intros Hm Hh s t Hw. unfold try_catch.
  destruct (Hm s t Hw) as (Hr & Hw' & started & Hs & Ht).
  destruct (m s) as [[a|e] s'], (m t) as [[a'|e'] t']; cbn [fst snd] in *;
    try discriminate.
  - injection Hr as <-. split; [done|]. split; [done|]. by exists started.
  - injection Hr as <-.
    destruct (Hh e s' t' Hw') as (Hr' & Hw'' & later & Hs' & Ht').
    split; [done|]. split; [done|]. exists (started ++ later).
    by rewrite Hs', Ht', Hs, Ht, !app_assoc.
Qed.

Lemma blind_append text : blind (W := W) (append text).
Proof.
  intros s t Hw. split; [done|]. split; [done|].
  exists []. by rewrite !app_nil_r.
Qed.

Lemma blind_appendLine text : blind (W := W) (appendLine text).
Proof. apply blind_append. Qed.

Lemma blind_gets_world {A} (f : W -> A) :
  blind (gets (fun s : State => f (world s))).
Proof.
  intros s t Hw. unfold gets. cbn [fst snd]. rewrite Hw.
  split; [done|]. split; [done|]. exists []. by rewrite !app_nil_r.
Qed.

(** Once the process [p] is started in the world [w'], what [k] does
    next. *)
Lemma blind_started {A} (k : M A) p (s t : State) w' :
  blind k ->
  fst (k (started p (set_world w' s))) = fst (k (started p (set_world w' t))) /\
  world (snd (k (started p (set_world w' s)))) =
  world (snd (k (started p (set_world w' t)))) /\
  exists run,
    processes (snd (k (started p (set_world w' s)))) = processes s ++ run /\
    processes (snd (k (started p (set_world w' t)))) = processes t ++ run.
Proof.
  intros Hk.
  destruct (Hk (started p (set_world w' s)) (started p (set_world w' t)) eq_refl)
    as (Hr & Hw' & later & Hs & Ht).
  split; [done|]. split; [done|]. exists (p :: later).
  rewrite Hs, Ht. cbn [processes started set_world].
  by rewrite <- !app_assoc.
Qed.

Lemma blind_executeSystemCommand cmdline :
  blind (W := W) (executeSystemCommand cmdline).
Proof.
  intros s t Hw. unfold executeSystemCommand. rewrite Hw.
  destruct (cp_exec (world t) cmdline) as [r w'].
  destruct (exec_error r) as [error|];
    [destruct (truthy (exec_stderr r))|].
  - apply blind_started.
    apply blind_bind; [apply blind_appendLine|]. intros _.
    apply blind_bind; [apply blind_appendLine|]. intros _.
    apply blind_throw.
  - apply (blind_started (ret r)), blind_ret.
  - apply (blind_started (ret r)), blind_ret.
Qed.

Lemma blind_executeCommand cmd argv envPath :
  blind (W := W) (executeCommand cmd argv envPath).
Proof.
  unfold executeCommand. apply blind_bind; [apply blind_appendLine|].
  intros _ s t Hw. rewrite Hw.
  destruct (cp_spawn (world t) _ argv) as [r w'].
  destruct r as [code stdout stderr|error].
  - apply blind_started.
    apply blind_bind; [apply blind_append|]. intros _.
    apply blind_bind; [apply blind_append|]. intros _.
    destruct code as [[| |]|]; first [apply blind_ret | apply blind_throw].
  - apply (blind_started (throw error)), blind_throw.
Qed.

Lemma blind_testPythonPath pythonPath :
  blind (W := W) (testPythonPath pythonPath).
Proof.
  unfold testPythonPath. apply blind_try_catch.
  - apply blind_bind; [apply blind_executeSystemCommand|].
    intros r. apply blind_ret.
  - intros _. apply blind_ret.
Qed.

Lemma blind_fromExtension : blind (W := W) fromExtension.
Proof.
  unfold fromExtension. apply blind_try_catch.
  - apply blind_bind; [apply (blind_gets_world pythonExtension)|].
    intros [|]; [|apply blind_ret].
    apply blind_bind; [apply (blind_gets_world defaultInterpreterPath)|].
    intros [pythonPath|]; [|apply blind_ret].
    destruct (truthy pythonPath); [|apply blind_ret].
    apply blind_bind; [apply blind_testPythonPath|].
    intros [|]; apply blind_ret.
  - intros e. apply blind_bind; [apply blind_appendLine|].
    intros _. apply blind_ret.
Qed.

Lemma blind_probeCommand cmd : blind (W := W) (probeCommand cmd).
Proof.
  unfold probeCommand. apply blind_try_catch.
  - apply blind_bind; [apply blind_executeSystemCommand|].
    intros r. destruct (truthy (exec_stdout r)); [|apply blind_ret].
    apply blind_bind; [apply blind_testPythonPath|].
    intros [|]; apply blind_ret.
  - intros e. apply blind_bind; [apply blind_appendLine|].
    intros _. apply blind_ret.
Qed.

Lemma blind_fromPATH cmds : blind (W := W) (fromPATH cmds).
Proof.
  induction cmds as [|cmd rest IH]; cbn [fromPATH]; [apply blind_ret|].
  apply blind_bind; [apply blind_probeCommand|].
  intros [pythonPath|]; [apply blind_ret | exact IH].
Qed.

Lemma blind_getPythonPath : blind (W := W) getPythonPath.
Proof.
  unfold getPythonPath. apply blind_bind; [apply blind_fromExtension|].
  intros [pythonPath|]; [apply blind_ret|].
  apply blind_bind; [apply blind_fromPATH|].
  intros [pythonPath|]; [apply blind_ret | apply blind_throw].
Qed.

Lemma blind_createVirtualEnvironment name :
  blind (W := W) (createVirtualEnvironment name).
Proof.
  unfold createVirtualEnvironment. apply blind_try_catch.
  - apply blind_bind; [apply blind_getPythonPath|]. intros pythonPath.
    apply blind_bind;
      [apply (blind_gets_world (fun w => workspaceFolders w ≫= head))|].
    intros [folder|]; [|apply blind_throw].
    apply blind_bind; [apply blind_executeCommand|]. intros _. apply blind_ret.
  - intros e. apply blind_bind; [apply blind_appendLine|].
    intros _. apply blind_ret.
Qed.

(** X5: the interpreter does not depend on what is selected: in two
    states with the same world, whatever their records, their held lists
    and their current environments, [getPythonPath] finds the same path
    or throws the same error, and [createVirtualEnvironment] returns the
    same record, each leaving the same world and having started the same
    processes.  A new environment is made by the interpreter of the
    settings or of the PATH, also when an environment is selected. *)
Theorem interpreter_ignores_selection (s t : State)
  (Hworld : world s = world t) :
  (fst (getPythonPath s) = fst (getPythonPath t) /\
   world (snd (getPythonPath s)) = world (snd (getPythonPath t)) /\
   exists started,
     processes (snd (getPythonPath s)) = processes s ++ started /\
     processes (snd (getPythonPath t)) = processes t ++ started) /\
  forall name,
    fst (createVirtualEnvironment name s) = fst (createVirtualEnvironment name t) /\
    world (snd (createVirtualEnvironment name s)) =
    world (snd (createVirtualEnvironment name t)) /\
    exists started,
      processes (snd (createVirtualEnvironment name s)) = processes s ++ started /\
      processes (snd (createVirtualEnvironment name t)) = processes t ++ started.
Proof.
  split; [by apply blind_getPythonPath|].
  intros name. by apply blind_createVirtualEnvironment.
Qed.

End Resolution.

(** * More on the package operations *)

Section PackageOperations.

Context {W : Type} `{HostW : Host W}.

Local Abbreviation State := (State W).

Lemma processes_executeCommand cmd argv envPath (s : State) :
  processes (snd (executeCommand cmd argv envPath s)) =
  processes s ++ [ViaSpawn (resolveCmdPath cmd envPath) argv].
Proof.
  unfold executeCommand, bind at 1, appendLine, append, modify. cbn [fst snd world].
  destruct (cp_spawn (world s) _ argv) as [r w'].
  destruct r as [code stdout stderr|error]; [|done].
  by destruct code as [[| |]|].
Qed.

Lemma pipOperation_direct (argsOf : PipCommand -> list string) (line : string)
  (s : State) (env : EnvironmentInfo) :
  current_environment s = Some env ->
  fs_access_X (world s) (pipPathOf env) = true ->
  processes
    (snd (try_catch
            (pc <- getPipCommand ;;
             executeCommand (command pc) (argsOf pc) (envPath pc) ;;;
             ret true)
            (fun error => appendLine (line +:+ error_toString error) ;;; ret false)
            s)) =
  processes s ++ [ViaSpawn (pipPathOf env) (argsOf (mkPipCommand (pipPathOf env) [] None))].
Proof.
  intros Hcurrent Hpip. unfold try_catch, bind at 1.
  rewrite (getPipCommand_direct s env Hcurrent Hpip). unfold bind at 1.
  pose proof (processes_executeCommand (pipPathOf env)
                (argsOf (mkPipCommand (pipPathOf env) [] None)) None s) as Hp.
  cbn [command envPath].
  destruct (executeCommand _ _ None s) as [[out|e] s2]; cbn [snd] in Hp; [done|].
  unfold bind, appendLine, append, modify. by cbn [snd processes].
Qed.

(** X6: when an environment is selected and its pip passes the [X_OK]
    check, the pip command is that executable with no argument prefix,
    resolved without a change of state, and installing, uninstalling and
    updating a package each start one process and no other: that
    executable, given the operation and the package.  No interpreter is
    looked for. *)
Theorem selected_pip_runs_alone (s : State) (env : EnvironmentInfo)
  (Hcurrent : current_environment s = Some env)
  (Hpip : fs_access_X (world s) (pipPathOf env) = true) :
  getPipCommand s = (Return (mkPipCommand (pipPathOf env) [] None), s) /\
  (forall name version,
     processes (snd (installPackage name version s)) =
     processes s ++
     [ViaSpawn (pipPathOf env) ["install"; packageSpecOf name version]]) /\
  (forall name,
     processes (snd (uninstallPackage name s)) =
     processes s ++ [ViaSpawn (pipPathOf env) ["uninstall"; "-y"; name]]) /\
  (forall name,
     processes (snd (updatePackage name s)) =
     processes s ++ [ViaSpawn (pipPathOf env) ["install"; "--upgrade"; name]]).
Proof.
  split; [by apply getPipCommand_direct|].
  split; [|split]; intros name; [intros version| |].
  - exact (pipOperation_direct
             (fun pc => args pc ++ ["install"; packageSpecOf name version])
             "Error installing package: " s env Hcurrent Hpip).
  - exact (pipOperation_direct
             (fun pc => args pc ++ ["uninstall"; "-y"; name])
             "Error uninstalling package: " s env Hcurrent Hpip).
  - exact (pipOperation_direct
             (fun pc => args pc ++ ["install"; "--upgrade"; name])
             "Error updating package: " s env Hcurrent Hpip).
Qed.

Lemma processes_mergeLoop pc outdatedMap packagesData :
  forall acc (s : State),
    processes (snd (mergeLoop pc outdatedMap packagesData acc s)) =
    processes s ++ map (fun pkg => showProcess pc (inst_name pkg)) packagesData.
Proof.
  induction packagesData as [|pkg rest IH]; intros acc s; cbn [mergeLoop map].
  - by rewrite app_nil_r.
  - unfold bind.
    assert (Hshow : processes (snd (fetchDescription pc (inst_name pkg) s)) =
                    processes s ++ [showProcess pc (inst_name pkg)]).
    { unfold fetchDescription, try_catch, bind, showProcess.
      pose proof (processes_executeCommand (command pc)
                    (args pc ++ ["show"; inst_name pkg]) (envPath pc) s) as Hp.
      by destruct (executeCommand _ _ _ s) as [[o|e] s1]. }
    destruct (fetchDescription_returns pc (inst_name pkg) s) as (d & s1 & Hd).
    rewrite Hd in Hshow |- *. cbn [snd] in Hshow.
    by rewrite IH, Hshow, <- app_assoc.
Qed.

(** X7: a listing starts one [pip show] process per installed package, in
    the order of the installed list and whether or not the earlier ones
    succeeded, after the two list queries: two processes and one per
    package, once the pip command is resolved. *)
Theorem getInstalledPackages_processes (s : State) pc s1 output s2
  packagesData outdatedOutput s3 outdatedPackages
  (Hpip : getPipCommand s = (Return pc, s1))
  (Hlist : listInstalled pc s1 = (Return output, s2))
  (Hparse : JSON_parse_installed output = Return packagesData)
  (Hout : outdatedOrEmpty pc s2 = (Return outdatedOutput, s3))
  (Hparse' : JSON_parse_outdated outdatedOutput = Return outdatedPackages) :
  processes (snd (getInstalledPackages s)) =
  processes s1 ++
  [ViaSpawn (resolveCmdPath (command pc) (envPath pc))
            (args pc ++ ["list"; "--format=json"]);
   ViaSpawn (resolveCmdPath (command pc) (envPath pc))
            (args pc ++ ["list"; "--outdated"; "--format=json"])] ++
  map (fun pkg => showProcess pc (inst_name pkg)) packagesData.
Proof.
  pose proof (processes_executeCommand (command pc)
                (args pc ++ ["list"; "--format=json"]) (envPath pc) s1) as H2.
  fold (listInstalled pc) in H2. rewrite Hlist in H2. cbn [snd] in H2.
  pose proof (processes_executeCommand (command pc)
                (args pc ++ ["list"; "--outdated"; "--format=json"])
                (envPath pc) s2) as H3.
  fold (listOutdated pc) in H3.
  assert (H3' : processes s3 = processes (snd (listOutdated pc s2))).
  { revert Hout. unfold outdatedOrEmpty, try_catch, ret.
    destruct (listOutdated pc s2) as [[o|e] t]; by intros [= _ ->]. }
  rewrite getInstalledPackages_unfold, Hpip, Hlist, Hparse.
  assert (Hsame : (match listOutdated pc s2 with
                   | (Return o, t) => (o, t)
                   | (Throw _, t) => ("[]", t)
                   end) = (outdatedOutput, s3)).
  { revert Hout. unfold outdatedOrEmpty, try_catch, ret.
    destruct (listOutdated pc s2) as [[o|e] t]; by intros [= -> ->]. }
  rewrite Hsame, Hparse', processes_mergeLoop, H3', H3, H2.
  by rewrite <- !app_assoc.
Qed.







(** A pip operation that runs one command and answers with a boolean
    never throws, and answers true exactly when the pip command was
    resolved and the command succeeded. *)
Lemma pipOperation_result (argsOf : PipCommand -> list string) (line : string)
  (s : State) :
  exists b s',
    try_catch
      (pc <- getPipCommand ;;
       executeCommand (command pc) (argsOf pc) (envPath pc) ;;;
       ret true)
      (fun error => appendLine (line +:+ error_toString error) ;;; ret false) s =
    (Return b, s') /\
    (b = true <->
     exists pc s1 out,
       getPipCommand s = (Return pc, s1) /\
       executeCommand (command pc) (argsOf pc) (envPath pc) s1 = (Return out, s')).
Proof.
  unfold try_catch, bind at 1.
  destruct (getPipCommand s) as [[pc|e] s1].
  - unfold bind at 1.
    destruct (executeCommand (command pc) (argsOf pc) (envPath pc) s1)
      as [[out|e] s2] eqn:Hrun.
    + exists true, s2. split; [done|]. split; [|done]. intros _.
      exists pc, s1, out. by rewrite Hrun.
    + eexists false, _. split; [reflexivity|]. split; [done|].
      intros (pc' & s1' & out & [= <- <-] & Hrun'). rewrite Hrun in Hrun'.
      discriminate.
  - eexists false, _. split; [reflexivity|]. split; [done|].
    intros (pc' & s1' & out & Hpc & _). discriminate.
Qed.

Lemma pip_operation_returns (argsOf : PipCommand -> list string) (line : string)
  (s : State) :
  exists b s',
    try_catch
      (pc <- getPipCommand ;;
       executeCommand (command pc) (argsOf pc) (envPath pc) ;;;
       ret true)
      (fun error => appendLine (line +:+ error_toString error) ;;; ret false) s =
    (Return b, s').
Proof.
  destruct (pipOperation_result argsOf line s) as (b & s' & Hrun & _). eauto.
Qed.

(** X9: [installPackage], [uninstallPackage] and [updatePackage] never
    throw: each answers true when the pip command was resolved and its one
    command (install of the package spec, uninstall -y, install --upgrade)
    succeeded, and false in every other case. *)
Theorem pip_operations_answer (s : State) :
  (forall name version, exists b s',
     installPackage name version s = (Return b, s') /\
     (b = true <->
      exists pc s1 out,
        getPipCommand s = (Return pc, s1) /\
        executeCommand (command pc)
                       (args pc ++ ["install"; packageSpecOf name version])
                       (envPath pc) s1 = (Return out, s'))) /\
  (forall name, exists b s',
     uninstallPackage name s = (Return b, s') /\
     (b = true <->
      exists pc s1 out,
        getPipCommand s = (Return pc, s1) /\
        executeCommand (command pc) (args pc ++ ["uninstall"; "-y"; name])
                       (envPath pc) s1 = (Return out, s'))) /\
  (forall name, exists b s',
     updatePackage name s = (Return b, s') /\
     (b = true <->
      exists pc s1 out,
        getPipCommand s = (Return pc, s1) /\
        executeCommand (command pc) (args pc ++ ["install"; "--upgrade"; name])
                       (envPath pc) s1 = (Return out, s'))).
Proof.
  split; [|split].
  - intros name version.
    apply (pipOperation_result
             (fun pc => args pc ++ ["install"; packageSpecOf name version])).
  - intros name.
    apply (pipOperation_result (fun pc => args pc ++ ["uninstall"; "-y"; name])).
  - intros name.
    apply (pipOperation_result
             (fun pc => args pc ++ ["install"; "--upgrade"; name])).
Qed.

(** X10: a batch of one name is the single update: when [updatePackage]
    answers true, [updatePackages] on the list of that one name reports it
    succeeded, having run the same pip command in the same states, and
    differs only by its line in the channel. *)
Theorem updatePackages_single (name : string) (s s' : State)
  (Hupdated : updatePackage name s = (Return true, s')) :
  updatePackages [name] s =
  (Return (mkUpdateResult [name] []),
   logged ("Successfully updated packages: " +:+ name) s').
Proof.
  rewrite updatePackages_unfold by done. revert Hupdated.
  unfold updatePackage, upgradeAll, try_catch, bind at 1.
  destruct (getPipCommand s) as [[pc|e] s1]; [|discriminate].
  unfold bind at 1. cbn [app].
  change (args pc ++ ["install"; "--upgrade"] ++ [name])
    with (args pc ++ ["install"; "--upgrade"; name]).
  destruct (executeCommand _ _ _ s1) as [[out|e] s2]; [|discriminate].
  by intros [= ->].
Qed.

Lemma selected_permutation names :
  forall oks, length oks = length names ->
    selected true names oks ++ selected false names oks ≡ₚ names.
Proof.
  induction names as [|n names IH]; intros [|ok oks] Hlen; try discriminate;
    [done|].
  injection Hlen as Hlen. specialize (IH oks Hlen).
  destruct ok; cbn [selected Bool.eqb].
  - cbn [app]. by rewrite IH.
  - rewrite <- Permutation_middle. by rewrite IH.
Qed.

(** X11: [updatePackages] never throws, and on every path, the empty
    list, the pip command not resolved, the combined upgrade succeeding
    and the upgrades one by one, the names it reports succeeded followed
    by those it reports failed are a rearrangement of the names it was
    given: none is dropped and none is reported twice. *)
Theorem updatePackages_accounts (packageNames : list string) (s : State) :
  exists r s',
    updatePackages packageNames s = (Return r, s') /\
    success r ++ failed r ≡ₚ packageNames.
Proof.
  destruct packageNames as [|n names]; [by eexists _, _|].
  rewrite updatePackages_unfold by done.
  destruct (getPipCommand s) as [[pc|e] s1].
  - destruct (upgradeAll pc (n :: names) s1) as [[out|e] s2].
    + eexists _, _. split; [reflexivity|]. cbn [success failed]. by rewrite app_nil_r.
    + destruct (updateEach_returns pc (n :: names) [] []
                  (logged ("Batch update failed, falling back to individual updates: "
                           +:+ error_toString e) s2))
        as (oks & s3 & Hind & ->).
      eexists _, _. split; [reflexivity|]. cbn [success failed app].
      apply selected_permutation. by eapply individually_length.
  - eexists _, _. split; [reflexivity|]. cbn [success failed app].
    by rewrite filter_not_included_nil.
Qed.

End PackageOperations.

(** * Creating an environment *)

Section Creation.

Context {W : Type} `{HostW : Host W}.

Local Abbreviation State := (State W).

Lemma execOnly_quiet {A} (m : M A) :
  (forall s : State, processes (snd (m s)) = processes s) -> execOnly m.
Proof. intros Hm s. exists []. by rewrite Hm, app_nil_r. Qed.

Lemma execOnly_bind {A B} (m : M A) (k : A -> M B) :
  execOnly (W := W) m -> (forall a, execOnly (k a)) -> execOnly (bind m k).
Proof.
  intros Hm Hk s. unfold bind. destruct (Hm s) as (p & Hp & Hall).
  destruct (m s) as [[a|e] s1]; cbn [snd] in *; [|eauto].
  destruct (Hk a s1) as (p' & Hp' & Hall').
  exists (p ++ p'). split; [by rewrite Hp', Hp, app_assoc | by apply Forall_app].
Qed.

Lemma execOnly_try_catch {A} (m : M A) (h : JsError -> M A) :
  execOnly (W := W) m -> (forall e, execOnly (h e)) -> execOnly (try_catch m h).
Proof.
  intros Hm Hh s. unfold try_catch. destruct (Hm s) as (p & Hp & Hall).
  destruct (m s) as [[a|e] s1]; cbn [snd] in *; [eauto|].
  destruct (Hh e s1) as (p' & Hp' & Hall').
  exists (p ++ p'). split; [by rewrite Hp', Hp, app_assoc | by apply Forall_app].
Qed.

Lemma execOnly_ret {A} (a : A) : execOnly (W := W) (ret a).
Proof. by apply execOnly_quiet. Qed.

Lemma execOnly_appendLine text : execOnly (W := W) (appendLine text).
Proof. by apply execOnly_quiet. Qed.

Lemma execOnly_testPythonPath pythonPath :
  execOnly (W := W) (testPythonPath pythonPath).
Proof.
  intros s. exists [versionCheck pythonPath].
  split; [apply processes_testPythonPath | by repeat constructor].
Qed.

Lemma execOnly_executeSystemCommand cmdline :
  execOnly (W := W) (executeSystemCommand cmdline).
Proof.
  intros s. exists [ViaExec cmdline]. split; [|by repeat constructor].
  unfold executeSystemCommand. destruct (cp_exec (world s) cmdline) as [r w'].
  destruct (exec_error r) as [error|]; [|done].
  by destruct (truthy (exec_stderr r)).
Qed.

Lemma execOnly_getPythonPath : execOnly (W := W) getPythonPath.
Proof.
  assert (Hpath : forall cmds, execOnly (W := W) (fromPATH cmds)).
  { induction cmds as [|cmd rest IH]; cbn [fromPATH]; [apply execOnly_ret|].
    apply execOnly_bind; [|intros [p|]; [apply execOnly_ret | exact IH]].
    unfold probeCommand. apply execOnly_try_catch.
    - apply execOnly_bind; [apply execOnly_executeSystemCommand|]. intros r.
      destruct (truthy (exec_stdout r)); [|apply execOnly_ret].
      apply execOnly_bind; [apply execOnly_testPythonPath|].
      intros [|]; apply execOnly_ret.
    - intros e. apply execOnly_bind; [apply execOnly_appendLine|].
      intros _. apply execOnly_ret. }
  unfold getPythonPath. apply execOnly_bind.
  - unfold fromExtension. apply execOnly_try_catch.
    + apply execOnly_bind; [by apply execOnly_quiet|]. intros [|];
        [|apply execOnly_ret].
      apply execOnly_bind; [by apply execOnly_quiet|]. intros [p|];
        [|apply execOnly_ret].
      destruct (truthy p); [|apply execOnly_ret].
      apply execOnly_bind; [apply execOnly_testPythonPath|].
      intros [|]; apply execOnly_ret.
    + intros e. apply execOnly_bind; [apply execOnly_appendLine|].
      intros _. apply execOnly_ret.
  - intros [p|]; [apply execOnly_ret|].
    apply execOnly_bind; [apply Hpath|].
    intros [p|]; [apply execOnly_ret | by apply execOnly_quiet].
Qed.

(** X12: when no workspace folder is open once the interpreter has been
    looked for, [createVirtualEnvironment] answers undefined and does not
    throw.  The interpreter is looked for first all the same: the
    processes started are those of that search, all through [cp.exec], and
    the venv module is not run. *)
Theorem createVirtualEnvironment_no_workspace (name : string) (s : State)
  (Hnone : firstWorkspaceFolder (snd (getPythonPath s)) = None) :
  fst (createVirtualEnvironment name s) = Return None /\
  exists started,
    processes (snd (createVirtualEnvironment name s)) = processes s ++ started /\
    processes (snd (getPythonPath s)) = processes s ++ started /\
    Forall (fun p => isViaExec p = true) started.
Proof.
  destruct (execOnly_getPythonPath s) as (started & Hstarted & Hall).
  assert (Hrun : exists s',
            createVirtualEnvironment name s = (Return None, s') /\
            processes s' = processes (snd (getPythonPath s))).
  { unfold createVirtualEnvironment, try_catch, bind at 1.
    destruct (getPythonPath s) as [[p|e] s1]; cbn [snd] in *.
    - unfold bind at 1, gets. rewrite Hnone. eexists. split; reflexivity.
    - eexists. split; reflexivity. }
  destruct Hrun as (s' & -> & Hsame). split; [done|].
  exists started. cbn [snd]. by rewrite Hsame.
Qed.

(** X13: when [createVirtualEnvironment] answers with a record, the
    interpreter was found, the venv module was run on the path of the
    first workspace folder joined with the name and succeeded, and the
    record has that name, that path and [isActive = false].  The record is
    new: it is not among the held records and the current environment is
    as before. *)
Theorem createVirtualEnvironment_created (name : string) (s : State) env s'
  (Hcreated : createVirtualEnvironment name s = (Return (Some env), s')) :
  exists pythonPath s1 folder out,
    getPythonPath s = (Return pythonPath, s1) /\
    firstWorkspaceFolder s1 = Some folder /\
    executeCommand pythonPath ["-m"; "venv"; path_join [folder; name]] None s1 =
    (Return out, s') /\
    env = mkEnvironmentInfo name (path_join [folder; name]) false /\
    heap s' = heap s /\ environments s' = environments s /\
    currentEnv s' = currentEnv s.
Proof.
  pose proof (tidy_createVirtualEnvironment name s) as [(Hh & Hc & He & _) _].
  rewrite Hcreated in Hh, Hc, He. cbn [snd] in Hh, Hc, He.
  revert Hcreated. unfold createVirtualEnvironment, try_catch, bind at 1.
  destruct (getPythonPath s) as [[p|e] s1]; [|discriminate].
  unfold bind at 1, gets.
  destruct (firstWorkspaceFolder s1) as [folder|] eqn:Hfolder; [|discriminate].
  unfold bind at 1.
  destruct (executeCommand p _ None s1) as [[out|e] s2] eqn:Hrun; [|discriminate].
  intros [= <- <-]. exists p, s1, folder, out. by repeat split.
Qed.

End Creation.

(** * More on the selection *)

Section MoreSelection.

Context {W : Type}.

Local Abbreviation State := (State W).

Lemma set_isActive_name b (o : option EnvironmentInfo) :
  env_name <$> (set_isActive b <$> o) = env_name <$> o.
Proof. by destruct o. Qed.

Lemma set_isActive_path b (o : option EnvironmentInfo) :
  env_path <$> (set_isActive b <$> o) = env_path <$> o.
Proof. by destruct o. Qed.

(** What a selection does to each object. *)
Lemma setActiveEnvironment_lookup envName (s : State) k :
  heap (snd (setActiveEnvironment envName s)) !! k =
  match List.find (hasName (heap s) envName) (environments s) with
  | Some l =>
      if decide (l = k) then set_isActive true <$> heap s !! k
      else if decide (k ∈ environments s) then set_isActive false <$> heap s !! k
           else heap s !! k
  | None =>
      if decide (k ∈ environments s) then set_isActive false <$> heap s !! k
      else heap s !! k
  end.
Proof.
  rewrite setActiveEnvironment_run. cbn [snd].
  destruct (List.find _ _) as [l|] eqn:Hfind; cbn [heap].
  - apply find_matches in Hfind as [Hin _].
    rewrite lookup_alter.
    destruct (decide (l = k)) as [->|Hne]; [|apply deactivateAll_lookup].
    rewrite deactivateAll_lookup, decide_True by done. apply set_isActive_twice.
  - apply deactivateAll_lookup.
Qed.

(** X14: [setActiveEnvironment] never throws and writes nothing but
    [isActive] flags, the current environment and the refresh event: every
    object keeps its name and its path, no object appears or disappears,
    the objects that are not held are untouched, the held list is the
    same, and so are the world, the channel, the notifications and the
    trace of processes. *)
Theorem setActiveEnvironment_frame (envName : string) (s : State) :
  let s1 := snd (setActiveEnvironment envName s) in
  fst (setActiveEnvironment envName s) = Return tt /\
  (forall k, env_name <$> heap s1 !! k = env_name <$> heap s !! k /\
             env_path <$> heap s1 !! k = env_path <$> heap s !! k) /\
  dom (heap s1) = dom (heap s) /\
  (forall k, k ∉ environments s -> heap s1 !! k = heap s !! k) /\
  environments s1 = environments s /\
  world s1 = world s /\ channel s1 = channel s /\
  errorMessages s1 = errorMessages s /\ processes s1 = processes s /\
  fired s1 = S (fired s).
Proof.
  intros s1.
  assert (Hfields : forall k,
            env_name <$> heap s1 !! k = env_name <$> heap s !! k /\
            env_path <$> heap s1 !! k = env_path <$> heap s !! k).
  { intros k. subst s1. rewrite setActiveEnvironment_lookup.
    destruct (List.find _ _) as [l|]; repeat case_decide;
      by rewrite ?set_isActive_name, ?set_isActive_path. }
  split; [by rewrite setActiveEnvironment_run|]. split; [exact Hfields|].
  split.
  { apply set_eq. intros k. rewrite !elem_of_dom.
    destruct (Hfields k) as [Hname _].
    destruct (heap s1 !! k), (heap s !! k); simpl in Hname; try discriminate;
      split; intros [? ?]; try discriminate; eauto. }
  split.
  { intros k Hk. subst s1. rewrite setActiveEnvironment_lookup.
    destruct (List.find _ _) as [l|] eqn:Hfind.
    - apply find_matches in Hfind as [Hin _].
      rewrite decide_False by (by intros ->). by rewrite decide_False.
    - by rewrite decide_False. }
  subst s1. rewrite setActiveEnvironment_run.
  by destruct (List.find _ _).
Qed.

(** X15: after [setActiveEnvironment] with a name, [getEnvironmentByName]
    with the same name answers with the record that was selected, which is
    active, has that name and is the current environment, when a held
    record has the name, and with undefined when none has it. *)
Theorem getEnvironmentByName_selected (envName : string) (s : State) :
  let s1 := snd (setActiveEnvironment envName s) in
  match List.find (hasName (heap s) envName) (environments s) with
  | Some l =>
      exists env,
        getEnvironmentByName envName s1 = (Return (Some env), s1) /\
        heap s1 !! l = Some env /\
        currentEnv s1 = Some l /\
        env_name env = envName /\ env_isActive env = true
  | None => getEnvironmentByName envName s1 = (Return None, s1)
  end.
Proof.
  intros s1.
  assert (Hfind1 : List.find (hasName (heap s1) envName) (environments s1) =
                   List.find (hasName (heap s) envName) (environments s)).
  { subst s1. rewrite setActiveEnvironment_run.
    destruct (List.find (hasName (heap s) envName) (environments s)) eqn:Hfind;
      cbn [snd heap environments]; rewrite <- Hfind; apply find_pointwise;
      intros x; by rewrite ?hasName_alter, hasName_deactivateAll. }
  unfold getEnvironmentByName, gets. rewrite Hfind1.
  pose proof (setActiveEnvironment_lookup envName s) as Hlookup. fold s1 in Hlookup.
  destruct (List.find (hasName (heap s) envName) (environments s)) as [l|] eqn:Hfind;
    [|done].
  assert (Hcur : currentEnv s1 = Some l).
  { subst s1. by rewrite setActiveEnvironment_run, Hfind. }
  apply find_matches in Hfind as [Hin Hname]. unfold hasName in Hname.
  specialize (Hlookup l). rewrite decide_True in Hlookup by done.
  destruct (heap s !! l) as [env|] eqn:Hl; [|done].
  exists (set_isActive true env). cbn [mbind option_bind].
  rewrite Hlookup. cbn [fmap option_fmap option_map].
  split; [done|]. split; [done|]. split; [done|].
  split; [by apply String.eqb_eq | done].
Qed.

End MoreSelection.

(** * Searching *)

Section Searching.

Context {W : Type} `{HostW : Host W} `{DesktopW : Desktop W}.

Local Abbreviation State := (State W).
Local Abbreviation Session := (Session W).






End Searching.

Section SearchScript.

Context {W : Type} `{HostW : Host W} `{DesktopW : Desktop W}.

Local Abbreviation State := (State W).
Local Abbreviation Session := (Session W).

Lemma getPipCommand_envPath (s : State) pc s' :
  getPipCommand s = (Return pc, s') -> envPath pc = None.
Proof.
  unfold getPipCommand, bind. rewrite fromCurrentEnv_unfold.
  destruct (current_environment s) as [env|].
  - unfold try_catch, bind at 1, access_X.
    destruct (fs_access_X (world s) (pipPathOf env)).
    + by intros [= <- _].
    + cbn [bind ret appendLine append modify].
      destruct (getPythonPath _) as [[p|e] s1]; [|discriminate].
      by intros [= <- _].
  - destruct (getPythonPath s) as [[p|e] s1]; [|discriminate].
    by intros [= <- _].
Qed.

Lemma basicSearch_grows query (u : Session) :
  grows (executor u) (executor (snd (basicSearch query u))).
Proof.
  unfold basicSearch, utry, ubind at 1, run at 1.
  pose proof (tidy_getPipCommand (executor u)) as [_ H1].
  destruct (getPipCommand (executor u)) as [[pc|e] s1]; cbn [snd] in H1.
  - unfold ubind at 1, run at 1. cbn [executor set_executor].
    pose proof (tidy_executeCommand (command pc) (args pc ++ ["list"]) (envPath pc) s1)
      as [_ H2].
    destruct (executeCommand _ _ _ s1) as [[output|e] s2]; cbn [snd] in H2.
    + cbn [snd uret executor set_executor]. by eapply grows_trans.
    + unfold ubind, run. cbn [snd executor set_executor].
      eapply grows_trans; [exact H1|]. eapply grows_trans; [exact H2|].
      apply (tidy_appendLine _ s2).
  - unfold ubind, run. cbn [snd executor set_executor].
    eapply grows_trans; [exact H1|]. apply (tidy_appendLine _ s1).
Qed.

(** X17: [searchPackages] gives the script it has written to the pip
    command, not to the interpreter: once the pip command is resolved and
    the script written, the next process started is that command with its
    argument prefix followed by the path of the script and the query, so
    with the prefix -m pip the path of the script is an argument of the
    pip module. *)
Theorem searchPackages_script_argv (query : string) (u : Session) pc s1 s2
  (Hpip : getPipCommand (executor u) = (Return pc, s1))
  (Hwrite : writeFile (path_join [os_tmpdir (world s1); "piping_search.py"])
                      scriptContent s1 = (Return tt, s2)) :
  exists later,
    processes (executor (snd (searchPackages query u))) =
    processes s1 ++
    [ViaSpawn (command pc)
              (args pc ++ [path_join [os_tmpdir (world s1); "piping_search.py"];
                           query])] ++ later.
Proof.
  assert (Hs2 : processes s2 = processes s1).
  { revert Hwrite. unfold writeFile.
    destruct (fs_writeFile _ _ _) as [[e|] w']; [discriminate|].
    by intros [= <-]. }
  pose proof (getPipCommand_envPath _ _ _ Hpip) as Henv.
  unfold searchPackages, utry.
  unfold ubind at 1, run at 1. rewrite Hpip.
  unfold ubind at 1, ugets. cbn [executor set_executor].
  unfold ubind at 1, run at 1. cbn [executor set_executor]. rewrite Hwrite.
  unfold ubind at 1, run at 1. cbn [executor set_executor].
  pose proof (processes_executeCommand (command pc)
                (args pc ++ [path_join [os_tmpdir (world s1); "piping_search.py"];
                             query]) (envPath pc) s2) as Hp.
  rewrite Henv in Hp at 2. cbn [resolveCmdPath] in Hp. rewrite Hs2 in Hp.
  destruct (executeCommand _ _ _ s2) as [[output|e] s3]; cbn [snd] in Hp.
  - unfold parseSearchOutput, utry, ubind at 1, run at 1, lift.
    cbn [executor set_executor].
    destruct (JSON_parse_search output) as [[message|hits]|e].
    + destruct (truthy message).
      * unfold uthrow, ubind at 1, run at 1, appendLine, append, modify.
        cbn [executor set_executor]. unfold ubind at 1, showWarningMessage, umodify.
        match goal with
        | |- context [basicSearch query ?v] =>
            destruct (basicSearch_grows query v) as (_ & _ & [later Hlater])
        end.
        exists later. rewrite Hlater. cbn [executor processes set_executor].
        by rewrite Hp, <- app_assoc.
      * exists []. cbn [snd uret executor set_executor]. by rewrite Hp.
    + exists []. cbn [snd uret executor set_executor]. by rewrite Hp.
    + unfold uthrow, ubind at 1, run at 1, appendLine, append, modify.
      cbn [executor set_executor]. unfold ubind at 1, showWarningMessage, umodify.
      match goal with
      | |- context [basicSearch query ?v] =>
          destruct (basicSearch_grows query v) as (_ & _ & [later Hlater])
      end.
      exists later. rewrite Hlater. cbn [executor processes set_executor].
        by rewrite Hp, <- app_assoc.
  - unfold ubind at 1, run at 1, appendLine, append, modify.
    cbn [executor set_executor]. unfold ubind at 1, showWarningMessage, umodify.
    match goal with
    | |- context [basicSearch query ?v] =>
        destruct (basicSearch_grows query v) as (_ & _ & [later Hlater])
    end.
    exists later. rewrite Hlater. cbn [executor processes set_executor].
        by rewrite Hp, <- app_assoc.
Qed.

End SearchScript.

(** * Sorting a view *)

Section Sorting.

Context {A : Type}.

Lemma sort_insert_permutation (compare : A -> A -> Z) x (l : list A) :
  sort_insert compare x l ≡ₚ x :: l.
Proof.
  induction l as [|y l IH]; cbn [sort_insert]; [done|].
  destruct (0 <? compare y x)%Z; [done|]. rewrite IH. apply Permutation_swap.
Qed.

Lemma array_sort_permutation (compare : A -> A -> Z) (l : list A) :
  array_sort compare l ≡ₚ l.
Proof.
  unfold array_sort.
  assert (H : forall sorted, foldl (fun sorted x => sort_insert compare x sorted)
                                   sorted l ≡ₚ sorted ++ l).
  { induction l as [|x l IH]; intros sorted; cbn [foldl];
      [by rewrite app_nil_r|].
    rewrite IH, sort_insert_permutation. cbn [app]. apply Permutation_middle. }
  apply H.
Qed.

(** Insertion keeps the flagged elements first, when [compare] puts a
    flagged element before an unflagged one; [P] is where [compare] is
    known to do so. *)
Lemma flaggedFirst_insert (P : A -> Prop) (f : A -> bool)
      (compare : A -> A -> Z) x (l : list A) :
  (forall a b, P a -> P b -> f b = true -> f a = false -> (0 < compare a b)%Z) ->
  (forall a b, P a -> P b -> f b = false -> f a = true -> ~ (0 < compare a b)%Z) ->
  P x -> Forall P l ->
  flaggedFirst f l -> flaggedFirst f (sort_insert compare x l).
Proof.
  intros Hfront Hback Px. induction l as [|y l IH]; cbn [sort_insert flaggedFirst].
  - intros _ _. split; [|done]. right. constructor.
  - intros [Py Pl]%Forall_cons [Hy Hl].
    destruct (Z.ltb_spec 0 (compare y x)) as [Hlt|Hle].
    + cbn [flaggedFirst]. split; [|done].
      destruct (f x) eqn:Hx; [by left|]. right.
      destruct (f y) eqn:Hfy; [by destruct (Hback y x)|].
      constructor; [done|]. by destruct Hy.
    + cbn [flaggedFirst]. split; [|by apply IH].
      destruct (f y) eqn:Hfy; [by left|]. right.
      destruct Hy as [?|Hrest]; [done|].
      rewrite sort_insert_permutation. constructor; [|done].
      destruct (f x) eqn:Hx; [|done].
      specialize (Hfront y x Py Px Hx Hfy). lia.
Qed.

Lemma flaggedFirst_sort (P : A -> Prop) (f : A -> bool)
      (compare : A -> A -> Z) (l : list A) :
  (forall a b, P a -> P b -> f b = true -> f a = false -> (0 < compare a b)%Z) ->
  (forall a b, P a -> P b -> f b = false -> f a = true -> ~ (0 < compare a b)%Z) ->
  Forall P l ->
  flaggedFirst f (array_sort compare l).
Proof.
  intros Hfront Hback. unfold array_sort.
  assert (H : forall sorted, Forall P sorted -> Forall P l ->
                flaggedFirst f sorted ->
                flaggedFirst f (foldl (fun sorted x => sort_insert compare x sorted)
                                      sorted l)).
  { induction l as [|x l IH]; intros sorted Ps Pl Hs; cbn [foldl]; [done|].
    apply Forall_cons in Pl as [Px Pl]. apply IH; [|done|].
    - rewrite sort_insert_permutation. by constructor.
    - by eapply flaggedFirst_insert. }
  intros Pl. by apply H.
Qed.

End Sorting.

(** * The package view *)

Section PackageView.

Context {W : Type} `{HostW : Host W} `{DesktopW : Desktop W}.

Local Abbreviation State := (State W).
Local Abbreviation Session := (Session W).

Import PipingPackageProvider.




End PackageView.

(** * The environment view *)

Section EnvironmentView.

Context {W : Type} `{HostW : Host W} `{DesktopW : Desktop W}.

Local Abbreviation State := (State W).
Local Abbreviation Session := (Session W).

Import PipingEnvironmentProvider.

(** The new objects: distinct, not in the heap before, holding the given
    records in order; the objects of before are untouched. *)
Lemma allocateAll_fresh envs :
  forall s : State,
  exists locs h',
    allocateAll envs s = (Return locs, set_heap h' s) /\
    NoDup locs /\
    (forall l, l ∈ locs -> l ∉ dom (heap s)) /\
    (forall k, k ∈ dom (heap s) -> h' !! k = heap s !! k) /\
    Forall2 (fun l e => h' !! l = Some e) locs envs.
Proof.
  induction envs as [|env rest IH]; intros s; cbn [allocateAll].
  - exists [], (heap s). split; [by destruct s|].
    split; [constructor|]. split; [by intros l ?%elem_of_nil|]. by split.
  - unfold bind at 1, allocate.
    set (l := fresh (dom (heap s))).
    assert (Hl : l ∉ dom (heap s)) by apply is_fresh.
    destruct (IH (set_heap (<[l := env]> (heap s)) s))
      as (locs & h' & Hrun & Hnd & Hnew & Hold & Hall).
    cbn [heap set_heap] in Hnew, Hold.
    unfold bind at 1. rewrite Hrun. exists (l :: locs), h'.
    split; [reflexivity|].
    assert (Hlocs : l ∉ locs).
    { intros Hin. apply (Hnew l Hin). rewrite dom_insert. set_solver. }
    split; [by constructor|]. split.
    { intros k [->|Hk]%elem_of_cons; [done|].
      intros Hdom. apply (Hnew k Hk). rewrite dom_insert. set_solver. }
    split.
    { intros k Hk. rewrite Hold by (rewrite dom_insert; set_solver).
      apply lookup_insert_ne. by intros ->. }
    constructor; [|done].
    rewrite Hold by (rewrite dom_insert; set_solver). apply lookup_insert_eq.
Qed.

(** The scan leaves the state as it was, and flags a record exactly when
    its path is that of the current environment. *)
Lemma getVirtualEnvironments_flags (s : State) :
  getVirtualEnvironments s = (Return (fst_list (getVirtualEnvironments s)), s) /\
  Forall (fun e => env_isActive e = isCurrentPath s (env_path e))
         (fst_list (getVirtualEnvironments s)).
Proof.
  unfold fst_list, getVirtualEnvironments, bind, gets.
  destruct (workspaceFolders (world s)) as [folders|]; [|by split].
  rewrite scanFolders_emitted. cbn [fst app]. split; [done|].
  apply Forall_forall. intros e.
  rewrite list_elem_of_In, in_flat_map. intros (folder & _ & He).
  apply in_flat_map in He as (envName & _ & He). unfold emitted in He.
  destruct (isEnvironment _ _); [|by destruct He]. by destruct He as [<-|[]].
Qed.

(** The control flow of [getChildren] at the root: its [catch] is never
    entered. *)
Lemma environment_getChildren_spec (u : Session) :
  exists locs h',
    getChildren None u =
    (Return (itemsOf h' (array_sort (compareAt h') locs)),
     set_executor (set_environments (array_sort (compareAt h') locs)
                                    (set_heap h' (executor u))) u) /\
    NoDup locs /\
    (forall l, l ∈ locs -> l ∉ dom (heap (executor u))) /\
    (forall k, k ∈ dom (heap (executor u)) -> h' !! k = heap (executor u) !! k) /\
    Forall2 (fun l e => h' !! l = Some e) locs
            (fst_list (getVirtualEnvironments (executor u))).
Proof.
  destruct (getVirtualEnvironments_flags (executor u)) as [Hscan _].
  destruct (allocateAll_fresh (fst_list (getVirtualEnvironments (executor u)))
                              (executor u))
    as (locs & h' & Hrun & Hnd & Hnew & Hold & Hall).
  exists locs, h'. split; [|done].
  unfold getChildren, utry, ubind at 1, run at 1, bind at 1.
  rewrite Hscan, Hrun. reflexivity.
Qed.

Lemma omap_lookup_all (h : gmap loc EnvironmentInfo) locs envs :
  Forall2 (fun l e => h !! l = Some e) locs envs ->
  omap (fun l => h !! l) locs = envs.
Proof.
  induction 1 as [|l e locs envs Hl _ IH]; cbn [omap list_omap]; [done|].
  by rewrite Hl, IH.
Qed.

Lemma omap_lookup_permutation (h : gmap loc EnvironmentInfo) (l1 l2 : list loc) :
  l1 ≡ₚ l2 -> omap (fun l => h !! l) l1 ≡ₚ omap (fun l => h !! l) l2.
Proof.
  intros Hperm. induction Hperm as [|x l1 l2 _ IH|x y l|l1 l2 l3 _ IH1 _ IH2];
    cbn [omap list_omap].
  - done.
  - destruct (h !! x); [by constructor | done].
  - destruct (h !! x), (h !! y); try done. apply Permutation_swap.
  - by etrans.
Qed.

(** X20: at the root, the environment view throws nothing and holds new
    objects: the held records are distinct, none of them was in the heap
    before, the objects of before are untouched and the current
    environment is not reassigned, so that the object it refers to is no
    longer one of the held records.  The records held are those the scan
    returned, rearranged, and each item shows the record of the same
    position. *)
Theorem environment_getChildren_fresh (u : Session) :
  exists items u',
    getChildren None u = (Return items, u') /\
    map envInfo items = environments (executor u') /\
    NoDup (environments (executor u')) /\
    (forall l, l ∈ environments (executor u') -> l ∉ dom (heap (executor u))) /\
    (forall k, k ∈ dom (heap (executor u)) ->
               heap (executor u') !! k = heap (executor u) !! k) /\
    currentEnv (executor u') = currentEnv (executor u) /\
    heldRecords (executor u') ≡ₚ fst_list (getVirtualEnvironments (executor u)).
Proof.
  destruct (environment_getChildren_spec u)
    as (locs & h' & -> & Hnd & Hnew & Hold & Hall).
  eexists _, _. split; [reflexivity|].
  cbn [executor set_executor environments set_environments heap set_heap currentEnv].
  pose proof (array_sort_permutation (compareAt h') locs) as Hperm.
  assert (Hvalid : forall l, l ∈ array_sort (compareAt h') locs -> is_Some (h' !! l)).
  { intros l Hl. rewrite Hperm in Hl. apply list_elem_of_lookup in Hl as [i Hi].
    destruct (Forall2_lookup_l _ _ _ _ _ Hall Hi) as (e & _ & He). by exists e. }
  split.
  { unfold itemsOf. revert Hvalid. generalize (array_sort (compareAt h') locs).
    intros l Hvalid. induction l as [|x l IH]; [done|]. cbn [omap list_omap].
    destruct (Hvalid x) as [e He]; [by left|]. rewrite He. cbn [fmap option_fmap option_map map].
    rewrite IH by (intros y Hy; apply Hvalid; by right).
    f_equal. unfold newEnvironmentTreeItem. by destruct (env_isActive e). }
  split; [by rewrite Hperm|].
  split; [intros l Hl; apply Hnew; by rewrite <- Hperm|].
  split; [exact Hold|]. split; [done|].
  unfold heldRecords. cbn [heap environments set_environments set_heap].
  etrans; [apply omap_lookup_permutation, Hperm|].
  by rewrite (omap_lookup_all _ _ _ Hall).
Qed.

(** X21: after the environment view has been filled, a held record is
    flagged active exactly when its path is the path of the current
    environment as it was when the view was filled; with no current
    environment none is flagged.  The flags are read off the current
    environment, not carried over from the records held before. *)
Theorem environment_getChildren_flags (u : Session) :
  let u' := snd (getChildren None u) in
  forall l env,
    l ∈ environments (executor u') ->
    heap (executor u') !! l = Some env ->
    env_isActive env = isCurrentPath (executor u) (env_path env).
Proof.
  destruct (environment_getChildren_spec u)
    as (locs & h' & -> & Hnd & Hnew & Hold & Hall).
  cbn [snd executor set_executor environments set_environments heap set_heap].
  intros l env Hl Hlookup.
  rewrite array_sort_permutation in Hl. apply list_elem_of_lookup in Hl as [i Hi].
  destruct (Forall2_lookup_l _ _ _ _ _ Hall Hi) as (e & He & Hle).
  rewrite Hlookup in Hle. injection Hle as ->.
  destruct (getVirtualEnvironments_flags (executor u)) as [_ Hflags].
  rewrite Forall_forall in Hflags. apply Hflags.
  apply list_elem_of_lookup. eauto.
Qed.

(** X22: the environment view shows the active records first: in the held
    list no record that is not active comes before one that is. *)
Theorem environment_getChildren_active_first (u : Session) :
  let u' := snd (getChildren None u) in
  flaggedFirst (isActiveAt (heap (executor u'))) (environments (executor u')).
Proof.
  destruct (environment_getChildren_spec u)
    as (locs & h' & -> & Hnd & Hnew & Hold & Hall).
  cbn [snd executor set_executor environments set_environments heap set_heap].
  apply (flaggedFirst_sort (fun l => is_Some (h' !! l))).
  - intros a b [x Hx] [y Hy]. unfold isActiveAt, compareAt, compareEnvironments.
    rewrite Hx, Hy. intros -> ->. cbn. lia.
  - intros a b [x Hx] [y Hy]. unfold isActiveAt, compareAt, compareEnvironments.
    rewrite Hx, Hy. intros -> ->. cbn. lia.
  - apply Forall_forall. intros l Hl. apply list_elem_of_lookup in Hl as [i Hi].
    destruct (Forall2_lookup_l _ _ _ _ _ Hall Hi) as (e & _ & He). by exists e.
Qed.

(** X23: the selection survives a rescan.  After [setActiveEnvironment]
    has selected a held record, filling the view again leaves the current
    environment on the object that was selected, and flags exactly the new
    records whose path is the path of that object. *)
Theorem selection_survives_rescan (envName : string) (u : Session) l env0
  (Hmatch : List.find (hasName (heap (executor u)) envName)
                      (environments (executor u)) = Some l)
  (Hrecord : heap (executor u) !! l = Some env0) :
  let u1 := snd (run (setActiveEnvironment envName) u) in
  let u2 := snd (getChildren None u1) in
  currentEnv (executor u2) = Some l /\
  (env_path <$> heap (executor u2) !! l) = Some (env_path env0) /\
  forall k env,
    k ∈ environments (executor u2) ->
    heap (executor u2) !! k = Some env ->
    env_isActive env = String.eqb (env_path env0) (env_path env).
Proof.
  intros u1 u2.
  assert (Hs1 : executor u1 = snd (setActiveEnvironment envName (executor u))).
  { subst u1. unfold run. by destruct (setActiveEnvironment envName (executor u)). }
  assert (Hcur1 : currentEnv (executor u1) = Some l).
  { by rewrite Hs1, setActiveEnvironment_run, Hmatch. }
  assert (Hl1 : heap (executor u1) !! l = Some (set_isActive true env0)).
  { rewrite Hs1, setActiveEnvironment_lookup, Hmatch, decide_True by done.
    by rewrite Hrecord. }
  assert (Hpath1 : forall p, isCurrentPath (executor u1) p =
                             String.eqb (env_path env0) p).
  { intros p. unfold isCurrentPath, current_environment.
    rewrite Hcur1. cbn [mbind option_bind]. by rewrite Hl1. }
  pose proof (environment_getChildren_spec u1)
    as (locs & h' & Hrun & Hnd & Hnew & Hold & Hall).
  destruct (getVirtualEnvironments_flags (executor u1)) as [_ Hflags].
  subst u2. rewrite Hrun.
  cbn [snd executor set_executor environments set_environments heap set_heap
       currentEnv].
  split; [done|]. split.
  { rewrite Hold by (apply elem_of_dom; by rewrite Hl1). by rewrite Hl1. }
  intros k env Hk Hlookup.
  rewrite array_sort_permutation in Hk. apply list_elem_of_lookup in Hk as [i Hi].
  destruct (Forall2_lookup_l _ _ _ _ _ Hall Hi) as (e & He & Hle).
  rewrite Hlookup in Hle. injection Hle as ->.
  rewrite Forall_forall in Hflags. rewrite <- Hpath1. apply Hflags.
  apply list_elem_of_lookup. eauto.
Qed.

End EnvironmentView.

(** * The commands *)

Section CommandProperties.

Context {W : Type} `{HostW : Host W} `{DesktopW : Desktop W}.

Local Abbreviation State := (State W).
Local Abbreviation Session := (Session W).

Import PipingPackageProvider PipingEnvironmentProvider.

(** The held records that are active after a selection. *)
Lemma activeRecords_after_selection envName (s : State) :
  activeRecords (snd (setActiveEnvironment envName s)) =
  match List.find (hasName (heap s) envName) (environments s) with
  | Some l => {[ l ]}
  | None => ∅
  end.
Proof.
  assert (Henvs : environments (snd (setActiveEnvironment envName s)) =
                  environments s).
  { rewrite setActiveEnvironment_run. by destruct (List.find _ _). }
  apply set_eq. intros k. rewrite elem_of_activeRecords, Henvs.
  unfold isActiveAt. rewrite setActiveEnvironment_lookup.
  destruct (List.find (hasName (heap s) envName) (environments s)) as [l|] eqn:Hfind.
  - apply find_matches in Hfind as [Hin Hname]. unfold hasName in Hname.
    rewrite elem_of_singleton. split.
    + intros [Hk Hact]. destruct (decide (l = k)) as [->|Hne]; [done|].
      rewrite decide_True in Hact by done. by destruct (heap s !! k).
    + intros ->. split; [done|]. rewrite decide_True by done.
      by destruct (heap s !! l).
  - rewrite elem_of_empty. split; [|done]. intros [Hk Hact].
    rewrite decide_True in Hact by done. by destruct (heap s !! k).
Qed.

Lemma run_setActiveEnvironment envName (u : Session) :
  run (setActiveEnvironment envName) u =
  (Return tt, set_executor (snd (setActiveEnvironment envName (executor u))) u).
Proof. unfold run. by rewrite setActiveEnvironment_run. Qed.

(** X24: switching to an item that is not active selects by name: the
    record that becomes active and current is the first held record with
    the name of the item, which is the record of the item only when no
    held record before it has the same name.  The package view is told to
    refresh and the switch is announced with that name. *)
Theorem switchEnvironment_selects_by_name (u : Session)
  (item : EnvironmentTreeItem) (env : EnvironmentInfo) (first : loc)
  (Hitem : heap (executor u) !! envInfo item = Some env)
  (Hinactive : env_isActive env = false)
  (Hfirst : List.find (hasName (heap (executor u)) (env_name env))
                      (environments (executor u)) = Some first) :
  exists u',
    PipingCommandManager.switchEnvironment (Some item) u = (Return tt, u') /\
    activeRecords (executor u') = {[ first ]} /\
    currentEnv (executor u') = Some first /\
    packagesFired u' = S (packagesFired u) /\
    informationMessages u' =
    informationMessages u ++
    ["Switched to environment '" +:+ env_name env +:+ "'"].
Proof.
  unfold PipingCommandManager.switchEnvironment, ubind at 1, ugets.
  cbn [mbind option_bind]. unfold PipingCommandManager.envInfoOf.
  rewrite Hitem, Hinactive. unfold ubind at 1. rewrite run_setActiveEnvironment.
  eexists. split; [reflexivity|].
  cbn [executor set_executor packagesFired informationMessages].
  rewrite activeRecords_after_selection, Hfirst.
  split; [done|]. split; [|done]. by rewrite setActiveEnvironment_run, Hfirst.
Qed.

(** X25: switching without an item selects the empty name: when no held
    record has it, every held record is deactivated and the current
    environment stays as it was, and the command still tells the package
    view to refresh and announces a switch, to the environment of the
    empty name. *)
Theorem switchEnvironment_without_item (u : Session)
  (Hunnamed : List.find (hasName (heap (executor u)) EmptyString)
                        (environments (executor u)) = None) :
  exists u',
    PipingCommandManager.switchEnvironment None u = (Return tt, u') /\
    activeRecords (executor u') = ∅ /\
    currentEnv (executor u') = currentEnv (executor u) /\
    packagesFired u' = S (packagesFired u) /\
    informationMessages u' =
    informationMessages u ++ ["Switched to environment ''"].
Proof.
  unfold PipingCommandManager.switchEnvironment, ubind at 1, ugets.
  cbn [mbind option_bind]. unfold ubind at 1. rewrite run_setActiveEnvironment.
  eexists. split; [reflexivity|].
  cbn [executor set_executor packagesFired informationMessages].
  rewrite activeRecords_after_selection, Hunnamed.
  split; [done|]. split; [|done]. by rewrite setActiveEnvironment_run, Hunnamed.
Qed.

(** Switching to the item of a record that is active changes nothing:
    the one effect is the notification that the environment is already
    active. *)
Lemma switchEnvironment_already_active (u : Session)
  (item : EnvironmentTreeItem) (env : EnvironmentInfo)
  (Hitem : heap (executor u) !! envInfo item = Some env)
  (Hactive : env_isActive env = true) :
  PipingCommandManager.switchEnvironment (Some item) u =
  (Return tt,
   mkSession (executor u) (heldPackages u) (packagesFired u)
             (informationMessages u ++
              ["Environment '" +:+ env_name env +:+ "' is already active"])
             (warningMessages u) (consoleErrors u)).
Proof.
  unfold PipingCommandManager.switchEnvironment, ubind at 1, ugets.
  cbn [mbind option_bind]. unfold PipingCommandManager.envInfoOf.
  by rewrite Hitem, Hactive.
Qed.

(** X26: run without an item, the uninstall and the update command ask
    for a name and look it up, and then do not use it: the operation of
    the executor is called with the empty name.  The world and the
    processes started are those of uninstalling, or updating, the package
    of the empty name, whatever was typed. *)
Theorem commands_discard_typed_name (u : Session) (typed : string) pkg
  (Htyped : truthy typed = true)
  (Hheld : List.find (fun p => String.eqb (pkg_name p) typed) (heldPackages u) =
           Some pkg) :
  (world (executor (snd (PipingCommandManager.uninstallPackage
                           None (Some typed) (Some "Yes") u))) =
   world (snd (uninstallPackage EmptyString (executor u))) /\
   processes (executor (snd (PipingCommandManager.uninstallPackage
                               None (Some typed) (Some "Yes") u))) =
   processes (snd (uninstallPackage EmptyString (executor u)))) /\
  (world (executor (snd (PipingCommandManager.updatePackage None (Some typed) u))) =
   world (snd (updatePackage EmptyString (executor u))) /\
   processes (executor (snd (PipingCommandManager.updatePackage
                               None (Some typed) u))) =
   processes (snd (updatePackage EmptyString (executor u)))).
Proof.
  assert (Hask : PipingCommandManager.askForPackage (Some typed) u = (Return true, u)).
  { unfold PipingCommandManager.askForPackage. rewrite Htyped.
    unfold ubind, getPackageByName, ugets. by rewrite Hheld. }
  split.
  - remember (PipingCommandManager.uninstallPackage
                None (Some typed) (Some "Yes") u) as r eqn:Hr.
    unfold PipingCommandManager.uninstallPackage, ubind at 1 in Hr.
    rewrite Hask in Hr.
    unfold ubind at 1, showWarningMessage, umodify in Hr.
    unfold PipingCommandManager.nameOfItem, utry, ubind at 1, run at 1 in Hr.
    cbn [executor set_executor] in Hr.
    destruct (pip_operation_returns
                (fun pc => args pc ++ ["uninstall"; "-y"; EmptyString])
                "Error uninstalling package: " (executor u)) as (b & s' & Hrun).
    fold (uninstallPackage EmptyString) in Hrun. rewrite Hrun in Hr |- *.
    by destruct b; subst r.
  - remember (PipingCommandManager.updatePackage None (Some typed) u) as r eqn:Hr.
    unfold PipingCommandManager.updatePackage, ubind at 1 in Hr.
    rewrite Hask in Hr.
    unfold PipingCommandManager.nameOfItem, utry, ubind at 1, run at 1 in Hr.
    destruct (pip_operation_returns
                (fun pc => args pc ++ ["install"; "--upgrade"; EmptyString])
                "Error updating package: " (executor u)) as (b & s' & Hrun).
    fold (updatePackage EmptyString) in Hrun. rewrite Hrun in Hr |- *.
    by destruct b; subst r.
Qed.





End CommandProperties.

(** * The properties above on the examples *)

Lemma selected_pip_runs_alone_witness :
  current_environment (Fixture.selected_venv Fixture.venv_with_pip) =
  Some Fixture.venv /\
  fs_access_X (world (Fixture.selected_venv Fixture.venv_with_pip))
              (pipPathOf Fixture.venv) = true /\
  processes (snd (installPackage "requests" (Some "2.28.1")
                                 (Fixture.selected_venv Fixture.venv_with_pip))) =
  [ViaSpawn "/proj/venv/bin/pip" ["install"; "requests==2.28.1"]].
Proof.
  assert (Hcurrent : current_environment (Fixture.selected_venv Fixture.venv_with_pip) =
                     Some Fixture.venv) by (vm_compute; reflexivity).
  assert (Hpip : fs_access_X (world (Fixture.selected_venv Fixture.venv_with_pip))
                             (pipPathOf Fixture.venv) = true)
    by (vm_compute; reflexivity).
  split; [exact Hcurrent|]. split; [exact Hpip|].
  destruct (selected_pip_runs_alone _ _ Hcurrent Hpip) as (_ & Hinstall & _).
  exact (Hinstall "requests" (Some "2.28.1")).
Defined.

Lemma getPipCommand_verbatim_witness :
  getPipCommand (Fixture.initial (Fixture.machine [])) =
  (Return Fixture.python3_pip, Fixture.after_pip (Fixture.machine [])) /\
  envPath Fixture.python3_pip = None /\
  (args Fixture.python3_pip = [] \/ args Fixture.python3_pip = ["-m"; "pip"]) /\
  resolveCmdPath (command Fixture.python3_pip) (envPath Fixture.python3_pip) =
  command Fixture.python3_pip.
Proof.
  assert (Hpc : getPipCommand (Fixture.initial (Fixture.machine [])) =
                (Return Fixture.python3_pip, Fixture.after_pip (Fixture.machine [])))
    by (vm_compute; reflexivity).
  exact (conj Hpc (getPipCommand_verbatim _ _ _ Hpc)).
Defined.

Lemma getPythonPath_validated_witness :
  getPythonPath (Fixture.initial (Fixture.machine [])) =
  (Return "/usr/bin/python3", snd (getPythonPath (Fixture.initial (Fixture.machine [])))) /\
  exists s0,
    grows (Fixture.initial (Fixture.machine [])) s0 /\
    testPythonPath "/usr/bin/python3" s0 =
    (Return true, snd (getPythonPath (Fixture.initial (Fixture.machine [])))) /\
    exists started,
      processes (snd (getPythonPath (Fixture.initial (Fixture.machine [])))) =
      processes (Fixture.initial (Fixture.machine [])) ++ started ++
      [versionCheck "/usr/bin/python3"].
Proof.
  assert (Hpath : getPythonPath (Fixture.initial (Fixture.machine [])) =
                  (Return "/usr/bin/python3",
                   snd (getPythonPath (Fixture.initial (Fixture.machine [])))))
    by (vm_compute; reflexivity).
  exact (conj Hpath (getPythonPath_validated _ _ _ Hpath)).
Defined.

Lemma interpreter_ignores_selection_witness :
  world (Fixture.initial (Fixture.machine [])) =
  world (Fixture.selected_venv (Fixture.machine [])) /\
  fst (getPythonPath (Fixture.initial (Fixture.machine []))) =
  fst (getPythonPath (Fixture.selected_venv (Fixture.machine []))).
Proof.
  assert (Hworld : world (Fixture.initial (Fixture.machine [])) =
                   world (Fixture.selected_venv (Fixture.machine [])))
    by reflexivity.
  split; [exact Hworld|].
  exact (proj1 (proj1 (interpreter_ignores_selection _ _ Hworld))).
Defined.

Lemma getInstalledPackages_processes_witness :
  getPipCommand (Fixture.initial (Fixture.requests_with_latest "2.31.0")) =
  (Return Fixture.python3_pip,
   Fixture.after_pip (Fixture.requests_with_latest "2.31.0")) /\
  listInstalled Fixture.python3_pip
                (Fixture.after_pip (Fixture.requests_with_latest "2.31.0")) =
  (Return (Fixture.render_installed [Fixture.requests]),
   Fixture.after_list (Fixture.requests_with_latest "2.31.0")) /\
  outdatedOrEmpty Fixture.python3_pip
                  (Fixture.after_list (Fixture.requests_with_latest "2.31.0")) =
  (Return (Fixture.render_outdated (Fixture.requestsOutdated "2.31.0")),
   Fixture.after_outdated (Fixture.requests_with_latest "2.31.0")) /\
  processes (snd (getInstalledPackages
                    (Fixture.initial (Fixture.requests_with_latest "2.31.0")))) =
  processes (Fixture.after_pip (Fixture.requests_with_latest "2.31.0")) ++
  [ViaSpawn "/usr/bin/python3" ["-m"; "pip"; "list"; "--format=json"];
   ViaSpawn "/usr/bin/python3" ["-m"; "pip"; "list"; "--outdated"; "--format=json"];
   ViaSpawn "/usr/bin/python3" ["-m"; "pip"; "show"; "requests"]].
Proof.
  assert (Hpip : getPipCommand (Fixture.initial (Fixture.requests_with_latest "2.31.0")) =
                 (Return Fixture.python3_pip,
                  Fixture.after_pip (Fixture.requests_with_latest "2.31.0")))
    by (vm_compute; reflexivity).
  assert (Hlist : listInstalled Fixture.python3_pip
                    (Fixture.after_pip (Fixture.requests_with_latest "2.31.0")) =
                  (Return (Fixture.render_installed [Fixture.requests]),
                   Fixture.after_list (Fixture.requests_with_latest "2.31.0")))
    by (vm_compute; reflexivity).
  assert (Hparse : JSON_parse_installed (Fixture.render_installed [Fixture.requests]) =
                   Return [mkInstalled "requests" "2.28.0"])
    by (vm_compute; reflexivity).
  assert (Hout : outdatedOrEmpty Fixture.python3_pip
                   (Fixture.after_list (Fixture.requests_with_latest "2.31.0")) =
                 (Return (Fixture.render_outdated (Fixture.requestsOutdated "2.31.0")),
                  Fixture.after_outdated (Fixture.requests_with_latest "2.31.0")))
    by (vm_compute; reflexivity).
  assert (Hparse' : JSON_parse_outdated
                      (Fixture.render_outdated (Fixture.requestsOutdated "2.31.0")) =
                    Return [mkOutdated "requests" "2.28.0" "2.31.0"])
    by (vm_compute; reflexivity).
  split; [exact Hpip|]. split; [exact Hlist|]. split; [exact Hout|].
  exact (getInstalledPackages_processes _ _ _ _ _ _ _ _ _
           Hpip Hlist Hparse Hout Hparse').
Defined.


Lemma updatePackages_single_witness :
  updatePackage "a" (Fixture.initial Fixture.batch_mixed) =
  (Return true, snd (updatePackage "a" (Fixture.initial Fixture.batch_mixed))) /\
  fst (updatePackages ["a"] (Fixture.initial Fixture.batch_mixed)) =
  Return (mkUpdateResult ["a"] []).
Proof.
  assert (Hupdated : updatePackage "a" (Fixture.initial Fixture.batch_mixed) =
                     (Return true,
                      snd (updatePackage "a" (Fixture.initial Fixture.batch_mixed))))
    by (vm_compute; reflexivity).
  split; [exact Hupdated|].
  exact (f_equal fst (updatePackages_single _ _ _ Hupdated)).
Defined.

Lemma createVirtualEnvironment_no_workspace_witness :
  firstWorkspaceFolder (snd (getPythonPath (Fixture.initial (Fixture.machine [])))) =
  None /\
  fst (createVirtualEnvironment "fresh" (Fixture.initial (Fixture.machine []))) =
  Return None.
Proof.
  assert (Hnone : firstWorkspaceFolder
                    (snd (getPythonPath (Fixture.initial (Fixture.machine [])))) =
                  None) by (vm_compute; reflexivity).
  split; [exact Hnone|].
  exact (proj1 (createVirtualEnvironment_no_workspace "fresh" _ Hnone)).
Defined.

Lemma createVirtualEnvironment_created_witness :
  createVirtualEnvironment "fresh" (Fixture.initial Desk.makes_fresh) =
  (Return (Some (mkEnvironmentInfo "fresh" "/proj/fresh" false)),
   snd (createVirtualEnvironment "fresh" (Fixture.initial Desk.makes_fresh))) /\
  environments (snd (createVirtualEnvironment "fresh"
                                              (Fixture.initial Desk.makes_fresh))) =
  environments (Fixture.initial Desk.makes_fresh).
Proof.
  assert (Hcreated : createVirtualEnvironment "fresh" (Fixture.initial Desk.makes_fresh) =
                     (Return (Some (mkEnvironmentInfo "fresh" "/proj/fresh" false)),
                      snd (createVirtualEnvironment
                             "fresh" (Fixture.initial Desk.makes_fresh))))
    by (vm_compute; reflexivity).
  split; [exact Hcreated|].
  destruct (createVirtualEnvironment_created _ _ _ _ Hcreated)
    as (pythonPath & s1 & folder & out & _ & _ & _ & _ & _ & Hheld & _).
  exact Hheld.
Defined.

Lemma searchPackages_script_argv_witness :
  getPipCommand (executor (Desk.session (Fixture.initial (Fixture.machine [])))) =
  (Return Fixture.python3_pip, Fixture.after_pip (Fixture.machine [])) /\
  exists later,
    processes (executor (snd (searchPackages
                                "requests"
                                (Desk.session (Fixture.initial (Fixture.machine [])))))) =
    processes (Fixture.after_pip (Fixture.machine [])) ++
    [ViaSpawn "/usr/bin/python3"
              ["-m"; "pip"; "/tmp/piping_search.py"; "requests"]] ++ later.
Proof.
  assert (Hpip : getPipCommand
                   (executor (Desk.session (Fixture.initial (Fixture.machine [])))) =
                 (Return Fixture.python3_pip, Fixture.after_pip (Fixture.machine [])))
    by (vm_compute; reflexivity).
  assert (Hwrite : writeFile
                     (path_join [os_tmpdir (world (Fixture.after_pip (Fixture.machine [])));
                                 "piping_search.py"])
                     scriptContent (Fixture.after_pip (Fixture.machine [])) =
                   (Return tt, Fixture.after_pip (Fixture.machine [])))
    by (vm_compute; reflexivity).
  split; [exact Hpip|].
  exact (searchPackages_script_argv "requests" _ _ _ _ Hpip Hwrite).
Defined.

Lemma environment_getChildren_flags_witness :
  2 ∈ environments
        (executor (snd (PipingEnvironmentProvider.getChildren
                          None (Desk.session (Fixture.selected_venv Fixture.workspace))))) /\
  heap (executor (snd (PipingEnvironmentProvider.getChildren
                         None (Desk.session (Fixture.selected_venv Fixture.workspace)))))
  !! 2 = Some (mkEnvironmentInfo ".venv" "/proj/.venv" false) /\
  false = isCurrentPath (executor (Desk.session (Fixture.selected_venv Fixture.workspace)))
                        "/proj/.venv".
Proof.
  assert (Hheld : 2 ∈ environments
                        (executor (snd (PipingEnvironmentProvider.getChildren
                                          None
                                          (Desk.session
                                             (Fixture.selected_venv Fixture.workspace))))))
    by (vm_compute; left).
  assert (Hrecord : heap (executor (snd (PipingEnvironmentProvider.getChildren
                                           None
                                           (Desk.session
                                              (Fixture.selected_venv Fixture.workspace)))))
                    !! 2 = Some (mkEnvironmentInfo ".venv" "/proj/.venv" false))
    by (vm_compute; reflexivity).
  split; [exact Hheld|]. split; [exact Hrecord|].
  exact (environment_getChildren_flags _ 2 _ Hheld Hrecord).
Defined.

Lemma selection_survives_rescan_witness :
  List.find (hasName (heap (executor (Desk.session
                                        (Fixture.selected_venv Fixture.workspace))))
                     ".venv")
            (environments (executor (Desk.session
                                       (Fixture.selected_venv Fixture.workspace)))) =
  Some 1 /\
  heap (executor (Desk.session (Fixture.selected_venv Fixture.workspace))) !! 1 =
  Some Fixture.dotvenv /\
  currentEnv
    (executor
       (snd (PipingEnvironmentProvider.getChildren
               None
               (snd (run (setActiveEnvironment ".venv")
                         (Desk.session (Fixture.selected_venv Fixture.workspace))))))) =
  Some 1.
Proof.
  assert (Hmatch : List.find
                     (hasName (heap (executor (Desk.session
                                                 (Fixture.selected_venv Fixture.workspace))))
                              ".venv")
                     (environments (executor (Desk.session
                                                (Fixture.selected_venv Fixture.workspace)))) =
                   Some 1) by (vm_compute; reflexivity).
  assert (Hrecord : heap (executor (Desk.session
                                      (Fixture.selected_venv Fixture.workspace))) !! 1 =
                    Some Fixture.dotvenv) by (vm_compute; reflexivity).
  split; [exact Hmatch|]. split; [exact Hrecord|].
  pose proof (selection_survives_rescan ".venv" _ 1 _ Hmatch Hrecord) as H.
  cbv zeta in H. exact (proj1 H).
Defined.

Lemma switchEnvironment_selects_by_name_witness :
  heap (executor (Desk.session (Desk.twins (Fixture.machine [])))) !! 1 =
  Some (Desk.venv_in "/b") /\
  List.find (hasName (heap (executor (Desk.session (Desk.twins (Fixture.machine [])))))
                     "venv")
            (environments (executor (Desk.session (Desk.twins (Fixture.machine []))))) =
  Some 0 /\
  exists u',
    PipingCommandManager.switchEnvironment
      (Some (PipingEnvironmentProvider.newEnvironmentTreeItem 1 (Desk.venv_in "/b")))
      (Desk.session (Desk.twins (Fixture.machine []))) = (Return tt, u') /\
    activeRecords (executor u') = {[ 0 ]} /\
    currentEnv (executor u') = Some 0.
Proof.
  assert (Hitem : heap (executor (Desk.session (Desk.twins (Fixture.machine []))))
                  !! PipingEnvironmentProvider.envInfo
                       (PipingEnvironmentProvider.newEnvironmentTreeItem
                          1 (Desk.venv_in "/b")) =
                  Some (Desk.venv_in "/b")) by (vm_compute; reflexivity).
  assert (Hinactive : env_isActive (Desk.venv_in "/b") = false) by reflexivity.
  assert (Hfirst : List.find
                     (hasName (heap (executor (Desk.session
                                                 (Desk.twins (Fixture.machine [])))))
                              (env_name (Desk.venv_in "/b")))
                     (environments (executor (Desk.session
                                                (Desk.twins (Fixture.machine []))))) =
                   Some 0) by (vm_compute; reflexivity).
  split; [exact Hitem|]. split; [exact Hfirst|].
  destruct (switchEnvironment_selects_by_name _ _ _ _ Hitem Hinactive Hfirst)
    as (u' & Hrun & Hactive & Hcurrent & _).
  exists u'. split; [exact Hrun|]. split; [exact Hactive | exact Hcurrent].
Defined.

Lemma switchEnvironment_without_item_witness :
  List.find (hasName (heap (executor (Desk.session
                                        (Fixture.selected_venv (Fixture.machine [])))))
                     EmptyString)
            (environments (executor (Desk.session
                                       (Fixture.selected_venv (Fixture.machine []))))) =
  None /\
  exists u',
    PipingCommandManager.switchEnvironment
      None (Desk.session (Fixture.selected_venv (Fixture.machine []))) =
    (Return tt, u') /\
    activeRecords (executor u') = ∅ /\
    currentEnv (executor u') = Some 0 /\
    informationMessages u' = ["Switched to environment ''"].
Proof.
  assert (Hunnamed : List.find
                       (hasName (heap (executor
                                         (Desk.session
                                            (Fixture.selected_venv (Fixture.machine [])))))
                                EmptyString)
                       (environments (executor
                                        (Desk.session
                                           (Fixture.selected_venv (Fixture.machine []))))) =
                     None) by (vm_compute; reflexivity).
  split; [exact Hunnamed|].
  destruct (switchEnvironment_without_item _ Hunnamed)
    as (u' & Hrun & Hactive & Hcurrent & _ & Hsaid).
  exists u'. split; [exact Hrun|]. split; [exact Hactive|].
  split; [exact Hcurrent | exact Hsaid].
Defined.

Lemma commands_discard_typed_name_witness :
  truthy "requests" = true /\
  List.find (fun p => String.eqb (pkg_name p) "requests")
            (heldPackages (Desk.holding [Desk.requests]
                                        (Fixture.initial (Fixture.machine [])))) =
  Some Desk.requests /\
  processes (executor (snd (PipingCommandManager.uninstallPackage
                              None (Some "requests") (Some "Yes")
                              (Desk.holding [Desk.requests]
                                            (Fixture.initial (Fixture.machine [])))))) =
  processes (snd (uninstallPackage EmptyString (Fixture.initial (Fixture.machine [])))).
Proof.
  assert (Htyped : truthy "requests" = true) by reflexivity.
  assert (Hheld : List.find (fun p => String.eqb (pkg_name p) "requests")
                    (heldPackages (Desk.holding [Desk.requests]
                                                (Fixture.initial (Fixture.machine [])))) =
                  Some Desk.requests) by (vm_compute; reflexivity).
  split; [exact Htyped|]. split; [exact Hheld|].
  exact (proj2 (proj1 (commands_discard_typed_name _ _ _ Htyped Hheld))).
Defined.

